(** * Progress tracking and content consistency of the LMS backend

    A shallow embedding of the progress model ([src/models/Progress.ts]),
    the module, lecture and course models with their validators and
    hooks, and the progress, module and lecture services, followed by
    the properties the specification states about them.

    Documents are records, MongoDB collections are lists in insertion
    order, ObjectIds are the hexadecimal strings that the code compares
    through [toString()], integer-valued counters are [Z], and the
    percentage computation is carried out on binary64 numbers as
    JavaScript does.  A new document is validated before its pre-save
    hooks run, as Mongoose orders them. *)

From Stdlib Require Import ZArith Floats.
From stdpp Require Import base numbers option list sorting strings.

Local Open Scope Z_scope.

(** ** Data model *)

Abbreviation ObjectId := string (only parsing).
(** Milliseconds since the epoch, the value of [new Date()]. *)
Abbreviation Date := Z (only parsing).

(** Outcome of a call that may throw [new Error(msg)]. *)
Inductive outcome (A : Type) : Type :=
| Returned (a : A)
| Thrown (msg : string).
Arguments Returned {A} a.
Arguments Thrown {A} msg.

(** [types/progress.ts] *)
Record ILectureProgress := {
  lp_lectureId : ObjectId;
  lp_completedAt : option Date;
  lp_watchTime : float;
  lp_isCompleted : bool
}.

Record IModuleProgress := {
  mp_moduleId : ObjectId;
  mp_lectures : list ILectureProgress;
  mp_completedLectures : Z;
  mp_totalLectures : Z;
  mp_isCompleted : bool;
  mp_completedAt : option Date
}.

Record IProgress := {
  pg_userId : ObjectId;
  pg_courseId : ObjectId;
  pg_modules : list IModuleProgress;
  pg_completedModules : Z;
  pg_totalModules : Z;
  pg_completedLectures : Z;
  pg_totalLectures : Z;
  pg_progressPercentage : Z;
  pg_isCompleted : bool;
  pg_completedAt : option Date;
  pg_lastAccessedAt : Date
}.

(** [types/course.ts], [types/module.ts], [types/lecture.ts]: the fields
    the progress engine, the statistics and the module service read or
    write. *)
Record ICourse := {
  c_id : ObjectId;
  c_title : string;
  c_isActive : bool;
  c_totalModules : Z;
  c_totalLectures : Z;
  c_totalDuration : Z
}.

Record IModule := {
  m_id : ObjectId;
  m_title : string;
  m_moduleNumber : Z;
  m_courseId : ObjectId;
  m_isActive : bool;
  m_lectureCount : Z;
  m_totalDuration : Z
}.

Record IPDFNote := {
  n_fileName : string;
  n_originalName : string;
  n_filePath : string;
  n_fileSize : Z;
  n_uploadedAt : Date
}.

Record ILecture := {
  l_id : ObjectId;
  l_title : string;
  l_videoUrl : string;
  l_duration : Z;
  l_moduleId : ObjectId;
  l_courseId : ObjectId;
  l_lectureNumber : Z;
  l_pdfNotes : list IPDFNote;
  l_isActive : bool
}.

(** The collections of the database. *)
Record Store := {
  courses : list ICourse;
  modules : list IModule;
  lectures : list ILecture;
  progresses : list IProgress
}.

(** ** Numbers

    [Number z] is the binary64 value of an integer counter (of magnitude
    below 2^63) and [Math_round] is [Math.round]: the integer nearest to
    its argument, ties going towards plus infinity, computed exactly
    from the mantissa and exponent.  It is only applied to finite
    values. *)
Definition Number (z : Z) : float :=
  if z <? 0 then PrimFloat.opp (PrimFloat.of_uint63 (Uint63.of_Z (- z)))
  else PrimFloat.of_uint63 (Uint63.of_Z z).

Definition Math_round (x : float) : Z :=
  match Prim2SF x with
  | S754_finite s m e =>
      let n := if s then Z.neg m else Z.pos m in
      if 0 <=? e then n * 2 ^ e
      else (2 * n + 2 ^ (- e)) `div` 2 ^ (1 - e)
  | _ => 0
  end.

(** ** Progress model ([src/models/Progress.ts]) *)

(** The orders of [.sort({moduleNumber: 1})] and [.sort({lectureNumber: 1})]. *)
Definition by_moduleNumber (a b : IModule) : Prop :=
  m_moduleNumber a ≤ m_moduleNumber b.
Definition by_lectureNumber (a b : ILecture) : Prop :=
  l_lectureNumber a ≤ l_lectureNumber b.

Global Instance by_moduleNumber_dec : RelDecision by_moduleNumber.
Proof. intros a b. unfold by_moduleNumber. apply _. Defined.
Global Instance by_lectureNumber_dec : RelDecision by_lectureNumber.
Proof. intros a b. unfold by_lectureNumber. apply _. Defined.

(** [Module.find({courseId, isActive: true}).sort({moduleNumber: 1})] *)
Definition active_modules_sorted (courseId : ObjectId) (s : Store) : list IModule :=
  merge_sort by_moduleNumber
    (filter (λ m, m_courseId m = courseId ∧ m_isActive m = true) (modules s)).

(** [Lecture.find({courseId, isActive: true}).sort({lectureNumber: 1})] *)
Definition active_lectures_sorted (courseId : ObjectId) (s : Store) : list ILecture :=
  merge_sort by_lectureNumber
    (filter (λ l, l_courseId l = courseId ∧ l_isActive l = true) (lectures s)).

Definition fresh_lecture_progress (lecture : ILecture) : ILectureProgress :=
  {| lp_lectureId := l_id lecture;
     lp_completedAt := None;
     lp_watchTime := 0%float;
     lp_isCompleted := false |}.

Definition fresh_module_progress (lectures : list ILecture) (module : IModule)
  : IModuleProgress :=
  let moduleLectures := filter (λ lecture, l_moduleId lecture = m_id module) lectures in
  {| mp_moduleId := m_id module;
     mp_lectures := fresh_lecture_progress <$> moduleLectures;
     mp_completedLectures := 0;
     mp_totalLectures := Z.of_nat (length moduleLectures);
     mp_isCompleted := false;
     mp_completedAt := None |}.

Definition same_key (userId courseId : ObjectId) (p : IProgress) : Prop :=
  pg_userId p = userId ∧ pg_courseId p = courseId.

Global Instance same_key_dec userId courseId p : Decision (same_key userId courseId p).
Proof. unfold same_key. apply _. Defined.

(** [initializeForCourse]: the snapshot is built from the active modules
    and lectures and written with [findOneAndUpdate(.., {upsert: true})];
    an existing document keeps the one field the update does not list,
    [completedAt]. *)
Definition initializeForCourse (now : Date) (userId courseId : ObjectId) (s : Store)
  : Store * IProgress :=
  let modules_ := active_modules_sorted courseId s in
  let lectures_ := active_lectures_sorted courseId s in
  let moduleProgress := fresh_module_progress lectures_ <$> modules_ in
  let totalLectures :=
    foldl (λ total mp, total + mp_totalLectures mp) 0 moduleProgress in
  let existing := list_find (same_key userId courseId) (progresses s) in
  let progress :=
    {| pg_userId := userId;
       pg_courseId := courseId;
       pg_modules := moduleProgress;
       pg_completedModules := 0;
       pg_totalModules := Z.of_nat (length modules_);
       pg_completedLectures := 0;
       pg_totalLectures := totalLectures;
       pg_progressPercentage := 0;
       pg_isCompleted := false;
       pg_completedAt := existing ≫= (pg_completedAt ∘ snd);
       pg_lastAccessedAt := now |} in
  let progresses' :=
    match existing with
    | Some (i, _) => <[i := progress]> (progresses s)
    | None => progresses s ++ [progress]
    end in
  ({| courses := courses s; modules := modules s; lectures := lectures s;
      progresses := progresses' |}, progress).

Definition has_lecture (lectureId : string) (module : IModuleProgress) : Prop :=
  Exists (λ lecture, lp_lectureId lecture = lectureId) (mp_lectures module).

Global Instance has_lecture_dec lectureId module : Decision (has_lecture lectureId module).
Proof. unfold has_lecture. apply _. Defined.

(** The assignments to [lecture] in [updateLectureProgress]. *)
Definition update_lecture (now : Date) (watchTime : option float)
    (isCompleted : option bool) (lecture : ILectureProgress) : ILectureProgress :=
  let watchTime' := default (lp_watchTime lecture) watchTime in
  match isCompleted with
  | None =>
      {| lp_lectureId := lp_lectureId lecture;
         lp_completedAt := lp_completedAt lecture;
         lp_watchTime := watchTime';
         lp_isCompleted := lp_isCompleted lecture |}
  | Some isCompleted =>
      {| lp_lectureId := lp_lectureId lecture;
         lp_completedAt :=
           if isCompleted
           then (match lp_completedAt lecture with
                 | None => Some now
                 | Some d => Some d
                 end)
           else None;
         lp_watchTime := watchTime';
         lp_isCompleted := isCompleted |}
  end.

(** "Recalculate module progress": the module with its lecture list
    already updated. *)
Definition recalculate_module (now : Date) (module : IModuleProgress)
    (lectures' : list ILectureProgress) : IModuleProgress :=
  let completedLectures :=
    Z.of_nat (length (filter (λ l, lp_isCompleted l = true) lectures')) in
  let isCompleted := bool_decide (completedLectures = mp_totalLectures module) in
  {| mp_moduleId := mp_moduleId module;
     mp_lectures := lectures';
     mp_completedLectures := completedLectures;
     mp_totalLectures := mp_totalLectures module;
     mp_isCompleted := isCompleted;
     mp_completedAt :=
       if isCompleted
       then (match mp_completedAt module with
             | None => Some now
             | Some d => Some d
             end)
       else None |}.

Definition percentage (completedLectures totalLectures : Z) : Z :=
  if decide (0 < totalLectures)
  then Math_round (PrimFloat.mul
                     (PrimFloat.div (Number completedLectures) (Number totalLectures))
                     100%float)
  else 0.

(** "Recalculate overall progress". *)
Definition recalculate_progress (now : Date) (this : IProgress)
    (modules' : list IModuleProgress) : IProgress :=
  let completedLectures :=
    foldl (λ total mod_, total + mp_completedLectures mod_) 0 modules' in
  let completedModules :=
    Z.of_nat (length (filter (λ mod_, mp_isCompleted mod_ = true) modules')) in
  let isCompleted := bool_decide (completedModules = pg_totalModules this) in
  {| pg_userId := pg_userId this;
     pg_courseId := pg_courseId this;
     pg_modules := modules';
     pg_completedModules := completedModules;
     pg_totalModules := pg_totalModules this;
     pg_completedLectures := completedLectures;
     pg_totalLectures := pg_totalLectures this;
     pg_progressPercentage := percentage completedLectures (pg_totalLectures this);
     pg_isCompleted := isCompleted;
     pg_completedAt :=
       if isCompleted
       then (match pg_completedAt this with
             | None => Some now
             | Some d => Some d
             end)
       else None;
     pg_lastAccessedAt := now |}.

(** [updateLectureProgress]: the document after the call, which
    [this.save()] persists, and whether the call returned or threw.
    [lecture] and [module] alias entries of [this.modules], so their
    mutation is an in-place update of the nested lists. *)
Definition updateLectureProgress (now : Date) (lectureId : string)
    (watchTime : option float) (isCompleted : option bool) (this : IProgress)
  : IProgress * outcome unit :=
  match list_find (has_lecture lectureId) (pg_modules this) with
  | None => (this, Thrown "Lecture not found in progress")
  | Some (moduleIndex, module) =>
      match list_find (λ lecture, lp_lectureId lecture = lectureId)
                      (mp_lectures module) with
      | None => (this, Thrown "Lecture not found in module")
      | Some (lectureIndex, lecture) =>
          let lecture' := update_lecture now watchTime isCompleted lecture in
          let module' :=
            recalculate_module now module
              (<[lectureIndex := lecture']> (mp_lectures module)) in
          (recalculate_progress now this
             (<[moduleIndex := module']> (pg_modules this)),
           Returned ())
      end
  end.

(** Which [return] of [getNextUnlockedLecture] produced the result. *)
Inductive branch := FirstOfModule | PreviousCompleted | PreviousIncomplete.

(** The inner [for] loop at index [i]; [rest] holds [lectures[i..]].
    [None] means the loop ended without returning.  [lectures[i - 1]]
    exists whenever it is read, since [0 < i < lectures.length] there. *)
Fixpoint next_in_module (lectures rest : list ILectureProgress) (i : nat)
  : option (branch * ObjectId) :=
  match rest with
  | [] => None
  | lecture :: rest' =>
      if negb (lp_isCompleted lecture) then
        if decide (i = 0%nat) then Some (FirstOfModule, lp_lectureId lecture)
        else
          match lectures !! (i - 1)%nat with
          | Some previousLecture =>
              if lp_isCompleted previousLecture
              then Some (PreviousCompleted, lp_lectureId lecture)
              else Some (PreviousIncomplete, lp_lectureId previousLecture)
          | None => None
          end
      else next_in_module lectures rest' (S i)
  end.

Fixpoint next_in_modules (modules : list IModuleProgress)
  : option (branch * ObjectId) :=
  match modules with
  | [] => None
  | module :: modules' =>
      match next_in_module (mp_lectures module) (mp_lectures module) 0 with
      | Some r => Some r
      | None => next_in_modules modules'
      end
  end.

Definition getNextUnlockedLecture_traced (this : IProgress)
  : option (branch * ObjectId) :=
  next_in_modules (pg_modules this).

(** [getNextUnlockedLecture]; [None] is [null]. *)
Definition getNextUnlockedLecture (this : IProgress) : option ObjectId :=
  snd <$> getNextUnlockedLecture_traced this.

(** The lookup loops of [isLectureUnlocked]. *)
Fixpoint unlocked_in_module (lectureId nextUnlocked : string)
    (lectures rest : list ILectureProgress) (i : nat) : option bool :=
  match rest with
  | [] => None
  | lecture :: rest' =>
      if decide (lp_lectureId lecture = lectureId) then
        if decide (Exists (λ l, lp_lectureId l = nextUnlocked) (take (S i) lectures))
        then Some true
        else Some (lp_isCompleted lecture)
      else unlocked_in_module lectureId nextUnlocked lectures rest' (S i)
  end.

Fixpoint unlocked_in_modules (lectureId nextUnlocked : string)
    (modules : list IModuleProgress) : bool :=
  match modules with
  | [] => false
  | module :: modules' =>
      match unlocked_in_module lectureId nextUnlocked
              (mp_lectures module) (mp_lectures module) 0 with
      | Some b => b
      | None => unlocked_in_modules lectureId nextUnlocked modules'
      end
  end.

Definition isLectureUnlocked (lectureId : string) (this : IProgress) : bool :=
  match getNextUnlockedLecture this with
  | None => true
  | Some nextUnlocked => unlocked_in_modules lectureId nextUnlocked (pg_modules this)
  end.

(** The flattened module/lecture sequence of a snapshot. *)
Definition flattened (this : IProgress) : list ILectureProgress :=
  concat (mp_lectures <$> pg_modules this).

(** What the specification says [GetNextUnlockedLecture] returns: the id
    of the first lecture of the flattened sequence that is not completed. *)
Definition first_incomplete (ls : list ILectureProgress) : option ObjectId :=
  (lp_lectureId ∘ snd) <$> list_find (λ l, lp_isCompleted l = false) ls.

(** What the specification says [IsLectureUnlocked] returns for a lecture
    of the snapshot: [true] when nothing is left to unlock or when the
    lecture stands at or before the next unlocked one in the flattened
    sequence, and the lecture's own flag when it stands after it. *)
Definition spec_isLectureUnlocked (lectureId : string) (this : IProgress) : bool :=
  match getNextUnlockedLecture this with
  | None => true
  | Some nextUnlocked =>
      match list_find (λ l, lp_lectureId l = lectureId) (flattened this),
            list_find (λ l, lp_lectureId l = nextUnlocked) (flattened this) with
      | Some (i, lecture), Some (n, _) =>
          if decide (i ≤ n)%nat then true else lp_isCompleted lecture
      | _, _ => false
      end
  end.

(** ** Reachable progress documents *)

(** The documents the code can produce: the result of
    [initializeForCourse], then any number of [updateLectureProgress]
    calls (a call that throws leaves the document as it was). *)
Inductive reachable : IProgress → Prop :=
| reachable_init now userId courseId s :
    reachable (snd (initializeForCourse now userId courseId s))
| reachable_update now lectureId watchTime isCompleted this :
    reachable this →
    reachable (fst (updateLectureProgress now lectureId watchTime isCompleted this)).

(** Sequential unlocking as a property of a snapshot: a completed lecture
    has every lecture before it in the flattened sequence completed. *)
Definition sequentially_unlocked (this : IProgress) : Prop :=
  ∀ (i j : nat) (li lj : ILectureProgress),
    (i < j)%nat →
    flattened this !! i = Some li →
    flattened this !! j = Some lj →
    lp_isCompleted lj = true → lp_isCompleted li = true.

(** Documents produced when the caller follows the unlock order: a call
    either leaves [isCompleted] unset or completes the lecture that
    [getNextUnlockedLecture] returns at that moment. *)
Inductive reachable_in_order : IProgress → Prop :=
| in_order_init now userId courseId s :
    reachable_in_order (snd (initializeForCourse now userId courseId s))
| in_order_watch now lectureId watchTime this :
    reachable_in_order this →
    reachable_in_order (fst (updateLectureProgress now lectureId watchTime None this))
| in_order_complete now lectureId watchTime this :
    reachable_in_order this →
    getNextUnlockedLecture this = Some lectureId →
    reachable_in_order
      (fst (updateLectureProgress now lectureId watchTime (Some true) this)).

(** The effect of [updateLectureProgress] on the flattened sequence: [g]
    is applied to the first entry carrying [lectureId]. *)
Fixpoint update_first (lectureId : string) (g : ILectureProgress → ILectureProgress)
    (ls : list ILectureProgress) : list ILectureProgress :=
  match ls with
  | [] => []
  | x :: rest =>
      if decide (lp_lectureId x = lectureId) then g x :: rest
      else x :: update_first lectureId g rest
  end.

(** The completion flags are a run of [true] followed by a run of [false]. *)
Fixpoint completed_prefix (flags : list bool) : Prop :=
  match flags with
  | [] => True
  | b :: rest => if b then completed_prefix rest else Forall (λ b', b' = false) rest
  end.

Definition flags (ls : list ILectureProgress) : list bool := lp_isCompleted <$> ls.

(** What the specification says the percentage is:
    [round(completedLectures / totalLectures * 100)] of the exact
    quotient, a half rounded up as [Math.round] rounds it, and 0 when
    [totalLectures] is 0.  For a positive total,
    [floor(100 c / t + 1/2) = floor((200 c + t) / (2 t))]. *)
Definition spec_progressPercentage (completedLectures totalLectures : Z) : Z :=
  if decide (totalLectures = 0) then 0
  else (200 * completedLectures + totalLectures) `div` (2 * totalLectures).

(** [100 * completedLectures / totalLectures] lies exactly halfway
    between two integers. *)
Definition exact_half (completedLectures totalLectures : Z) : Prop :=
  0 < totalLectures
  ∧ (200 * completedLectures + totalLectures) `mod` (2 * totalLectures) = 0.

Global Instance exact_half_dec c t : Decision (exact_half c t).
Proof. unfold exact_half. apply _. Defined.

(** The computed percentage of one pair of counters is the exact
    rounding, or the integer below it at an exact half. *)
Definition percentage_close (completedLectures totalLectures : Z) : bool :=
  let computed := percentage completedLectures totalLectures in
  let exact := spec_progressPercentage completedLectures totalLectures in
  (computed =? exact)
  || (bool_decide (exact_half completedLectures totalLectures)
      && (computed =? exact - 1)).

(** The same for all pairs [0 <= completedLectures <= totalLectures <= n]. *)
Definition percentage_close_up_to (n : Z) : Prop :=
  Forall (λ t, Forall (λ c, percentage_close c t = true) (seqZ 0 (t + 1)))
         (seqZ 0 (n + 1)).

Global Instance percentage_close_up_to_dec n : Decision (percentage_close_up_to n).
Proof. unfold percentage_close_up_to. apply _. Defined.

(** ** A sample course: module A with lectures a1, a2, a3 and module B
    with lecture b1. *)
Definition sample_lecture (id moduleId : ObjectId) (number duration : Z) : ILecture :=
  {| l_id := id; l_title := "Lecture " +:+ id; l_videoUrl := "https://videos.example/" +:+ id;
     l_duration := duration; l_moduleId := moduleId; l_courseId := "c1";
     l_lectureNumber := number; l_pdfNotes := []; l_isActive := true |}.

Definition sample_module (id : ObjectId) (title : string) (number : Z) : IModule :=
  {| m_id := id; m_title := title; m_moduleNumber := number; m_courseId := "c1";
     m_isActive := true; m_lectureCount := 0; m_totalDuration := 0 |}.

Definition sample_store : Store :=
  {| courses := [ {| c_id := "c1"; c_title := "Course"; c_isActive := true;
                     c_totalModules := 0; c_totalLectures := 0; c_totalDuration := 0 |} ];
     modules := [ sample_module "a" "Module A" 1; sample_module "b" "Module B" 2 ];
     lectures := [ sample_lecture "a1" "a" 1 10; sample_lecture "a2" "a" 2 20;
                   sample_lecture "a3" "a" 3 30; sample_lecture "b1" "b" 1 5 ];
     progresses := [] |}.

Definition sample_progress : IProgress :=
  snd (initializeForCourse 1000 "u1" "c1" sample_store).

(** ** Collections *)

Definition set_courses (cs : list ICourse) (s : Store) : Store :=
  {| courses := cs; modules := modules s; lectures := lectures s;
     progresses := progresses s |}.
Definition set_modules (ms : list IModule) (s : Store) : Store :=
  {| courses := courses s; modules := ms; lectures := lectures s;
     progresses := progresses s |}.
Definition set_lectures (ls : list ILecture) (s : Store) : Store :=
  {| courses := courses s; modules := modules s; lectures := ls;
     progresses := progresses s |}.

Definition Course_findById (id : string) (s : Store) : option ICourse :=
  snd <$> list_find (λ c, c_id c = id) (courses s).
Definition Module_findById (id : string) (s : Store) : option IModule :=
  snd <$> list_find (λ m, m_id m = id) (modules s).

(** ** Statistics ([calculateStats], [calculateLectureStats]) *)

Record LectureStats := { st_lectureCount : Z; st_totalDuration : Z }.
Record CourseStats := {
  cst_totalModules : Z; cst_totalLectures : Z; cst_totalDuration : Z
}.

(** [Lecture.aggregate([{$match}, {$group: {_id: null, n: {$sum: 1},
    d: {$sum: '$duration'}}}])] on the matched lectures: one group when a
    lecture matches, none otherwise. *)
Definition aggregate_group (matched : list ILecture) : list (Z * Z) :=
  match matched with
  | [] => []
  | _ => [(Z.of_nat (length matched),
           foldl (λ total l, total + l_duration l) 0 matched)]
  end.

Definition with_course_stats (st : CourseStats) (c : ICourse) : ICourse :=
  {| c_id := c_id c; c_title := c_title c; c_isActive := c_isActive c;
     c_totalModules := cst_totalModules st;
     c_totalLectures := cst_totalLectures st;
     c_totalDuration := cst_totalDuration st |}.

Definition with_lecture_stats (st : LectureStats) (m : IModule) : IModule :=
  {| m_id := m_id m; m_title := m_title m; m_moduleNumber := m_moduleNumber m;
     m_courseId := m_courseId m; m_isActive := m_isActive m;
     m_lectureCount := st_lectureCount st;
     m_totalDuration := st_totalDuration st |}.

(** [courseSchema.methods.calculateStats]; [this.save()] writes the three
    counters to the stored course with [this._id]. *)
Definition calculateStats (this : ICourse) (s : Store) : Store * CourseStats :=
  let totalModules :=
    Z.of_nat (length (filter (λ m, m_courseId m = c_id this ∧ m_isActive m = true)
                             (modules s))) in
  let lectureStats :=
    aggregate_group
      (filter (λ l, l_courseId l = c_id this ∧ l_isActive l = true) (lectures s)) in
  let stats := default (0, 0) (head lectureStats) in
  let result :=
    {| cst_totalModules := totalModules;
       cst_totalLectures := fst stats;
       cst_totalDuration := snd stats |} in
  let s' :=
    match list_find (λ c, c_id c = c_id this) (courses s) with
    | Some (i, c) => set_courses (<[i := with_course_stats result c]> (courses s)) s
    | None => s
    end in
  (s', result).

(** [moduleSchema.post('save')] *)
Definition Module_post_save (this : IModule) (s : Store) : Store :=
  match Course_findById (m_courseId this) s with
  | Some course => fst (calculateStats course s)
  | None => s
  end.

(** [moduleSchema.methods.calculateLectureStats]; [this.save()] writes the
    two counters to the stored module with [this._id] and then runs the
    post-save hook. *)
Definition calculateLectureStats (this : IModule) (s : Store) : Store * LectureStats :=
  let stats :=
    aggregate_group
      (filter (λ l, l_moduleId l = m_id this ∧ l_isActive l = true) (lectures s)) in
  let lectureStats := default (0, 0) (head stats) in
  let result :=
    {| st_lectureCount := fst lectureStats; st_totalDuration := snd lectureStats |} in
  let s1 :=
    match list_find (λ m, m_id m = m_id this) (modules s) with
    | Some (i, m) => set_modules (<[i := with_lecture_stats result m]> (modules s)) s
    | None => s
    end in
  (Module_post_save this s1, result).

(** [lectureSchema.post('save')] *)
Definition Lecture_post_save (this : ILecture) (s : Store) : Store :=
  match Module_findById (l_moduleId this) s with
  | Some module => fst (calculateLectureStats module s)
  | None => s
  end.

(** The two recomputations as the callers run them: load the document,
    then call its method ([getModuleStats], [updateCourseStats]). *)
Definition RecomputeModuleStats (moduleId : string) (s : Store)
  : Store * option LectureStats :=
  match Module_findById moduleId s with
  | Some module =>
      let r := calculateLectureStats module s in (fst r, Some (snd r))
  | None => (s, None)
  end.

Definition RecomputeCourseStats (courseId : string) (s : Store)
  : Store * option CourseStats :=
  match Course_findById courseId s with
  | Some course => let r := calculateStats course s in (fst r, Some (snd r))
  | None => (s, None)
  end.

(** ** Module service ([ModuleService], [ModuleController]) *)

(** The unique index [{courseId: 1, moduleNumber: 1}] of the module
    collection: a stored module other than the one at position [i]
    already holds the pair. *)
Definition module_key_taken (i : nat) (courseId : ObjectId) (moduleNumber : Z)
    (ms : list IModule) : Prop :=
  Exists (λ m, m_courseId m = courseId ∧ m_moduleNumber m = moduleNumber)
         (delete i ms).

Global Instance module_key_taken_dec i courseId moduleNumber ms :
  Decision (module_key_taken i courseId moduleNumber ms).
Proof. unfold module_key_taken. apply _. Defined.

(** The message of the duplicate-key error the driver raises. *)
Definition E11000 : string := "E11000 duplicate key error".

Definition with_moduleNumber (moduleNumber : Z) (m : IModule) : IModule :=
  {| m_id := m_id m; m_title := m_title m; m_moduleNumber := moduleNumber;
     m_courseId := m_courseId m; m_isActive := m_isActive m;
     m_lectureCount := m_lectureCount m; m_totalDuration := m_totalDuration m |}.

(** [Module.findByIdAndUpdate(id, {moduleNumber}, {new: true})] *)
Definition Module_findByIdAndUpdate (id : string) (moduleNumber : Z) (s : Store)
  : Store * outcome (option IModule) :=
  match list_find (λ m, m_id m = id) (modules s) with
  | None => (s, Returned None)
  | Some (i, m) =>
      if decide (module_key_taken i (m_courseId m) moduleNumber (modules s))
      then (s, Thrown E11000)
      else
        let m' := with_moduleNumber moduleNumber m in
        (set_modules (<[i := m']> (modules s)) s, Returned (Some m'))
  end.

(** The [for] loop of [reorderModules] from index [i] on; [moduleIds]
    holds the ids not yet processed. *)
Fixpoint reorder_loop (moduleIds : list string) (i : nat)
    (updatedModules : list IModule) (s : Store) : Store * outcome (list IModule) :=
  match moduleIds with
  | [] => (s, Returned updatedModules)
  | id :: rest =>
      match Module_findByIdAndUpdate id (Z.of_nat i + 1) s with
      | (s', Returned (Some module)) =>
          reorder_loop rest (S i) (updatedModules ++ [module]) s'
      | (s', Returned None) => reorder_loop rest (S i) updatedModules s'
      | (s', Thrown msg) => (s', Thrown msg)
      end
  end.

(** [error.message.includes(sub)] *)
Definition includes (sub msg : string) : bool :=
  match String.index 0 sub msg with Some _ => true | None => false end.

Inductive HTTP_STATUS := OK | BAD_REQUEST | UNAUTHORIZED | NOT_FOUND.

Record Response := {
  status : HTTP_STATUS;
  success : bool;
  message : string;
  data : list IModule
}.

Section ModuleService.
(** The message constants [ERROR_MESSAGES.COURSE_NOT_FOUND] and
    [ERROR_MESSAGES.UNAUTHORIZED] of [utils/constants], which the service
    and the controller import. *)
Context (COURSE_NOT_FOUND UNAUTHORIZED_MESSAGE : string).

(** [ModuleService.reorderModules] *)
Definition reorderModules (courseId : string) (moduleIds : list string) (s : Store)
  : Store * outcome (list IModule) :=
  match Course_findById courseId s with
  | None => (s, Thrown COURSE_NOT_FOUND)
  | Some course =>
      let modules_ :=
        filter (λ m, m_id m ∈ moduleIds ∧ m_courseId m = courseId) (modules s) in
      if decide (length modules_ ≠ length moduleIds)
      then (s, Thrown "Some modules do not belong to this course")
      else reorder_loop moduleIds 0 [] s
  end.

(** [ModuleController.reorderModules]; [moduleIds] is [None] when the
    body field is not an array.  An error the handler does not map is
    thrown on to the error middleware. *)
Definition ModuleController_reorderModules (authenticated : bool)
    (courseId : string) (moduleIds : option (list string)) (s : Store)
  : Store * outcome Response :=
  if negb authenticated then
    (s, Returned {| status := UNAUTHORIZED; success := false;
                    message := UNAUTHORIZED_MESSAGE; data := [] |})
  else
    match moduleIds with
    | None | Some [] =>
        (s, Returned {| status := BAD_REQUEST; success := false;
                        message := "Module IDs array is required"; data := [] |})
    | Some moduleIds =>
        match reorderModules courseId moduleIds s with
        | (s', Returned reorderedModules) =>
            (s', Returned {| status := OK; success := true;
                             message := "Modules reordered successfully";
                             data := reorderedModules |})
        | (s', Thrown msg) =>
            if includes "do not belong to this course" msg
               || bool_decide (msg = COURSE_NOT_FOUND)
            then (s', Returned {| status := BAD_REQUEST; success := false;
                                  message := msg; data := [] |})
            else (s', Thrown msg)
        end
    end.
End ModuleService.

(** The order of [.sort({moduleNumber: -1})] and [.sort({lectureNumber: -1})]. *)
Definition descending {A} (number : A → Z) (a b : A) : Prop := number b ≤ number a.

Global Instance descending_dec {A} (number : A → Z) : RelDecision (descending number).
Proof. intros a b. unfold descending. apply _. Defined.

(** [.findOne(..).sort({number: -1})] on the matching documents. *)
Definition last_by {A} (number : A → Z) (matching : list A) : option A :=
  head (merge_sort (descending number) matching).

(** The unique index [{moduleId: 1, lectureNumber: 1}] of the lecture
    collection, for a document that is not stored yet. *)
Definition lecture_key_taken (moduleId : ObjectId) (lectureNumber : Z)
    (ls : list ILecture) : Prop :=
  Exists (λ l, l_moduleId l = moduleId ∧ l_lectureNumber l = lectureNumber) ls.

Global Instance lecture_key_taken_dec moduleId lectureNumber ls :
  Decision (lecture_key_taken moduleId lectureNumber ls).
Proof. unfold lecture_key_taken. apply _. Defined.

Definition with_lectureNumber (lectureNumber : Z) (l : ILecture) : ILecture :=
  {| l_id := l_id l; l_title := l_title l; l_videoUrl := l_videoUrl l;
     l_duration := l_duration l; l_moduleId := l_moduleId l;
     l_courseId := l_courseId l; l_lectureNumber := lectureNumber;
     l_pdfNotes := l_pdfNotes l; l_isActive := l_isActive l |}.

(** ** Schema setters and validators

    A string is held as its UTF-16 code units, each below 256, so that
    [String.length] is the [length] the validators compare. *)

(** The white space and line terminators that [String.prototype.trim]
    removes, among the code units below 256. *)
Definition is_white_space (c : Ascii.ascii) : bool :=
  let n := Ascii.nat_of_ascii c in
  ((9 <=? n)%nat && (n <=? 13)%nat) || (n =? 32)%nat || (n =? 160)%nat.

Fixpoint trimStart (str : string) : string :=
  match str with
  | String c rest => if is_white_space c then trimStart rest else str
  | EmptyString => EmptyString
  end.

Fixpoint trimEnd (str : string) : string :=
  match str with
  | String c rest =>
      match trimEnd rest with
      | EmptyString => if is_white_space c then EmptyString else String c EmptyString
      | rest' => String c rest'
      end
  | EmptyString => EmptyString
  end.

(** The setter of a string path declared with [trim: true]. *)
Definition trim (str : string) : string := trimEnd (trimStart str).

(** The failing paths of a validation, each with the message the schema
    gives for the validator that failed. *)
Abbreviation ValidationErrors := (list (string * string)) (only parsing).

(** The message of the [ValidationError] that is thrown: the [prefix]
    is ["<Model> validation failed"] for [save()] and
    ["Validation failed"] for an update run with [runValidators].
    Several failing paths are listed in schema order. *)
Definition ValidationError (prefix : string) (errors : ValidationErrors) : string :=
  prefix +:+ ": " +:+ String.concat ", " ((λ e, e.1 +:+ ": " +:+ e.2) <$> errors).

(** A string path with [required] and [maxlength: 100]: [required]
    rejects the empty string. *)
Definition required_string (path requiredMessage : string) (value : string)
  : ValidationErrors :=
  if decide (value = "") then [(path, requiredMessage)] else [].

Definition maxlength_100 (path maxlengthMessage : string) (value : string)
  : ValidationErrors :=
  if decide (100 < String.length value)%nat then [(path, maxlengthMessage)] else [].

(** A number path with [min: 1]. *)
Definition min_1 (path minMessage : string) (value : Z) : ValidationErrors :=
  if decide (value < 1) then [(path, minMessage)] else [].

(** A number path with [required] and [min: 1] of a new document.  A
    number that was not given is held as 0 and fails [required]; an
    explicit 0 is rejected as well (by [min], with the other message). *)
Definition required_min_1 (path requiredMessage minMessage : string) (value : Z)
  : ValidationErrors :=
  if decide (value = 0) then [(path, requiredMessage)] else min_1 path minMessage value.

(** The validators of [moduleSchema], run by [save()] before the
    pre-save hooks. *)
Definition Module_validate (this : IModule) : ValidationErrors :=
  required_string "title" "Module title is required" (m_title this)
  ++ maxlength_100 "title" "Module title cannot exceed 100 characters" (m_title this)
  ++ required_min_1 "moduleNumber" "Module number is required"
       "Module number must be at least 1" (m_moduleNumber this).

(** The validators of [lectureSchema]. *)
Definition Lecture_validate (this : ILecture) : ValidationErrors :=
  required_string "title" "Lecture title is required" (l_title this)
  ++ maxlength_100 "title" "Lecture title cannot exceed 100 characters" (l_title this)
  ++ required_string "videoUrl" "Video URL is required" (l_videoUrl this)
  ++ min_1 "duration" "Duration must be at least 1 minute" (l_duration this)
  ++ required_min_1 "lectureNumber" "Lecture number is required"
       "Lecture number must be at least 1" (l_lectureNumber this).

(** [moduleSchema.pre('save')] for a new document.  A number that was not
    given is held as 0, which [!this.moduleNumber] treats alike. *)
Definition Module_pre_save (this : IModule) (s : Store) : IModule :=
  if decide (m_moduleNumber this = 0) then
    let lastModule :=
      last_by m_moduleNumber
        (filter (λ m, m_courseId m = m_courseId this) (modules s)) in
    with_moduleNumber
      (match lastModule with
       | Some lastModule => m_moduleNumber lastModule + 1
       | None => 1
       end) this
  else this.

(** [lectureSchema.pre('save')] for a new document, with the same
    convention for a number that was not given. *)
Definition Lecture_pre_save (this : ILecture) (s : Store) : ILecture :=
  if decide (l_lectureNumber this = 0) then
    let lastLecture :=
      last_by l_lectureNumber
        (filter (λ l, l_moduleId l = l_moduleId this) (lectures s)) in
    with_lectureNumber
      (match lastLecture with
       | Some lastLecture => l_lectureNumber lastLecture + 1
       | None => 1
       end) this
  else this.

(** [save()] of a new module: validation, then the pre-save hook,
    insertion under the unique index and the post-save hook.  Validation
    is the first pre-save step, so a document without a number is
    rejected before the hook could number it. *)
Definition Module_save_new (this : IModule) (s : Store) : Store * outcome IModule :=
  match Module_validate this with
  | _ :: _ => (s, Thrown (ValidationError "Module validation failed" (Module_validate this)))
  | [] =>
      let this := Module_pre_save this s in
      if decide (module_key_taken (length (modules s)) (m_courseId this)
                   (m_moduleNumber this) (modules s))
      then (s, Thrown E11000)
      else (Module_post_save this (set_modules (modules s ++ [this]) s), Returned this)
  end.

(** [save()] of a new lecture, in the same order. *)
Definition Lecture_save_new (this : ILecture) (s : Store) : Store * outcome ILecture :=
  match Lecture_validate this with
  | _ :: _ => (s, Thrown (ValidationError "Lecture validation failed" (Lecture_validate this)))
  | [] =>
      let this := Lecture_pre_save this s in
      if decide (lecture_key_taken (l_moduleId this) (l_lectureNumber this) (lectures s))
      then (s, Thrown E11000)
      else (Lecture_post_save this (set_lectures (lectures s ++ [this]) s), Returned this)
  end.

(** [new Lecture({...})] in [duplicateModule]: the copy carries no
    [lectureNumber]; [_id] is the id the driver generates. *)
Definition duplicated_lecture (_id : ObjectId) (duplicatedModule : IModule)
    (lecture : ILecture) : ILecture :=
  {| l_id := _id;
     l_title := trim (l_title lecture);
     l_videoUrl := trim (l_videoUrl lecture);
     l_duration := l_duration lecture;
     l_moduleId := m_id duplicatedModule;
     l_courseId := l_courseId lecture;
     l_lectureNumber := 0;
     l_pdfNotes := l_pdfNotes lecture;
     l_isActive := l_isActive lecture |}.

(** The [for (const lecture of originalLectures)] loop; [i] counts the
    lectures already copied and [newLectureId i] is the id generated for
    the next copy. *)
Fixpoint duplicate_lectures (newLectureId : nat → ObjectId) (i : nat)
    (duplicatedModule : IModule) (originalLectures : list ILecture) (s : Store)
  : Store * outcome unit :=
  match originalLectures with
  | [] => (s, Returned ())
  | lecture :: rest =>
      match Lecture_save_new
              (duplicated_lecture (newLectureId i) duplicatedModule lecture) s with
      | (s', Returned _) =>
          duplicate_lectures newLectureId (S i) duplicatedModule rest s'
      | (s', Thrown msg) => (s', Thrown msg)
      end
  end.

Section DuplicateModule.
(** [ERROR_MESSAGES.MODULE_NOT_FOUND] of [utils/constants]. *)
Context (MODULE_NOT_FOUND : string).

(** [ModuleService.duplicateModule]; [newModuleId] is the id generated
    for the new module. *)
Definition duplicateModule (newModuleId : ObjectId) (newLectureId : nat → ObjectId)
    (moduleId : string) (s : Store) : Store * outcome IModule :=
  match Module_findById moduleId s with
  | None => (s, Thrown MODULE_NOT_FOUND)
  | Some originalModule =>
      let lastModule :=
        last_by m_moduleNumber
          (filter (λ m, m_courseId m = m_courseId originalModule) (modules s)) in
      let newModuleNumber :=
        match lastModule with
        | Some lastModule => m_moduleNumber lastModule + 1
        | None => 1
        end in
      let duplicatedModule :=
        {| m_id := newModuleId;
           m_title := trim (m_title originalModule +:+ " (Copy)");
           m_moduleNumber := newModuleNumber;
           m_courseId := m_courseId originalModule;
           m_isActive := m_isActive originalModule;
           m_lectureCount := 0;
           m_totalDuration := 0 |} in
      match Module_save_new duplicatedModule s with
      | (s1, Thrown msg) => (s1, Thrown msg)
      | (s1, Returned duplicatedModule) =>
          let originalLectures :=
            filter (λ l, l_moduleId l = m_id originalModule) (lectures s1) in
          match duplicate_lectures newLectureId 0 duplicatedModule
                  originalLectures s1 with
          | (s2, Thrown msg) => (s2, Thrown msg)
          | (s2, Returned _) =>
              let s3 :=
                match Course_findById (m_courseId originalModule) s2 with
                | Some course => fst (calculateStats course s2)
                | None => s2
                end in
              (s3, Returned duplicatedModule)
          end
      end
  end.
End DuplicateModule.

(** A stored module without its two derived counters. *)
Definition module_core (m : IModule) : string * string * Z * string * bool :=
  (m_id m, m_title m, m_moduleNumber m, m_courseId m, m_isActive m).

Definition sample_lecture_id (i : nat) : ObjectId :=
  match i with 0%nat => "d1" | 1%nat => "d2" | 2%nat => "d3" | _ => "d4" end.

(** A module id belongs to a course when a stored module carries both. *)
Definition belongs_to_course (id courseId : string) (s : Store) : Prop :=
  ∃ m, m ∈ modules s ∧ m_id m = id ∧ m_courseId m = courseId.

(** The module numbers of a course, one per stored module of the course. *)
Definition course_module_numbers (courseId : string) (s : Store) : list Z :=
  m_moduleNumber <$> filter (λ m, m_courseId m = courseId) (modules s).

(** The position, counted from 1, of an id in the list given to
    [reorderModules]. *)
Definition position (moduleIds : list string) (id : string) : option nat :=
  fst <$> list_find (λ x, x = id) moduleIds.

(** The effect of the loop of [reorderModules], started at index [k], on
    one stored module. *)
Definition renumber (moduleIds : list string) (k : nat) (m : IModule) : IModule :=
  match position moduleIds (m_id m) with
  | Some i => with_moduleNumber (Z.of_nat (k + i) + 1) m
  | None => m
  end.

(** The course after module B was deleted from modules A, B, C. *)
Definition gapped_store : Store :=
  set_modules [ sample_module "a" "Module A" 1; sample_module "c" "Module C" 3 ]
    sample_store.

(** A course whose modules are numbered 5 and 6. *)
Definition shifted_store : Store :=
  set_modules [ sample_module "a" "Module A" 5; sample_module "b" "Module B" 6 ]
    sample_store.

(** ** Ground truth of the derived progress fields *)

Definition count_completed (ls : list ILectureProgress) : Z :=
  Z.of_nat (length (filter (λ l, lp_isCompleted l = true) ls)).

(** The derived fields of a module entry agree with its lecture list. *)
Definition module_consistent (m : IModuleProgress) : Prop :=
  mp_completedLectures m = count_completed (mp_lectures m)
  ∧ mp_totalLectures m = Z.of_nat (length (mp_lectures m))
  ∧ (mp_isCompleted m = true
     ↔ mp_completedLectures m = mp_totalLectures m ∧ 0 < mp_totalLectures m).

(** The derived fields of a progress document agree with its snapshot. *)
Definition progress_consistent (this : IProgress) : Prop :=
  pg_completedLectures this = count_completed (flattened this)
  ∧ pg_totalLectures this = Z.of_nat (length (flattened this))
  ∧ pg_completedModules this
    = Z.of_nat (length (filter (λ m, mp_isCompleted m = true) (pg_modules this)))
  ∧ pg_totalModules this = Z.of_nat (length (pg_modules this)).

(** The shape of a snapshot: module ids, the lecture ids of each module
    and the stored totals. *)
Definition snapshot_shape (this : IProgress)
  : string * string * list (string * list string * Z) * Z * Z :=
  (pg_userId this, pg_courseId this,
   (λ m, (mp_moduleId m, lp_lectureId <$> mp_lectures m, mp_totalLectures m))
     <$> pg_modules this,
   pg_totalModules this, pg_totalLectures this).

(** ** Progress service ([ProgressService]) *)

(** [types/progress.ts], [IUpdateProgressRequest] *)
Record IUpdateProgressRequest := {
  up_lectureId : string;
  up_watchTime : option float;
  up_isCompleted : option bool
}.

Definition set_progresses (ps : list IProgress) (s : Store) : Store :=
  {| courses := courses s; modules := modules s; lectures := lectures s;
     progresses := ps |}.

(** [Progress.findOne({userId, courseId})] *)
Definition Progress_findOne (userId courseId : string) (s : Store) : option IProgress :=
  snd <$> list_find (same_key userId courseId) (progresses s).

(** [this.save()] of a loaded progress document: the stored record of
    the document is overwritten.  The service saves only documents it
    has just loaded or created, so the record is there. *)
Definition Progress_save (this : IProgress) (s : Store) : Store :=
  match list_find (same_key (pg_userId this) (pg_courseId this)) (progresses s) with
  | Some (i, _) => set_progresses (<[i := this]> (progresses s)) s
  | None => s
  end.

(** [Progress.findOneAndDelete({userId, courseId})] *)
Definition Progress_findOneAndDelete (userId courseId : string) (s : Store) : Store :=
  match list_find (same_key userId courseId) (progresses s) with
  | Some (i, _) => set_progresses (delete i (progresses s)) s
  | None => s
  end.

(** The lecture-progress updates of a list applied in order to a
    document, as the model method applies them. *)
Definition apply_updates (now : Date) (updates : list IUpdateProgressRequest)
    (this : IProgress) : IProgress :=
  foldl (λ this update,
           fst (updateLectureProgress now (up_lectureId update) (up_watchTime update)
                  (up_isCompleted update) this))
        this updates.

(** The [for (const update of updates)] loop of [bulkUpdateProgress]. *)
Fixpoint bulk_update_loop (now : Date) (updates : list IUpdateProgressRequest)
    (progress : IProgress) (s : Store) : Store * outcome IProgress :=
  match updates with
  | [] => (s, Returned progress)
  | update :: rest =>
      match updateLectureProgress now (up_lectureId update) (up_watchTime update)
              (up_isCompleted update) progress with
      | (progress', Returned _) =>
          bulk_update_loop now rest progress' (Progress_save progress' s)
      | (_, Thrown msg) => (s, Thrown msg)
      end
  end.

Section ProgressService.
(** [ERROR_MESSAGES.COURSE_NOT_FOUND] of [utils/constants]. *)
Context (COURSE_NOT_FOUND : string).

(** [ProgressService.initializeProgress] *)
Definition ProgressService_initializeProgress (now : Date) (userId courseId : string)
    (s : Store) : Store * outcome IProgress :=
  match Course_findById courseId s with
  | None => (s, Thrown COURSE_NOT_FOUND)
  | Some course =>
      let r := initializeForCourse now userId courseId s in
      (fst r, Returned (snd r))
  end.

(** "Initialize progress if it doesn't exist", shared by the operations
    below. *)
Definition find_or_initialize (now : Date) (userId courseId : string) (s : Store)
  : Store * outcome IProgress :=
  match Progress_findOne userId courseId s with
  | Some progress => (s, Returned progress)
  | None => ProgressService_initializeProgress now userId courseId s
  end.

(** [ProgressService.updateLectureProgress] *)
Definition ProgressService_updateLectureProgress (now : Date) (userId courseId : string)
    (updateData : IUpdateProgressRequest) (s : Store) : Store * outcome IProgress :=
  match find_or_initialize now userId courseId s with
  | (s1, Thrown msg) => (s1, Thrown msg)
  | (s1, Returned progress) =>
      match updateLectureProgress now (up_lectureId updateData)
              (up_watchTime updateData) (up_isCompleted updateData) progress with
      | (progress', Returned _) => (Progress_save progress' s1, Returned progress')
      | (_, Thrown msg) => (s1, Thrown msg)
      end
  end.

(** [ProgressService.bulkUpdateProgress] *)
Definition ProgressService_bulkUpdateProgress (now : Date) (userId courseId : string)
    (updates : list IUpdateProgressRequest) (s : Store) : Store * outcome IProgress :=
  match find_or_initialize now userId courseId s with
  | (s1, Thrown msg) => (s1, Thrown msg)
  | (s1, Returned progress) => bulk_update_loop now updates progress s1
  end.

(** [ProgressService.getNextUnlockedLecture] *)
Definition ProgressService_getNextUnlockedLecture (now : Date) (userId courseId : string)
    (s : Store) : Store * outcome (option ObjectId) :=
  match find_or_initialize now userId courseId s with
  | (s1, Thrown msg) => (s1, Thrown msg)
  | (s1, Returned progress) => (s1, Returned (getNextUnlockedLecture progress))
  end.

(** [ProgressService.isLectureUnlocked] *)
Definition ProgressService_isLectureUnlocked (now : Date) (userId courseId lectureId : string)
    (s : Store) : Store * outcome bool :=
  match Progress_findOne userId courseId s with
  | Some progress => (s, Returned (isLectureUnlocked lectureId progress))
  | None =>
      match ProgressService_initializeProgress now userId courseId s with
      | (s1, Thrown msg) => (s1, Thrown msg)
      | (s1, Returned _) =>
          (s1, Returned (match Progress_findOne userId courseId s1 with
                         | Some newProgress => isLectureUnlocked lectureId newProgress
                         | None => false
                         end))
      end
  end.

(** [ProgressService.resetProgress] *)
Definition ProgressService_resetProgress (now : Date) (userId courseId : string)
    (s : Store) : Store * outcome IProgress :=
  ProgressService_initializeProgress now userId courseId
    (Progress_findOneAndDelete userId courseId s).
End ProgressService.

(** ** Creating, updating and deleting modules ([ModuleService]) *)

(** [types/module.ts], [ICreateModuleRequest] and [IUpdateModuleRequest]. *)
Record ICreateModuleRequest := {
  cm_title : string;
  cm_courseId : string;
  cm_moduleNumber : option Z
}.

Record IUpdateModuleRequest := {
  um_title : option string;
  um_moduleNumber : option Z;
  um_isActive : option bool
}.

(** [new Module(moduleData)]: the setter trims the title and the schema
    defaults fill the other fields; a number that was not given is held
    as 0 (see [Module_pre_save]). *)
Definition new_Module (_id : ObjectId) (moduleData : ICreateModuleRequest) : IModule :=
  {| m_id := _id;
     m_title := trim (cm_title moduleData);
     m_moduleNumber := default 0 (cm_moduleNumber moduleData);
     m_courseId := cm_courseId moduleData;
     m_isActive := true;
     m_lectureCount := 0;
     m_totalDuration := 0 |}.

(** The fields of an update applied to a stored module. *)
Definition with_module_update (updateData : IUpdateModuleRequest) (m : IModule) : IModule :=
  {| m_id := m_id m;
     m_title := default (m_title m) (trim <$> um_title updateData);
     m_moduleNumber := default (m_moduleNumber m) (um_moduleNumber updateData);
     m_courseId := m_courseId m;
     m_isActive := default (m_isActive m) (um_isActive updateData);
     m_lectureCount := m_lectureCount m;
     m_totalDuration := m_totalDuration m |}.

(** The validators [runValidators: true] runs on the paths an update
    sets. *)
Definition Module_update_validate (updateData : IUpdateModuleRequest) : ValidationErrors :=
  match um_title updateData with
  | Some title =>
      required_string "title" "Module title is required" (trim title)
      ++ maxlength_100 "title" "Module title cannot exceed 100 characters" (trim title)
  | None => []
  end
  ++ match um_moduleNumber updateData with
     | Some moduleNumber =>
         min_1 "moduleNumber" "Module number must be at least 1" moduleNumber
     | None => []
     end.

(** [Module.findByIdAndUpdate(moduleId, updateData,
    {new: true, runValidators: true})]: the update is validated before
    it is sent. *)
Definition Module_findByIdAndUpdate_data (id : string) (updateData : IUpdateModuleRequest)
    (s : Store) : Store * outcome (option IModule) :=
  match Module_update_validate updateData with
  | _ :: _ => (s, Thrown (ValidationError "Validation failed" (Module_update_validate updateData)))
  | [] =>
      match list_find (λ m, m_id m = id) (modules s) with
      | None => (s, Returned None)
      | Some (i, m) =>
          let m' := with_module_update updateData m in
          if decide (module_key_taken i (m_courseId m') (m_moduleNumber m') (modules s))
          then (s, Thrown E11000)
          else (set_modules (<[i := m']> (modules s)) s, Returned (Some m'))
      end
  end.

(** [Module.findByIdAndDelete(moduleId)].  The post-hook of the module
    schema reads [this.getQuery().courseId]; the query of this call
    holds [_id] only, so the hook loads no course and changes nothing. *)
Definition Module_findByIdAndDelete (id : string) (s : Store) : Store :=
  match list_find (λ m, m_id m = id) (modules s) with
  | Some (i, _) => set_modules (delete i (modules s)) s
  | None => s
  end.

(** [Lecture.deleteMany({moduleId})] *)
Definition Lecture_deleteMany_module (moduleId : string) (s : Store) : Store :=
  set_lectures (filter (λ l, l_moduleId l ≠ moduleId) (lectures s)) s.

(** The counters [calculateStats] computes for a course. *)
Definition course_counts (courseId : string) (s : Store) : Z * Z * Z :=
  let active := filter (λ l, l_courseId l = courseId ∧ l_isActive l = true) (lectures s) in
  (Z.of_nat (length (filter (λ m, m_courseId m = courseId ∧ m_isActive m = true)
                            (modules s))),
   Z.of_nat (length active),
   foldl (λ total l, total + l_duration l) 0 active).

(** The stored counters of a course agree with the stored content. *)
Definition course_stats_consistent (courseId : string) (s : Store) : Prop :=
  ∀ course, Course_findById courseId s = Some course →
    (c_totalModules course, c_totalLectures course, c_totalDuration course)
    = course_counts courseId s.

(** No two stored modules of a course carry the same number. *)
Definition unique_module_numbers (s : Store) : Prop :=
  NoDup ((λ m, (m_courseId m, m_moduleNumber m)) <$> modules s).

(** The conflict check of [updateModule]: a number is given, it is
    truthy and new, and [Module.findOne] finds another module of the
    course that holds it. *)
Definition module_number_conflict (moduleId : string) (module : IModule)
    (moduleNumber : option Z) (ms : list IModule) : Prop :=
  match moduleNumber with
  | Some moduleNumber =>
      moduleNumber ≠ 0 ∧ moduleNumber ≠ m_moduleNumber module
      ∧ Exists (λ m, m_courseId m = m_courseId module
                     ∧ m_moduleNumber m = moduleNumber
                     ∧ m_id m ≠ moduleId) ms
  | None => False
  end.

Global Instance module_number_conflict_dec moduleId module moduleNumber ms :
  Decision (module_number_conflict moduleId module moduleNumber ms).
Proof. unfold module_number_conflict. destruct moduleNumber; apply _. Defined.

Section ModuleCrud.
Context (COURSE_NOT_FOUND MODULE_NOT_FOUND : string).

(** [ModuleService.createModule]; [newModuleId] is the id generated for
    the new document. *)
Definition createModule (newModuleId : ObjectId) (moduleData : ICreateModuleRequest)
    (s : Store) : Store * outcome IModule :=
  match Course_findById (cm_courseId moduleData) s with
  | None => (s, Thrown COURSE_NOT_FOUND)
  | Some course =>
      match Module_save_new (new_Module newModuleId moduleData) s with
      | (s1, Thrown msg) => (s1, Thrown msg)
      | (s1, Returned module) => (fst (calculateStats course s1), Returned module)
      end
  end.

(** [ModuleService.updateModule] *)
Definition updateModule (moduleId : string) (updateData : IUpdateModuleRequest)
    (s : Store) : Store * outcome (option IModule) :=
  match Module_findById moduleId s with
  | None => (s, Thrown MODULE_NOT_FOUND)
  | Some module =>
      if decide (module_number_conflict moduleId module
                   (um_moduleNumber updateData) (modules s))
      then (s, Thrown "Module number already exists in this course")
      else Module_findByIdAndUpdate_data moduleId updateData s
  end.

(** [ModuleService.deleteModule] *)
Definition deleteModule (moduleId : string) (s : Store) : Store * outcome bool :=
  match Module_findById moduleId s with
  | None => (s, Thrown MODULE_NOT_FOUND)
  | Some module =>
      let s1 := Lecture_deleteMany_module moduleId s in
      let s2 := Module_findByIdAndDelete moduleId s1 in
      let s3 :=
        match Course_findById (m_courseId module) s2 with
        | Some course => fst (calculateStats course s2)
        | None => s2
        end in
      (s3, Returned true)
  end.
End ModuleCrud.

(** ** Lecture service ([LectureService]) *)

Definition Lecture_findById (id : string) (s : Store) : option ILecture :=
  snd <$> list_find (λ l, l_id l = id) (lectures s).

(** [Lecture.findByIdAndDelete(lectureId)].  The post-hook of the lecture
    schema reads [this.getQuery().moduleId]; the query of this call holds
    [_id] only, so the hook loads no module and changes nothing. *)
Definition Lecture_findByIdAndDelete (id : string) (s : Store) : Store :=
  match list_find (λ l, l_id l = id) (lectures s) with
  | Some (i, _) => set_lectures (delete i (lectures s)) s
  | None => s
  end.

(** The request of [createLecture], with the fields of
    [createLectureSchema] in [utils/validation.ts]. *)
Record ICreateLectureRequest := {
  cl_title : string;
  cl_videoUrl : string;
  cl_duration : Z;
  cl_moduleId : string;
  cl_courseId : string;
  cl_lectureNumber : option Z
}.

(** [new Lecture(lectureData)]: the setters trim the title and the URL
    and the schema defaults fill the other fields; a number that was not
    given is held as 0 (see [Lecture_pre_save]). *)
Definition new_Lecture (_id : ObjectId) (lectureData : ICreateLectureRequest) : ILecture :=
  {| l_id := _id;
     l_title := trim (cl_title lectureData);
     l_videoUrl := trim (cl_videoUrl lectureData);
     l_duration := cl_duration lectureData;
     l_moduleId := cl_moduleId lectureData;
     l_courseId := cl_courseId lectureData;
     l_lectureNumber := default 0 (cl_lectureNumber lectureData);
     l_pdfNotes := [];
     l_isActive := true |}.

(** The counters [calculateLectureStats] computes for a module. *)
Definition module_counts (moduleId : string) (s : Store) : Z * Z :=
  let active := filter (λ l, l_moduleId l = moduleId ∧ l_isActive l = true) (lectures s) in
  (Z.of_nat (length active), foldl (λ total l, total + l_duration l) 0 active).

(** The stored counters of a module agree with the stored lectures. *)
Definition module_stats_consistent (moduleId : string) (s : Store) : Prop :=
  ∀ module, Module_findById moduleId s = Some module →
    (m_lectureCount module, m_totalDuration module) = module_counts moduleId s.

(** The "update module stats" step shared by the lecture operations:
    load the module, then call its method. *)
Definition update_module_stats (moduleId : string) (s : Store) : Store :=
  match Module_findById moduleId s with
  | Some module => fst (calculateLectureStats module s)
  | None => s
  end.

Section LectureService.
(** [ERROR_MESSAGES] of [utils/constants]. *)
Context (COURSE_NOT_FOUND MODULE_NOT_FOUND LECTURE_NOT_FOUND : string).

(** [LectureService.createLecture]; [newLectureId] is the id generated
    for the new document. *)
Definition createLecture (newLectureId : ObjectId) (lectureData : ICreateLectureRequest)
    (s : Store) : Store * outcome ILecture :=
  match Module_findById (cl_moduleId lectureData) s with
  | None => (s, Thrown MODULE_NOT_FOUND)
  | Some module =>
      match Course_findById (cl_courseId lectureData) s with
      | None => (s, Thrown COURSE_NOT_FOUND)
      | Some course =>
          if decide (m_courseId module ≠ cl_courseId lectureData)
          then (s, Thrown "Module does not belong to the specified course")
          else
            match Lecture_save_new (new_Lecture newLectureId lectureData) s with
            | (s1, Thrown msg) => (s1, Thrown msg)
            | (s1, Returned lecture) =>
                (fst (calculateLectureStats module s1), Returned lecture)
            end
      end
  end.

(** [LectureService.deleteLecture] *)
Definition deleteLecture (lectureId : string) (s : Store) : Store * outcome bool :=
  match Lecture_findById lectureId s with
  | None => (s, Thrown LECTURE_NOT_FOUND)
  | Some lecture =>
      let s1 := Lecture_findByIdAndDelete lectureId s in
      (update_module_stats (l_moduleId lecture) s1, Returned true)
  end.

(** [LectureService.duplicateLecture]; [newLectureId] is the id generated
    for the copy. *)
Definition duplicateLecture (newLectureId : ObjectId) (lectureId : string) (s : Store)
  : Store * outcome ILecture :=
  match Lecture_findById lectureId s with
  | None => (s, Thrown LECTURE_NOT_FOUND)
  | Some originalLecture =>
      let lastLecture :=
        last_by l_lectureNumber
          (filter (λ l, l_moduleId l = l_moduleId originalLecture) (lectures s)) in
      let newLectureNumber :=
        match lastLecture with
        | Some lastLecture => l_lectureNumber lastLecture + 1
        | None => 1
        end in
      let duplicatedLecture :=
        {| l_id := newLectureId;
           l_title := trim (l_title originalLecture +:+ " (Copy)");
           l_videoUrl := trim (l_videoUrl originalLecture);
           l_duration := l_duration originalLecture;
           l_moduleId := l_moduleId originalLecture;
           l_courseId := l_courseId originalLecture;
           l_lectureNumber := newLectureNumber;
           l_pdfNotes := l_pdfNotes originalLecture;
           l_isActive := l_isActive originalLecture |} in
      match Lecture_save_new duplicatedLecture s with
      | (s1, Thrown msg) => (s1, Thrown msg)
      | (s1, Returned duplicatedLecture) =>
          (update_module_stats (l_moduleId originalLecture) s1,
           Returned duplicatedLecture)
      end
  end.
End LectureService.

(** The sample store with the counters of its course computed. *)
Definition counted_store : Store := fst (RecomputeCourseStats "c1" sample_store).

(** The sample store after learner u1 opened the course. *)
Definition learner_store : Store :=
  fst (initializeForCourse 1000 "u1" "c1" sample_store).

Definition mark_completed (lectureId : string) : IUpdateProgressRequest :=
  {| up_lectureId := lectureId; up_watchTime := None; up_isCompleted := Some true |}.




(** * Properties *)

(** ** Rounding *)

Example Math_round_half : Math_round 12.5%float = 13%Z.
Proof. vm_compute. reflexivity. Qed.

Example Math_round_negative_half : Math_round (-2.5)%float = (-2)%Z.
Proof. vm_compute. reflexivity. Qed.

(** One lecture of three completed. *)
Example percentage_one_of_three : percentage 1 3 = 33%Z.
Proof. vm_compute. reflexivity. Qed.

(** The product is the binary64 one: [(23 / 40) * 100] evaluates to
    57.49999999999999. *)
Example percentage_binary64 : percentage 23 40 = 57%Z.
Proof. vm_compute. reflexivity. Qed.

(** ** The next unlocked lecture *)

Lemma first_incomplete_cons x ls :
  first_incomplete (x :: ls) =
  if lp_isCompleted x then first_incomplete ls else Some (lp_lectureId x).
Proof.
  unfold first_incomplete. cbn [list_find].
  destruct (lp_isCompleted x); simpl; [|done].
  destruct (list_find _ ls) as [[j y]|]; done.
Qed.

Lemma first_incomplete_app l1 l2 :
  first_incomplete (l1 ++ l2) =
  match first_incomplete l1 with
  | Some x => Some x
  | None => first_incomplete l2
  end.
Proof.
  induction l1 as [|x l1 IH]; [done|].
  rewrite <- app_comm_cons, !first_incomplete_cons.
  destruct (lp_isCompleted x); done.
Qed.

Lemma first_incomplete_None ls :
  first_incomplete ls = None ↔ Forall (λ l, lp_isCompleted l = true) ls.
Proof.
  induction ls as [|x ls IH]; [by split; [constructor|]|].
  rewrite first_incomplete_cons, Forall_cons.
  destruct (lp_isCompleted x); [by rewrite IH; intuition|].
  split; [done|]. by intros [? _].
Qed.

(** Loop invariant of the inner scan: everything before index [i] has
    been seen completed. *)
Lemma next_in_module_scan rest : ∀ seen,
  Forall (λ l, lp_isCompleted l = true) seen →
  snd <$> next_in_module (seen ++ rest) rest (length seen) = first_incomplete rest
  ∧ ∀ id, next_in_module (seen ++ rest) rest (length seen)
          ≠ Some (PreviousIncomplete, id).
Proof.
  induction rest as [|lecture rest IH]; intros seen Hseen; [done|].
  rewrite first_incomplete_cons. cbn [next_in_module].
  destruct (lp_isCompleted lecture) eqn:Hc; cbn [negb].
  - specialize (IH (seen ++ [lecture])).
    rewrite <- app_assoc, length_app in IH. cbn in IH.
    replace (length seen + 1)%nat with (S (length seen)) in IH by lia.
    apply IH. apply Forall_app; split; [done|]. by repeat constructor.
  - case_decide as Hi; [done|].
    destruct seen as [|x seen _] using rev_ind; [done|].
    rewrite length_app in *. cbn [length] in *.
    replace (length seen + 1 - 1)%nat with (length seen) by lia.
    rewrite <- app_assoc. cbn [app].
    rewrite list_lookup_middle by done.
    apply Forall_app in Hseen as [_ Hx]. apply Forall_inv in Hx.
    rewrite Hx. done.
Qed.

Lemma next_in_modules_scan ms :
  snd <$> next_in_modules ms = first_incomplete (concat (mp_lectures <$> ms))
  ∧ ∀ id, next_in_modules ms ≠ Some (PreviousIncomplete, id).
Proof.
  induction ms as [|m ms [IH1 IH2]]; [done|].
  cbn [next_in_modules fmap list_fmap concat].
  rewrite first_incomplete_app.
  destruct (next_in_module_scan (mp_lectures m) [] ltac:(constructor)) as [H1 H2].
  cbn [app length] in H1, H2. rewrite <- H1.
  destruct (next_in_module _ _ _) as [r|]; [done|]. done.
Qed.

(** C10: [getNextUnlockedLecture] returns the id of the first lecture of
    the flattened snapshot whose [isCompleted] is false, and [null] when
    there is none; the [return previousLecture.lectureId] branch is never
    taken. *)
Theorem getNextUnlockedLecture_first_incomplete (this : IProgress) :
  getNextUnlockedLecture this = first_incomplete (flattened this)
  ∧ (getNextUnlockedLecture this = None ↔
       Forall (λ l, lp_isCompleted l = true) (flattened this))
  ∧ ∀ id, getNextUnlockedLecture_traced this ≠ Some (PreviousIncomplete, id).
Proof.
  unfold getNextUnlockedLecture, getNextUnlockedLecture_traced, flattened.
  destruct (next_in_modules_scan (pg_modules this)) as [H1 H2].
  split_and!; [done| |done].
  rewrite H1. apply first_incomplete_None.
Qed.

(** ** Unlock query *)

(** C5 does not hold of the code: on a fresh snapshot the next unlocked
    lecture is a1, and a3, which stands after it in the same module and
    is not completed, is reported unlocked, because the scan of
    [isLectureUnlocked] finds a1 among the entries up to a3. *)
Theorem isLectureUnlocked_after_next_in_module :
  getNextUnlockedLecture sample_progress = Some "a1"
  ∧ (lp_lectureId <$> flattened sample_progress) = ["a1"; "a2"; "a3"; "b1"]
  ∧ Forall (λ l, lp_isCompleted l = false) (flattened sample_progress)
  ∧ spec_isLectureUnlocked "a3" sample_progress = false
  ∧ isLectureUnlocked "a3" sample_progress = true.
Proof.
  split_and!; try (vm_compute; reflexivity).
  apply (bool_decide_unpack _). vm_compute. exact I.
Qed.

(** Past the module of the next unlocked lecture the code does return
    the lecture's own flag. *)
Example isLectureUnlocked_later_module :
  isLectureUnlocked "b1" sample_progress = false.
Proof. vm_compute. reflexivity. Qed.

(** ** Failure of [updateLectureProgress] *)

Lemma has_lecture_elem_of lectureId m :
  has_lecture lectureId m ↔ lectureId ∈ lp_lectureId <$> mp_lectures m.
Proof.
  unfold has_lecture. rewrite Exists_exists, list_elem_of_fmap.
  split; intros (l & ? & ?); by exists l.
Qed.

Lemma has_lecture_flattened lectureId ms :
  Exists (has_lecture lectureId) ms ↔
  lectureId ∈ lp_lectureId <$> concat (mp_lectures <$> ms).
Proof.
  induction ms as [|m ms IH]; cbn [fmap list_fmap concat].
  - rewrite Exists_nil. by rewrite elem_of_nil.
  - rewrite Exists_cons, fmap_app, elem_of_app, IH, has_lecture_elem_of. done.
Qed.

Lemma list_find_is_Some {A} (P : A → Prop) `{∀ x, Decision (P x)} (l : list A) :
  Exists P l → is_Some (list_find P l).
Proof.
  intros (x & Hx & HP)%Exists_exists. by eapply list_find_elem_of.
Qed.


(** C6: the call throws exactly when the lecture id is absent from the
    snapshot, the error is the lecture-not-found error, and a call that
    throws leaves every field of the document as it was. *)
Theorem updateLectureProgress_not_found now lectureId watchTime isCompleted this :
  let result := updateLectureProgress now lectureId watchTime isCompleted this in
  (snd result = Thrown "Lecture not found in progress"
     ↔ lectureId ∉ lp_lectureId <$> flattened this)
  ∧ (snd result = Returned () ↔ lectureId ∈ lp_lectureId <$> flattened this)
  ∧ (∀ msg, snd result = Thrown msg →
       msg = "Lecture not found in progress" ∧ fst result = this).
Proof.
  cbn zeta. unfold flattened. rewrite <- has_lecture_flattened.
  unfold updateLectureProgress.
  destruct (list_find (has_lecture lectureId) _) as [[mi m]|] eqn:Hm.
  - apply list_find_Some in Hm as (Hmi & Hhas & _).
    assert (Exists (has_lecture lectureId) (pg_modules this)) as Hex.
    { apply Exists_exists. exists m. split; [|done].
      by eapply list_elem_of_lookup_2. }
    destruct (list_find_is_Some _ _ Hhas) as [[li l] Hl].
    rewrite Hl. cbn [fst snd]. split_and!; [|done|done].
    split; [done|]. by intros [].
  - apply list_find_None in Hm. cbn [fst snd].
    assert (¬ Exists (has_lecture lectureId) (pg_modules this)) as Hnex.
    { intros (m & Hin & Hhas)%Exists_exists.
      rewrite Forall_forall in Hm. by apply (Hm m). }
    split_and!; [done| |].
    + split; [done|]. by intros ?.
    + by intros msg [= <-].
Qed.

(** ** Derived fields after an update *)

Lemma foldl_totalLectures_nonneg (ms : list IModule) (lectures : list ILecture) :
  ∀ acc, 0 ≤ acc →
    0 ≤ foldl (λ total mp, total + mp_totalLectures mp) acc
          (fresh_module_progress lectures <$> ms).
Proof.
  induction ms as [|m ms IH]; intros acc Hacc; [done|].
  cbn. apply IH. lia.
Qed.

Lemma reachable_totals this :
  reachable this →
  pg_totalModules this = Z.of_nat (length (pg_modules this))
  ∧ 0 ≤ pg_totalLectures this.
Proof.
  induction 1 as [now userId courseId s|now lectureId watchTime isCompleted this _ [IH1 IH2]].
  - cbn. rewrite length_fmap. split; [done|].
    by apply foldl_totalLectures_nonneg.
  - unfold updateLectureProgress.
    destruct (list_find (has_lecture lectureId) _) as [[mi m]|]; [|done].
    destruct (list_find _ (mp_lectures m)) as [[li l]|]; [|done].
    cbn. by rewrite length_insert.
Qed.

Lemma reachable_isCompleted this :
  reachable this →
  pg_isCompleted this = true
  ↔ pg_completedModules this = pg_totalModules this ∧ 0 < pg_totalModules this.
Proof.
  induction 1 as [now userId courseId s|now lectureId watchTime isCompleted this Hr IH].
  - cbn. split; [done|]. lia.
  - destruct (reachable_totals _ Hr) as [Htm _].
    unfold updateLectureProgress.
    destruct (list_find (has_lecture lectureId) _) as [[mi m]|] eqn:Hm; [|done].
    destruct (list_find _ (mp_lectures m)) as [[li l]|]; [|done].
    apply list_find_Some in Hm as (Hmi%lookup_lt_Some & _).
    cbn. rewrite bool_decide_eq_true. split; [|tauto].
    intros Heq. split; [done|]. lia.
Qed.

(** C3: after every [updateLectureProgress] call on a document the code
    can produce, [isCompleted] holds exactly when [completedModules]
    equals [totalModules] and [totalModules] is positive. *)
Theorem updateLectureProgress_isCompleted
    now lectureId watchTime isCompleted this :
  reachable this →
  let this' := fst (updateLectureProgress now lectureId watchTime isCompleted this) in
  pg_isCompleted this' = true
  ↔ pg_completedModules this' = pg_totalModules this' ∧ 0 < pg_totalModules this'.
Proof.
  intros Hr. cbn zeta. apply reachable_isCompleted. by constructor.
Qed.

Lemma updateLectureProgress_isCompleted_witness :
  let this' := fst (updateLectureProgress 2000 "b1" None (Some true) sample_progress) in
  pg_isCompleted this' = true
  ↔ pg_completedModules this' = pg_totalModules this' ∧ 0 < pg_totalModules this'.
Proof.
  apply (updateLectureProgress_isCompleted 2000 "b1" None (Some true) sample_progress).
  apply reachable_init.
Defined.

(** ** Sequential unlocking *)

Section update_first.
Context (lectureId : string) (g : ILectureProgress → ILectureProgress).

Lemma update_first_absent ls :
  lectureId ∉ lp_lectureId <$> ls → update_first lectureId g ls = ls.
Proof.
  induction ls as [|x ls IH]; [done|].
  cbn. rewrite not_elem_of_cons. intros [Hx Hls].
  case_decide; [done|]. by rewrite IH.
Qed.

Lemma update_first_app_r l1 l2 :
  lectureId ∉ lp_lectureId <$> l1 →
  update_first lectureId g (l1 ++ l2) = l1 ++ update_first lectureId g l2.
Proof.
  induction l1 as [|x l1 IH]; [done|].
  cbn. rewrite not_elem_of_cons. intros [Hx Hls].
  case_decide; [done|]. by rewrite IH.
Qed.

Lemma update_first_app_l l1 l2 i x :
  list_find (λ l, lp_lectureId l = lectureId) l1 = Some (i, x) →
  update_first lectureId g (l1 ++ l2) = <[i := g x]> l1 ++ l2.
Proof.
  revert i. induction l1 as [|y l1 IH]; intros i; [done|].
  cbn. case_decide as Hy.
  - by intros [= <- <-].
  - destruct (list_find _ l1) as [[j z]|]; [|done].
    intros [= <- <-]. cbn. by rewrite (IH j).
Qed.

Lemma update_first_modules ms : ∀ mi m li l m',
  list_find (has_lecture lectureId) ms = Some (mi, m) →
  list_find (λ l, lp_lectureId l = lectureId) (mp_lectures m) = Some (li, l) →
  mp_lectures m' = <[li := g l]> (mp_lectures m) →
  concat (mp_lectures <$> <[mi := m']> ms)
  = update_first lectureId g (concat (mp_lectures <$> ms)).
Proof.
  induction ms as [|m0 ms IH]; intros mi m li l m' Hm Hl Hm'; [done|].
  cbn in Hm. case_decide as Hhas.
  - injection Hm as <- <-. cbn.
    by rewrite Hm', (update_first_app_l _ _ li l).
  - destruct (list_find _ ms) as [[j z]|] eqn:Hj; [|done].
    injection Hm as <- <-. cbn.
    rewrite update_first_app_r by by rewrite <- has_lecture_elem_of.
    f_equal. by eapply IH.
Qed.
End update_first.

(** On the flattened sequence a call changes the first entry that
    carries the lecture id, and nothing else. *)
Lemma flattened_updateLectureProgress now lectureId watchTime isCompleted this :
  flattened (fst (updateLectureProgress now lectureId watchTime isCompleted this))
  = update_first lectureId (update_lecture now watchTime isCompleted) (flattened this).
Proof.
  unfold updateLectureProgress, flattened.
  destruct (list_find (has_lecture lectureId) _) as [[mi m]|] eqn:Hm.
  - pose proof Hm as (_ & Hhas & _)%list_find_Some.
    destruct (list_find_is_Some _ _ Hhas) as [[li l] Hl].
    rewrite Hl. cbn [fst recalculate_progress pg_modules].
    by eapply update_first_modules.
  - cbn [fst]. rewrite update_first_absent; [done|].
    rewrite <- has_lecture_flattened.
    apply list_find_None in Hm. rewrite Forall_forall in Hm.
    intros (m & Hin & Hhas)%Exists_exists. by apply (Hm m).
Qed.

Lemma completed_prefix_all_false bs :
  Forall (λ b, b = false) bs → completed_prefix bs.
Proof.
  destruct 1 as [|b bs -> Hbs]; [done|]. cbn. done.
Qed.

Lemma completed_prefix_lookup bs : completed_prefix bs →
  ∀ i j, (i < j)%nat → bs !! j = Some true → bs !! i = Some true.
Proof.
  induction bs as [|b bs IH]; intros Hp i j Hij Hj; [done|].
  destruct j as [|j]; [lia|]. cbn in Hj.
  destruct b; cbn in Hp.
  - destruct i as [|i]; [done|]. cbn. apply (IH Hp i j); [lia|done].
  - rewrite Forall_lookup in Hp. by specialize (Hp j true Hj).
Qed.

Lemma flags_update_first_watch lectureId g ls :
  (∀ x, lp_isCompleted (g x) = lp_isCompleted x) →
  flags (update_first lectureId g ls) = flags ls.
Proof.
  intros Hg. induction ls as [|x ls IH]; [done|].
  cbn. case_decide; cbn; [by rewrite Hg|]. unfold flags in IH. by rewrite IH.
Qed.

Lemma completed_prefix_update_first_next lectureId g ls :
  (∀ x, lp_isCompleted (g x) = true) →
  completed_prefix (flags ls) →
  first_incomplete ls = Some lectureId →
  completed_prefix (flags (update_first lectureId g ls)).
Proof.
  intros Hg. induction ls as [|x ls IH]; [done|].
  rewrite first_incomplete_cons. cbn.
  destruct (lp_isCompleted x) eqn:Hx; intros Hp Hnext.
  - case_decide; cbn; [by rewrite Hg|]. rewrite Hx. by apply IH.
  - injection Hnext as Hid. rewrite decide_True by done. cbn.
    rewrite Hg. by apply completed_prefix_all_false.
Qed.

Lemma initializeForCourse_flags now userId courseId s :
  Forall (λ b, b = false)
    (flags (flattened (snd (initializeForCourse now userId courseId s)))).
Proof.
  cbn. unfold flattened, flags. cbn [pg_modules].
  induction (active_modules_sorted courseId s) as [|m ms IH]; [constructor|].
  cbn. rewrite fmap_app. apply Forall_app. split; [|done].
  apply Forall_fmap, Forall_fmap. by apply Forall_true.
Qed.

Lemma reachable_in_order_prefix this :
  reachable_in_order this → completed_prefix (flags (flattened this)).
Proof.
  induction 1 as [now userId courseId s
                 |now lectureId watchTime this _ IH
                 |now lectureId watchTime this _ IH Hnext].
  - apply completed_prefix_all_false, initializeForCourse_flags.
  - rewrite flattened_updateLectureProgress, flags_update_first_watch; done.
  - rewrite flattened_updateLectureProgress.
    apply completed_prefix_update_first_next; [done|done|].
    rewrite <- Hnext. symmetry. apply next_in_modules_scan.
Qed.

(** C1, as the code has it: [updateLectureProgress] applies the flag it
    is given without looking at earlier lectures, so the unlock order is
    kept when every completing call targets the lecture that
    [getNextUnlockedLecture] returns. *)
Theorem updateLectureProgress_in_order_sequential this :
  reachable_in_order this → sequentially_unlocked this.
Proof.
  intros Hp%reachable_in_order_prefix i j li lj Hij Hi Hj Hc.
  pose proof (completed_prefix_lookup _ Hp i j Hij) as Hlookup.
  unfold flags in Hlookup. rewrite !list_lookup_fmap, Hi, Hj in Hlookup.
  cbn in Hlookup. rewrite Hc in Hlookup. specialize (Hlookup eq_refl).
  by injection Hlookup.
Qed.

Lemma updateLectureProgress_in_order_sequential_witness :
  sequentially_unlocked
    (fst (updateLectureProgress 3000 "a2" (Some 42%float) (Some true)
       (fst (updateLectureProgress 2000 "a1" None (Some true) sample_progress)))).
Proof.
  apply updateLectureProgress_in_order_sequential.
  apply in_order_complete; [apply in_order_complete; [apply in_order_init|]|];
    vm_compute; reflexivity.
Defined.

(** C1 as stated fails: completing a3 first leaves a1 and a2 incomplete
    before a completed lecture. *)
Lemma updateLectureProgress_skips_ahead :
  ¬ (∀ this, reachable this → sequentially_unlocked this).
Proof.
  intros Hall.
  pose (this := fst (updateLectureProgress 2000 "a3" None (Some true) sample_progress)).
  assert (reachable this) as Hr by (apply reachable_update, reachable_init).
  specialize (Hall this Hr 0%nat 2%nat).
  vm_compute in Hall. specialize (Hall _ _ ltac:(lia) eq_refl eq_refl eq_refl).
  discriminate Hall.
Qed.

(** ** Idempotence of the statistics *)

Lemma list_find_insert_same {A} (P : A → Prop) `{∀ x, Decision (P x)}
    (l : list A) i x y :
  list_find P l = Some (i, x) → P y → list_find P (<[i := y]> l) = Some (i, y).
Proof.
  intros (Hi & Hx & Hmin)%list_find_Some Hy.
  apply list_find_Some. split_and!; [|exact Hy|].
  - apply list_lookup_insert_eq. by eapply lookup_lt_Some.
  - intros j z Hj Hlt. rewrite list_lookup_insert_ne in Hj by lia. by eapply Hmin.
Qed.

Lemma calculateStats_twice this s :
  calculateStats this (fst (calculateStats this s)) = calculateStats this s.
Proof.
  unfold calculateStats.
  destruct (list_find _ (courses s)) as [[i c]|] eqn:Hc; cbn [fst]; [|by rewrite Hc].
  pose proof Hc as (_ & Hid & _)%list_find_Some.
  cbn [set_courses modules lectures courses].
  rewrite (list_find_insert_same _ _ _ _ _ Hc) by done.
  cbn [set_courses modules lectures courses progresses].
  by rewrite list_insert_insert_eq.
Qed.

Lemma calculateStats_ext this this' s :
  c_id this = c_id this' → calculateStats this s = calculateStats this' s.
Proof. unfold calculateStats. by intros ->. Qed.

Lemma calculateLectureStats_ext this this' s :
  m_id this = m_id this' → m_courseId this = m_courseId this' →
  calculateLectureStats this s = calculateLectureStats this' s.
Proof. unfold calculateLectureStats, Module_post_save. by intros -> ->. Qed.

Lemma calculateStats_content this s :
  modules (fst (calculateStats this s)) = modules s
  ∧ lectures (fst (calculateStats this s)) = lectures s.
Proof.
  unfold calculateStats. by destruct (list_find _ (courses s)) as [[i c]|].
Qed.

Lemma Course_findById_calculateStats id course s :
  Course_findById id s = Some course →
  ∃ course', Course_findById id (fst (calculateStats course s)) = Some course'
             ∧ c_id course' = c_id course.
Proof.
  unfold Course_findById, calculateStats.
  destruct (list_find (λ c, c_id c = id) (courses s)) as [[j c]|] eqn:Hc; [|done].
  intros [= ->]. pose proof Hc as (_ & Hid & _)%list_find_Some.
  rewrite Hid, Hc. cbn [fst set_courses courses].
  rewrite (list_find_insert_same _ _ _ _ _ Hc) by done.
  by eexists.
Qed.

Lemma Module_post_save_twice this s :
  Module_post_save this (Module_post_save this s) = Module_post_save this s.
Proof.
  unfold Module_post_save.
  destruct (Course_findById (m_courseId this) s) as [course|] eqn:Hc;
    [|by rewrite Hc].
  destruct (Course_findById_calculateStats _ _ _ Hc) as (course' & -> & Hid).
  by rewrite (calculateStats_ext course' course), calculateStats_twice.
Qed.

Lemma Module_post_save_content this s :
  modules (Module_post_save this s) = modules s
  ∧ lectures (Module_post_save this s) = lectures s.
Proof.
  unfold Module_post_save.
  destruct (Course_findById _ s); [apply calculateStats_content|done].
Qed.

Lemma set_modules_same s : set_modules (modules s) s = s.
Proof. by destruct s. Qed.

Lemma calculateLectureStats_twice this s :
  calculateLectureStats this (fst (calculateLectureStats this s))
  = calculateLectureStats this s.
Proof.
  unfold calculateLectureStats. cbn [fst].
  set (result := {| st_lectureCount := _ |}).
  set (s1 := match list_find _ (modules s) with Some _ => _ | None => _ end).
  destruct (Module_post_save_content this s1) as [Hms Hls].
  assert (lectures s1 = lectures s) as Hls1.
  { subst s1. by destruct (list_find _ (modules s)) as [[i m]|]. }
  rewrite Hls, Hls1, Hms. fold result. f_equal.
  assert (match list_find (λ m, m_id m = m_id this) (modules s1) with
          | Some (i, m) =>
              set_modules (<[i := with_lecture_stats result m]> (modules s1))
                (Module_post_save this s1)
          | None => Module_post_save this s1
          end = Module_post_save this s1) as ->;
    [|apply Module_post_save_twice].
  subst s1. destruct (list_find _ (modules s)) as [[i m]|] eqn:Hm.
  - pose proof Hm as (_ & Hid & _)%list_find_Some.
    cbn [set_modules modules].
    rewrite (list_find_insert_same _ _ _ _ _ Hm) by done.
    rewrite list_insert_insert_eq.
    rewrite <- (set_modules_same (Module_post_save _ _)) at 2.
    by rewrite (proj1 (Module_post_save_content _ _)).
  - by rewrite Hm.
Qed.

Lemma Module_findById_calculateLectureStats id module s :
  Module_findById id s = Some module →
  ∃ module', Module_findById id (fst (calculateLectureStats module s)) = Some module'
             ∧ m_id module' = m_id module ∧ m_courseId module' = m_courseId module.
Proof.
  unfold Module_findById, calculateLectureStats. cbn [fst].
  rewrite (proj1 (Module_post_save_content _ _)).
  destruct (list_find (λ m, m_id m = id) (modules s)) as [[j m]|] eqn:Hm; [|done].
  intros [= ->]. pose proof Hm as (_ & Hid & _)%list_find_Some.
  rewrite Hid, Hm. cbn [set_modules modules].
  rewrite (list_find_insert_same _ _ _ _ _ Hm) by done.
  by eexists.
Qed.

(** C9: recomputing the statistics of a module, or of a course, a second
    time with no change in between returns the same figures and leaves
    the store, stored counters included, as the first call left it. *)
Theorem recompute_stats_idempotent (moduleId courseId : string) (s : Store) :
  (let first := RecomputeModuleStats moduleId s in
   let second := RecomputeModuleStats moduleId (fst first) in
   snd second = snd first ∧ fst second = fst first)
  ∧ (let first := RecomputeCourseStats courseId s in
     let second := RecomputeCourseStats courseId (fst first) in
     snd second = snd first ∧ fst second = fst first).
Proof.
  cbn zeta. split.
  - unfold RecomputeModuleStats.
    destruct (Module_findById moduleId s) as [module|] eqn:Hm;
      cbn [fst snd]; [|by rewrite Hm].
    destruct (Module_findById_calculateLectureStats _ _ _ Hm)
      as (module' & -> & Hid & Hcid).
    cbn [fst snd].
    by rewrite (calculateLectureStats_ext module' module), calculateLectureStats_twice.
  - unfold RecomputeCourseStats.
    destruct (Course_findById courseId s) as [course|] eqn:Hc;
      cbn [fst snd]; [|by rewrite Hc].
    destruct (Course_findById_calculateStats _ _ _ Hc) as (course' & -> & Hid).
    cbn [fst snd].
    by rewrite (calculateStats_ext course' course), calculateStats_twice.
Qed.

(** ** Reordering the modules of a course *)

(** The membership check of [reorderModules]: when as many modules match
    as ids were given, the ids are distinct and each belongs to the
    course. *)
Lemma reorder_check courseId moduleIds (ms : list IModule) :
  NoDup (m_id <$> ms) →
  length (filter (λ m, m_id m ∈ moduleIds ∧ m_courseId m = courseId) ms)
  = length moduleIds →
  NoDup moduleIds
  ∧ ∀ id, id ∈ moduleIds → ∃ m, m ∈ ms ∧ m_id m = id ∧ m_courseId m = courseId.
Proof.
  intros Hnd Hlen.
  set (matched := filter _ ms) in Hlen.
  assert (NoDup (m_id <$> matched)) as Hndm.
  { eapply sublist_NoDup; [exact Hnd|]. apply fmap_sublist, sublist_filter. }
  assert (m_id <$> matched ≡ₚ moduleIds) as Hperm.
  { apply submseteq_length_Permutation.
    - apply NoDup_submseteq; [done|].
      intros id (m & -> & Hm)%list_elem_of_fmap.
      by apply list_elem_of_filter in Hm as [[? _] _].
    - rewrite length_fmap. lia. }
  split; [by rewrite <- Hperm|].
  intros id Hid. rewrite <- Hperm in Hid.
  apply list_elem_of_fmap in Hid as (m & -> & Hm).
  apply list_elem_of_filter in Hm as [[_ ?] ?]. by exists m.
Qed.

Section reorder.
Context (COURSE_NOT_FOUND UNAUTHORIZED_MESSAGE : string).

Lemma reorderModules_foreign courseId moduleIds s :
  NoDup (m_id <$> modules s) →
  (∃ id, id ∈ moduleIds ∧ ¬ belongs_to_course id courseId s) →
  reorderModules COURSE_NOT_FOUND courseId moduleIds s
  = (s, Thrown (match Course_findById courseId s with
                | Some _ => "Some modules do not belong to this course"
                | None => COURSE_NOT_FOUND
                end)).
Proof.
  intros Hnd (id & Hid & Hforeign). unfold reorderModules.
  destruct (Course_findById courseId s); [|done].
  case_decide as Hlen; [done|]. exfalso. apply Hforeign.
  destruct (reorder_check _ _ _ Hnd Hlen) as [_ Hall].
  destruct (Hall id Hid) as (m & ? & ? & ?). by exists m.
Qed.

(** C7: a list with an id that does not belong to the course, and an
    empty list, are both answered with [BAD_REQUEST], and no stored
    document changes; in the first case the service itself throws, with
    the does-not-belong error when the course exists. *)
Theorem reorderModules_validation courseId moduleIds s :
  NoDup (m_id <$> modules s) →
  moduleIds = [] ∨ (∃ id, id ∈ moduleIds ∧ ¬ belongs_to_course id courseId s) →
  (∃ msg,
     ModuleController_reorderModules COURSE_NOT_FOUND UNAUTHORIZED_MESSAGE
       true courseId (Some moduleIds) s
     = (s, Returned {| status := BAD_REQUEST; success := false;
                       message := msg; data := [] |}))
  ∧ (moduleIds ≠ [] →
     reorderModules COURSE_NOT_FOUND courseId moduleIds s
     = (s, Thrown (match Course_findById courseId s with
                   | Some _ => "Some modules do not belong to this course"
                   | None => COURSE_NOT_FOUND
                   end))).
Proof.
  intros Hnd [->|Hforeign].
  - split; [by eexists|done].
  - destruct moduleIds as [|id0 rest].
    { by destruct Hforeign as (? & ?%elem_of_nil & _). }
    pose proof (reorderModules_foreign courseId (id0 :: rest) s Hnd Hforeign) as Hthrow.
    split; [|done].
    unfold ModuleController_reorderModules. cbn [negb]. rewrite Hthrow.
    destruct (Course_findById courseId s).
    + by eexists.
    + rewrite bool_decide_eq_true_2 by done. rewrite orb_true_r. by eexists.
Qed.
End reorder.

Lemma reorderModules_validation_witness :
  (∃ msg,
     ModuleController_reorderModules "Course not found" "Unauthorized"
       true "c1" (Some ["a"; "f0"]) sample_store
     = (sample_store, Returned {| status := BAD_REQUEST; success := false;
                                  message := msg; data := [] |}))
  ∧ (["a"; "f0"] ≠ [] →
     reorderModules "Course not found" "c1" ["a"; "f0"] sample_store
     = (sample_store,
        Thrown (match Course_findById "c1" sample_store with
                | Some _ => "Some modules do not belong to this course"
                | None => "Course not found"
                end))).
Proof.
  apply (reorderModules_validation "Course not found" "Unauthorized"
           "c1" ["a"; "f0"] sample_store).
  - apply (bool_decide_unpack _). vm_compute. exact I.
  - right. exists "f0". split.
    + apply (bool_decide_unpack _). vm_compute. exact I.
    + intros (m & Hm & Hid & _). revert Hid.
      apply (Forall_forall (λ m, m_id m ≠ "f0") (modules sample_store)); [|done].
      apply (bool_decide_unpack _). vm_compute. exact I.
Defined.

Lemma position_cons id0 rest id :
  position (id0 :: rest) id
  = if decide (id0 = id) then Some 0%nat else S <$> position rest id.
Proof.
  unfold position. cbn. case_decide; [done|].
  by destruct (list_find _ rest) as [[i x]|].
Qed.

Lemma position_None ids id : id ∉ ids → position ids id = None.
Proof.
  intros Hid. unfold position.
  destruct (list_find _ ids) as [[i x]|] eqn:Hf; [|done].
  apply list_find_Some in Hf as (Hi & -> & _).
  by apply list_elem_of_lookup_2 in Hi.
Qed.

Lemma position_lookup ids i id :
  NoDup ids → ids !! i = Some id → position ids id = Some i.
Proof.
  intros Hnd Hi. unfold position.
  destruct (list_find (λ x, x = id) ids) as [[j x]|] eqn:Hf.
  - apply list_find_Some in Hf as (Hj & -> & _). cbn.
    f_equal. by eapply NoDup_lookup.
  - apply list_find_None in Hf. rewrite Forall_forall in Hf.
    by destruct (Hf id (list_elem_of_lookup_2 _ _ _ Hi)).
Qed.

(** With unique [_id]s, writing one document is a map over the collection. *)
Lemma insert_by_id (g : IModule → IModule) (ms : list IModule) i m :
  NoDup (m_id <$> ms) → ms !! i = Some m →
  <[i := g m]> ms = (λ z, if decide (m_id z = m_id m) then g z else z) <$> ms.
Proof.
  intros Hnd Hi. apply list_eq. intros j. rewrite list_lookup_fmap.
  destruct (decide (i = j)) as [<-|Hij].
  - rewrite list_lookup_insert_eq by by eapply lookup_lt_Some.
    rewrite Hi. cbn. by rewrite decide_True.
  - rewrite list_lookup_insert_ne by done.
    destruct (ms !! j) as [z|] eqn:Hj; [|done]. cbn.
    case_decide as Hid; [|done]. destruct Hij.
    apply (NoDup_lookup _ _ _ (m_id m) Hnd); rewrite list_lookup_fmap.
    + by rewrite Hi.
    + by rewrite Hj, <- Hid.
Qed.

Lemma Module_findByIdAndUpdate_modules id n s s' r :
  NoDup (m_id <$> modules s) →
  Module_findByIdAndUpdate id n s = (s', Returned r) →
  modules s'
  = (λ m, if decide (m_id m = id) then with_moduleNumber n m else m) <$> modules s.
Proof.
  intros Hnd. unfold Module_findByIdAndUpdate.
  destruct (list_find _ (modules s)) as [[i m]|] eqn:Hf.
  - apply list_find_Some in Hf as (Hi & <- & _).
    case_decide; [done|]. intros [= <- _]. cbn [set_modules modules].
    by apply insert_by_id.
  - intros [= <- _]. apply list_find_None in Hf.
    rewrite <- (list_fmap_id (modules s)) at 1.
    apply Forall_fmap_ext. eapply Forall_impl; [exact Hf|].
    intros m Hm. cbn. by rewrite decide_False.
Qed.

Lemma renumber_step id0 rest k m :
  id0 ∉ rest →
  renumber rest (S k)
    (if decide (m_id m = id0) then with_moduleNumber (Z.of_nat k + 1) m else m)
  = renumber (id0 :: rest) k m.
Proof.
  intros Hid0. unfold renumber at 2. rewrite position_cons.
  case_decide as Hm.
  - rewrite decide_True by done. unfold renumber. cbn [with_moduleNumber m_id].
    rewrite Hm, position_None by done. do 2 f_equal. lia.
  - rewrite decide_False by done. unfold renumber.
    destruct (position rest (m_id m)) as [i|]; [|done]. cbn.
    do 2 f_equal. lia.
Qed.

Lemma reorder_loop_modules moduleIds : ∀ k updatedModules s s' result,
  NoDup (m_id <$> modules s) → NoDup moduleIds →
  reorder_loop moduleIds k updatedModules s = (s', Returned result) →
  modules s' = renumber moduleIds k <$> modules s.
Proof.
  induction moduleIds as [|id0 rest IH];
    intros k updatedModules s s' result Hnd Hids Hloop.
  - injection Hloop as <- _. unfold renumber. cbn. by rewrite list_fmap_id.
  - apply NoDup_cons in Hids as [Hid0 Hrest]. cbn [reorder_loop] in Hloop.
    destruct (Module_findByIdAndUpdate id0 _ s) as [s1 [r|msg]] eqn:Hstep; [|done].
    apply Module_findByIdAndUpdate_modules in Hstep; [|done].
    assert (modules s' = renumber rest (S k) <$> modules s1) as ->.
    { assert (NoDup (m_id <$> modules s1)) as Hnd1.
      { rewrite Hstep, <- list_fmap_compose.
        rewrite (list_fmap_ext _ m_id); [done|].
        intros i m _. cbn. by case_decide. }
      destruct r; by eapply IH. }
    rewrite Hstep, <- list_fmap_compose. apply list_fmap_ext.
    intros i m _. cbn. by apply renumber_step.
Qed.

Lemma renumber_position_numbers moduleIds :
  NoDup moduleIds →
  (λ id, from_option (λ i, Z.of_nat i + 1) 0 (position moduleIds id)) <$> moduleIds
  = seqZ 1 (Z.of_nat (length moduleIds)).
Proof.
  intros Hnd. apply list_eq. intros i. rewrite list_lookup_fmap.
  destruct (moduleIds !! i) as [id|] eqn:Hi; cbn.
  - rewrite (position_lookup _ i) by done. cbn.
    rewrite lookup_seqZ_lt; [f_equal; lia|].
    apply lookup_lt_Some in Hi. lia.
  - rewrite lookup_seqZ_ge; [done|]. apply lookup_ge_None in Hi. lia.
Qed.

Lemma filter_renumber courseId moduleIds k (ms : list IModule) :
  filter (λ m, m_courseId m = courseId) (renumber moduleIds k <$> ms)
  = renumber moduleIds k <$> filter (λ m, m_courseId m = courseId) ms.
Proof.
  induction ms as [|m ms IHms]; [done|].
  cbn [fmap list_fmap]. rewrite !filter_cons.
  assert (m_courseId (renumber moduleIds k m) = m_courseId m) as ->.
  { unfold renumber. by destruct (position _ _). }
  case_decide; cbn [fmap list_fmap]; by rewrite IHms.
Qed.

Section reorder_numbers.
Context (COURSE_NOT_FOUND : string).

(** C2, as the code has it: the ids are only checked to belong to the
    course, so the numbers 1..N come out when the list names every
    module of the course. *)
Theorem reorderModules_gapless courseId moduleIds s result :
  NoDup (m_id <$> modules s) →
  Forall (λ m, m_courseId m = courseId → m_id m ∈ moduleIds) (modules s) →
  snd (reorderModules COURSE_NOT_FOUND courseId moduleIds s) = Returned result →
  let s' := fst (reorderModules COURSE_NOT_FOUND courseId moduleIds s) in
  course_module_numbers courseId s'
  ≡ₚ seqZ 1 (Z.of_nat (length (course_module_numbers courseId s'))).
Proof.
  intros Hnd Hcover Hres. cbn zeta. revert Hres. unfold reorderModules.
  destruct (Course_findById courseId s); [|done].
  case_decide as Hlen; [done|].
  destruct (reorder_check _ _ _ Hnd Hlen) as [Hids Hall].
  destruct (reorder_loop moduleIds 0 [] s) as [s' [res|msg]] eqn:Hloop; [|done].
  intros _. cbn [fst].
  apply reorder_loop_modules in Hloop; [|done..].
  unfold course_module_numbers. rewrite Hloop.
  set (inCourse := filter (λ m, m_courseId m = courseId) (modules s)).
  assert (filter (λ m, m_courseId m = courseId) (renumber moduleIds 0 <$> modules s)
          = renumber moduleIds 0 <$> inCourse) as ->.
  { apply filter_renumber. }
  assert (m_id <$> inCourse ≡ₚ moduleIds) as Hperm.
  { apply NoDup_Permutation; [|done|].
    - eapply sublist_NoDup; [exact Hnd|]. apply fmap_sublist, sublist_filter.
    - intros id. split.
      + intros (m & -> & [Hc Hm]%list_elem_of_filter)%list_elem_of_fmap.
        rewrite Forall_forall in Hcover. by apply Hcover.
      + intros (m & Hm & <- & Hc)%Hall. apply list_elem_of_fmap_2.
        by apply list_elem_of_filter. }
  rewrite !length_fmap.
  assert (length inCourse = length moduleIds) as ->.
  { by rewrite <- Hperm, length_fmap. }
  rewrite <- renumber_position_numbers by done.
  set (pos := λ id, from_option _ 0 (position moduleIds id)).
  trans (pos <$> (m_id <$> inCourse)); [|by apply fmap_Permutation].
  rewrite <- !list_fmap_compose.
  erewrite (Forall_fmap_ext_1 (m_moduleNumber ∘ renumber moduleIds 0)); [done|].
  apply Forall_forall. intros m [Hc Hm]%list_elem_of_filter. subst pos.
  rewrite Forall_forall in Hcover. specialize (Hcover m Hm Hc).
  apply list_elem_of_lookup in Hcover as [j Hj].
  cbn. unfold renumber. by rewrite (position_lookup _ j).
Qed.
End reorder_numbers.

Lemma reorderModules_gapless_witness :
  let s' := fst (reorderModules "Course not found" "c1" ["b"; "a"] shifted_store) in
  course_module_numbers "c1" s'
  ≡ₚ seqZ 1 (Z.of_nat (length (course_module_numbers "c1" s'))).
Proof.
  eapply (reorderModules_gapless "Course not found" "c1" ["b"; "a"] shifted_store).
  - apply (bool_decide_unpack _). vm_compute. exact I.
  - apply (bool_decide_unpack _). vm_compute. exact I.
  - vm_compute. reflexivity.
Defined.

(** C2 as stated fails: on modules numbered 1 and 3, reordering the list
    that names only the first succeeds and leaves the numbers 1 and 3. *)
Lemma reorderModules_partial_list_gap :
  ¬ (∀ courseId moduleIds s result,
       NoDup (m_id <$> modules s) →
       snd (reorderModules "Course not found" courseId moduleIds s) = Returned result →
       let s' := fst (reorderModules "Course not found" courseId moduleIds s) in
       course_module_numbers courseId s'
       ≡ₚ seqZ 1 (Z.of_nat (length (course_module_numbers courseId s')))).
Proof.
  intros Hall.
  specialize (Hall "c1" ["a"] gapped_store [sample_module "a" "Module A" 1]).
  assert (NoDup (m_id <$> modules gapped_store)) as Hnd.
  { apply (bool_decide_unpack _). vm_compute. exact I. }
  specialize (Hall Hnd ltac:(vm_compute; reflexivity)). cbn zeta in Hall.
  assert (course_module_numbers "c1"
            (fst (reorderModules "Course not found" "c1" ["a"] gapped_store))
          = [1; 3]) as Hnumbers by (vm_compute; reflexivity).
  rewrite Hnumbers in Hall.
  assert (3 ∈ seqZ 1 (Z.of_nat (length [1; 3]))) as Hin.
  { rewrite <- Hall. apply list_elem_of_further, list_elem_of_here. }
  apply elem_of_seqZ in Hin. cbn in Hin. lia.
Qed.

(** Under the unique index a swap of two modules numbered 1 and 2 stops
    at its first write. *)
Example reorderModules_swap_collides :
  snd (reorderModules "Course not found" "c1" ["b"; "a"] sample_store) = Thrown E11000.
Proof. vm_compute. reflexivity. Qed.

(** ** Duplicating a module *)

Global Instance descending_trans {A} (number : A → Z) : Transitive (descending number).
Proof. intros a b c. unfold descending. lia. Qed.

Global Instance descending_total {A} (number : A → Z) : Total (descending number).
Proof. intros a b. unfold descending. lia. Qed.

Lemma last_by_Some {A} (number : A → Z) (l : list A) x :
  last_by number l = Some x →
  x ∈ l ∧ Forall (λ y, number y ≤ number x) l.
Proof.
  unfold last_by. intros [r Hr]%head_Some.
  pose proof (StronglySorted_merge_sort (descending number) l) as Hs.
  pose proof (merge_sort_Permutation (descending number) l) as Hp.
  rewrite Hr in Hs, Hp. apply StronglySorted_cons in Hs as [Hall _].
  rewrite <- Hp. split; [apply list_elem_of_here|].
  constructor; [lia|]. exact Hall.
Qed.

Lemma last_by_None {A} (number : A → Z) (l : list A) :
  last_by number l = None → l = [].
Proof.
  unfold last_by. intros Hh.
  pose proof (merge_sort_Permutation (descending number) l) as Hp.
  destruct (merge_sort _ l); [|done]. by apply Permutation_nil_l in Hp.
Qed.

Lemma calculateLectureStats_content this s :
  lectures (fst (calculateLectureStats this s)) = lectures s
  ∧ module_core <$> modules (fst (calculateLectureStats this s))
    = module_core <$> modules s.
Proof.
  unfold calculateLectureStats. cbn [fst].
  set (result := {| st_lectureCount := _ |}).
  set (s1 := match list_find _ (modules s) with Some _ => _ | None => _ end).
  destruct (Module_post_save_content this s1) as [-> ->]. subst s1.
  destruct (list_find _ (modules s)) as [[i m]|] eqn:Hm; [|done].
  apply list_find_Some in Hm as (Hi & _). cbn [set_modules modules lectures].
  split; [done|]. rewrite list_fmap_insert. apply list_insert_id.
  by rewrite list_lookup_fmap, Hi.
Qed.

Lemma Lecture_post_save_content this s :
  lectures (Lecture_post_save this s) = lectures s
  ∧ module_core <$> modules (Lecture_post_save this s) = module_core <$> modules s.
Proof.
  unfold Lecture_post_save.
  destruct (Module_findById _ s); [apply calculateLectureStats_content|done].
Qed.

Lemma filter_none {A} (P : A → Prop) `{∀ x, Decision (P x)} (l : list A) :
  Forall (λ x, ¬ P x) l → filter P l = [].
Proof.
  induction 1 as [|x l Hx _ IH]; [done|]. by rewrite filter_cons_False.
Qed.

(** ** Trimming and validation *)

Lemma append_assoc (a b c : string) : (a +:+ b) +:+ c = a +:+ b +:+ c.
Proof.
  induction a as [|x a IH]; [done|].
  change (String x (a +:+ b) +:+ c = String x (a +:+ b +:+ c)).
  change (String x ((a +:+ b) +:+ c) = String x (a +:+ b +:+ c)). by rewrite IH.
Qed.

Lemma length_append (a b : string) :
  String.length (a +:+ b) = (String.length a + String.length b)%nat.
Proof.
  induction a as [|x a IH]; [done|].
  change (S (String.length (a +:+ b)) = S (String.length a + String.length b)).
  by rewrite IH.
Qed.

Lemma trimEnd_app (a b : string) :
  trimEnd b ≠ "" → trimEnd (a +:+ b) = a +:+ trimEnd b.
Proof.
  intros Hb. induction a as [|x a IH]; [done|].
  change (trimEnd (String x (a +:+ b)) = String x (a +:+ trimEnd b)).
  cbn [trimEnd]. rewrite IH.
  destruct (a +:+ trimEnd b) as [|y r] eqn:Happ; [|done].
  destruct a; [by destruct Hb|discriminate Happ].
Qed.

(** The title of a copy: leading white space of the source title is
    dropped and the suffix stays. *)
Lemma trim_copy (title : string) :
  ∃ kept,
    trim (title +:+ " (Copy)") = kept +:+ "(Copy)"
    ∧ (String.length kept ≤ String.length title + 1)%nat.
Proof.
  unfold trim.
  assert (∃ kept, trimStart (title +:+ " (Copy)") = kept +:+ "(Copy)"
                  ∧ (String.length kept ≤ String.length title + 1)%nat)
    as (kept & -> & Hlen).
  { induction title as [|x title (kept & IH & Hlen)].
    { exists "". split; [reflexivity|]. cbn [String.length]. lia. }
    change (String x title +:+ " (Copy)") with (String x (title +:+ " (Copy)")).
    cbn [trimStart]. destruct (is_white_space x).
    - exists kept. split; [done|]. cbn [String.length]. lia.
    - exists (String x title +:+ " "). split; [by rewrite append_assoc|].
      rewrite length_append. cbn [String.length]. lia. }
  exists kept. split; [|done]. by rewrite trimEnd_app.
Qed.

Lemma Lecture_validate_number_not_given this :
  l_lectureNumber this = 0 →
  ("lectureNumber", "Lecture number is required") ∈ Lecture_validate this.
Proof.
  intros Hn. unfold Lecture_validate, required_min_1. rewrite Hn, decide_True by done.
  rewrite !elem_of_app. do 4 right. apply list_elem_of_here.
Qed.

Section duplicate.
Context (MODULE_NOT_FOUND : string).

(** Saving a valid module whose number is above every number of its
    course appends it. *)
Lemma Module_save_new_last this s :
  Module_validate this = [] →
  Forall (λ m, m_courseId m = m_courseId this → m_moduleNumber m < m_moduleNumber this)
         (modules s) →
  Module_save_new this s
  = (Module_post_save this (set_modules (modules s ++ [this]) s), Returned this).
Proof.
  intros Hvalid Habove. unfold Module_save_new. rewrite Hvalid.
  assert (Module_pre_save this s = this) as ->.
  { unfold Module_pre_save. case_decide as Hzero; [|done].
    unfold Module_validate, required_min_1 in Hvalid.
    rewrite Hzero, decide_True in Hvalid by done.
    by destruct (required_string _ _ _), (maxlength_100 _ _ _). }
  rewrite decide_False; [done|].
  intros (m & Hm%list_elem_of_delete_inv & Hc & Hn)%Exists_exists.
  rewrite Forall_forall in Habove. specialize (Habove m Hm Hc). lia.
Qed.

(** C8, what the code does: for a source module that has a lecture,
    [duplicateModule] stores the new module (same course, highest number
    plus one, suffixed title) and then throws at the first lecture: the
    copy is created without [lectureNumber], which the schema requires,
    and validation runs before the hook that would number it.  No
    lecture is copied, and the empty module stays. *)
Theorem duplicateModule_lectures_not_copied
    newModuleId newLectureId moduleId s originalModule :
  Module_findById moduleId s = Some originalModule →
  1 ≤ m_moduleNumber originalModule →
  (String.length (m_title originalModule) ≤ 93)%nat →
  filter (λ l, l_moduleId l = moduleId) (lectures s) ≠ [] →
  ∃ duplicatedModule errors,
    let s' := fst (duplicateModule MODULE_NOT_FOUND newModuleId newLectureId moduleId s) in
    snd (duplicateModule MODULE_NOT_FOUND newModuleId newLectureId moduleId s)
      = Thrown (ValidationError "Lecture validation failed" errors)
    ∧ ("lectureNumber", "Lecture number is required") ∈ errors
    ∧ modules s' = modules s ++ [duplicatedModule]
    ∧ module_core duplicatedModule
      = (newModuleId, trim (m_title originalModule +:+ " (Copy)"),
         m_moduleNumber duplicatedModule, m_courseId originalModule,
         m_isActive originalModule)
    ∧ Forall (λ m, m_courseId m = m_courseId originalModule →
                   m_moduleNumber m < m_moduleNumber duplicatedModule) (modules s)
    ∧ Exists (λ m, m_courseId m = m_courseId originalModule
                   ∧ m_moduleNumber duplicatedModule = m_moduleNumber m + 1) (modules s)
    ∧ lectures s' = lectures s.
Proof.
  intros Hfind Hnumber Htitle Hlectures. unfold duplicateModule. rewrite Hfind.
  assert (originalModule ∈ modules s ∧ m_id originalModule = moduleId) as [Hin Hmid].
  { unfold Module_findById in Hfind.
    destruct (list_find _ (modules s)) as [[i m]|] eqn:Hf; [|done].
    injection Hfind as ->. apply list_find_Some in Hf as (Hi & ? & _).
    split; [|done]. by eapply list_elem_of_lookup_2. }
  set (inCourse := filter (λ m, m_courseId m = m_courseId originalModule) (modules s)).
  destruct (last_by m_moduleNumber inCourse) as [lastModule|] eqn:Hlast; cycle 1.
  { apply last_by_None in Hlast.
    by destruct (filter_nil_not_elem_of _ _ originalModule Hlast eq_refl). }
  apply last_by_Some in Hlast as [Hlin Hmax]. subst inCourse.
  apply list_elem_of_filter in Hlin as [Hlc Hlin].
  rewrite Forall_forall in Hmax.
  assert (∀ m, m ∈ modules s → m_courseId m = m_courseId originalModule →
               m_moduleNumber m ≤ m_moduleNumber lastModule) as Hmax'.
  { intros m Hm Hc. apply Hmax. by apply list_elem_of_filter. }
  set (duplicatedModule := {| m_id := newModuleId |}).
  rewrite (Module_save_new_last duplicatedModule s); cycle 1.
  { unfold Module_validate, required_string, maxlength_100, required_min_1, min_1.
    cbn [duplicatedModule m_title m_moduleNumber].
    destruct (trim_copy (m_title originalModule)) as (kept & -> & Hkept).
    specialize (Hmax' originalModule Hin eq_refl).
    rewrite !decide_False; [done|lia|lia| |by destruct kept].
    rewrite length_append. cbn [String.length]. lia. }
  { apply Forall_forall. intros m Hm Hc. specialize (Hmax' m Hm Hc). cbn. lia. }
  set (s1 := Module_post_save duplicatedModule _).
  destruct (Module_post_save_content duplicatedModule
              (set_modules (modules s ++ [duplicatedModule]) s)) as [Hms1 Hls1].
  fold s1 in Hms1, Hls1. cbn [set_modules modules lectures] in Hms1, Hls1.
  rewrite Hls1, Hmid.
  destruct (filter _ (lectures s)) as [|lecture rest]; [done|].
  cbn [duplicate_lectures]. unfold Lecture_save_new.
  pose proof (Lecture_validate_number_not_given
                (duplicated_lecture (newLectureId 0%nat) duplicatedModule lecture)
                eq_refl) as Herror.
  destruct (Lecture_validate _) as [|e errors] eqn:Herrors;
    [by apply elem_of_nil in Herror|].
  exists duplicatedModule, (e :: errors). cbn zeta. cbn [fst snd].
  split_and!; try done.
  - apply Forall_forall. intros m Hm Hc. specialize (Hmax' m Hm Hc). cbn. lia.
  - apply Exists_exists. by exists lastModule.
Qed.
End duplicate.

Lemma duplicateModule_lectures_not_copied_witness :
  ∃ duplicatedModule errors,
    let s' := fst (duplicateModule "Module not found" "d" sample_lecture_id "a"
                     sample_store) in
    snd (duplicateModule "Module not found" "d" sample_lecture_id "a" sample_store)
      = Thrown (ValidationError "Lecture validation failed" errors)
    ∧ ("lectureNumber", "Lecture number is required") ∈ errors
    ∧ modules s' = modules sample_store ++ [duplicatedModule]
    ∧ module_core duplicatedModule
      = ("d", trim (m_title (sample_module "a" "Module A" 1) +:+ " (Copy)"),
         m_moduleNumber duplicatedModule, m_courseId (sample_module "a" "Module A" 1),
         m_isActive (sample_module "a" "Module A" 1))
    ∧ Forall (λ m, m_courseId m = m_courseId (sample_module "a" "Module A" 1) →
                   m_moduleNumber m < m_moduleNumber duplicatedModule)
        (modules sample_store)
    ∧ Exists (λ m, m_courseId m = m_courseId (sample_module "a" "Module A" 1)
                   ∧ m_moduleNumber duplicatedModule = m_moduleNumber m + 1)
        (modules sample_store)
    ∧ lectures s' = lectures sample_store.
Proof.
  apply (duplicateModule_lectures_not_copied "Module not found" "d" sample_lecture_id "a"
           sample_store (sample_module "a" "Module A" 1)).
  - vm_compute. reflexivity.
  - cbn. lia.
  - cbn. lia.
  - vm_compute. discriminate.
Defined.

(** The call of C8 on module A of the sample course (lectures a1, a2,
    a3): it throws, module "Module A (Copy)" is stored with number 3 and
    without lectures, and the counters of the course count it. *)
Example duplicateModule_sample :
  let r := duplicateModule "Module not found" "d" sample_lecture_id "a" sample_store in
  snd r = Thrown "Lecture validation failed: lectureNumber: Lecture number is required"
  ∧ module_core <$> modules (fst r)
    = [("a", "Module A", 1, "c1", true); ("b", "Module B", 2, "c1", true);
       ("d", "Module A (Copy)", 3, "c1", true)]
  ∧ filter (λ l, l_moduleId l = "d") (lectures (fst r)) = []
  ∧ c_totalModules <$> courses (fst r) = [3].
Proof. cbn zeta. split_and!; vm_compute; reflexivity. Qed.

(** A source module without lectures is duplicated. *)
Example duplicateModule_empty_source :
  let r := duplicateModule "Module not found" "d" sample_lecture_id "c" gapped_store in
  (∃ duplicatedModule,
     snd r = Returned duplicatedModule
     ∧ module_core duplicatedModule = ("d", "Module C (Copy)", 4, "c1", true))
  ∧ lectures (fst r) = lectures gapped_store.
Proof.
  cbn zeta. split; [|vm_compute; reflexivity].
  eexists. split; vm_compute; reflexivity.
Qed.

(** * Further properties of the progress model *)

(** ** Derived fields *)

Lemma count_completed_app l1 l2 :
  count_completed (l1 ++ l2) = count_completed l1 + count_completed l2.
Proof. unfold count_completed. rewrite filter_app, length_app. lia. Qed.

Lemma count_completed_bounds ls :
  0 ≤ count_completed ls ≤ Z.of_nat (length ls).
Proof.
  unfold count_completed.
  pose proof (length_filter (λ l, lp_isCompleted l = true) ls). lia.
Qed.

Lemma length_filter_all {A} (P : A → Prop) `{∀ x, Decision (P x)} (l : list A) :
  length (filter P l) = length l ↔ Forall P l.
Proof.
  induction l as [|x l IH]; [by split; [constructor|]|].
  rewrite filter_cons, Forall_cons. pose proof (length_filter P l) as Hle.
  case_decide as Hx; cbn [length].
  - split.
    + intros [= Heq]. split; [done|]. by apply IH.
    + intros [_ Hall]. apply IH in Hall. by rewrite Hall.
  - split; [intros Heq; lia|]. by intros [? _].
Qed.

Lemma count_completed_all ls :
  count_completed ls = Z.of_nat (length ls)
  ↔ Forall (λ l, lp_isCompleted l = true) ls.
Proof.
  unfold count_completed. rewrite Nat2Z.inj_iff. apply length_filter_all.
Qed.

Lemma foldl_completedLectures ms : ∀ acc,
  Forall module_consistent ms →
  foldl (λ total mod_, total + mp_completedLectures mod_) acc ms
  = acc + count_completed (concat (mp_lectures <$> ms)).
Proof.
  induction ms as [|m ms IH]; intros acc Hms.
  - cbn. unfold count_completed. cbn. lia.
  - apply Forall_cons in Hms as [(Hc & _) Hms]. cbn.
    rewrite IH, count_completed_app, Hc by done. lia.
Qed.

Lemma foldl_totalLectures ms : ∀ acc,
  Forall module_consistent ms →
  foldl (λ total mp, total + mp_totalLectures mp) acc ms
  = acc + Z.of_nat (length (concat (mp_lectures <$> ms))).
Proof.
  induction ms as [|m ms IH]; intros acc Hms.
  - cbn. lia.
  - apply Forall_cons in Hms as [(_ & Ht & _) Hms]. cbn.
    rewrite IH, length_app, Ht by done. lia.
Qed.

Lemma fresh_module_progress_consistent lectures module :
  module_consistent (fresh_module_progress lectures module).
Proof.
  unfold module_consistent, fresh_module_progress, count_completed. cbn.
  rewrite length_fmap. split_and!; [|done|].
  - rewrite filter_none; [done|].
    apply Forall_fmap, Forall_true. by intros l.
  - split; [done|]. lia.
Qed.

Lemma recalculate_module_consistent now m i lecture' :
  module_consistent m → (i < length (mp_lectures m))%nat →
  module_consistent (recalculate_module now m (<[i := lecture']> (mp_lectures m))).
Proof.
  intros (_ & Ht & _) Hi. unfold module_consistent, recalculate_module. cbn.
  rewrite length_insert. split_and!; [done|done|].
  rewrite bool_decide_eq_true. split; [|tauto]. intros Heq. split; [done|]. lia.
Qed.

Lemma length_update_first lectureId g ls :
  length (update_first lectureId g ls) = length ls.
Proof.
  induction ls as [|x ls IH]; [done|]. cbn. case_decide; cbn; by rewrite ?IH.
Qed.

Lemma reachable_consistent this :
  reachable this →
  Forall module_consistent (pg_modules this) ∧ progress_consistent this.
Proof.
  induction 1 as [now userId courseId s
                 |now lectureId watchTime isCompleted this Hr [IHm IHp]].
  - assert (Forall module_consistent
              (pg_modules (snd (initializeForCourse now userId courseId s)))) as Hms.
    { cbn. apply Forall_fmap, Forall_true. intros m.
      apply fresh_module_progress_consistent. }
    split; [done|]. unfold progress_consistent.
    pose proof (initializeForCourse_flags now userId courseId s) as Hflags.
    split_and!.
    + cbn [initializeForCourse snd pg_completedLectures].
      unfold count_completed. rewrite filter_none; [done|].
      unfold flags in Hflags. apply Forall_fmap in Hflags.
      eapply Forall_impl; [exact Hflags|]. cbn. intros l ->. done.
    + unfold flattened. cbn [initializeForCourse snd pg_totalLectures].
      rewrite foldl_totalLectures by exact Hms. cbn. lia.
    + cbn. rewrite filter_none; [done|].
      apply Forall_fmap, Forall_true. by intros m.
    + cbn. by rewrite length_fmap.
  - pose proof (flattened_updateLectureProgress now lectureId watchTime isCompleted this)
      as Hflat.
    revert Hflat. unfold updateLectureProgress.
    destruct (list_find (has_lecture lectureId) _) as [[mi m]|] eqn:Hm; [|done].
    destruct (list_find _ (mp_lectures m)) as [[li l]|] eqn:Hl; [|done].
    cbn [fst]. intros Hflat.
    apply list_find_Some in Hm as (Hmi & _).
    apply list_find_Some in Hl as (Hli%lookup_lt_Some & _).
    assert (Forall module_consistent
              (<[mi := recalculate_module now m
                         (<[li := update_lecture now watchTime isCompleted l]>
                            (mp_lectures m))]> (pg_modules this))) as Hms.
    { apply Forall_insert; [done|]. apply recalculate_module_consistent; [|done].
      rewrite Forall_forall in IHm. apply IHm. by eapply list_elem_of_lookup_2. }
    split; [done|]. destruct IHp as (_ & Ht & _ & Htm).
    unfold progress_consistent. split_and!.
    + unfold flattened. cbn [recalculate_progress pg_completedLectures pg_modules].
      rewrite foldl_completedLectures by exact Hms. lia.
    + rewrite Hflat, length_update_first. exact Ht.
    + done.
    + cbn. by rewrite length_insert.
Qed.

(** X1: in every document the code can produce, each module entry has
    [completedLectures] equal to the number of its completed lectures,
    [totalLectures] equal to the number of its lectures, and
    [isCompleted] exactly when the two are equal and positive. *)
Theorem reachable_module_fields this :
  reachable this → Forall module_consistent (pg_modules this).
Proof. by intros [Hms _]%reachable_consistent. Qed.

Lemma reachable_module_fields_witness :
  Forall module_consistent
    (pg_modules (fst (updateLectureProgress 2000 "b1" None (Some true) sample_progress))).
Proof.
  apply (reachable_module_fields
           (fst (updateLectureProgress 2000 "b1" None (Some true) sample_progress))).
  apply reachable_update, reachable_init.
Defined.

(** X2: in every document the code can produce, [completedLectures] is
    the number of completed lectures of the whole snapshot,
    [totalLectures] the number of its lectures, and [completedModules]
    the number of module entries marked completed; so completed never
    exceeds total. *)
Theorem reachable_progress_counters this :
  reachable this →
  pg_completedLectures this = count_completed (flattened this)
  ∧ pg_totalLectures this = Z.of_nat (length (flattened this))
  ∧ pg_completedModules this
    = Z.of_nat (length (filter (λ m, mp_isCompleted m = true) (pg_modules this)))
  ∧ 0 ≤ pg_completedLectures this ≤ pg_totalLectures this
  ∧ 0 ≤ pg_completedModules this ≤ pg_totalModules this.
Proof.
  intros [_ (Hc & Ht & Hcm & Htm)]%reachable_consistent.
  split_and!; try done.
  - rewrite Hc. apply count_completed_bounds.
  - rewrite Hc, Ht. apply count_completed_bounds.
  - lia.
  - rewrite Hcm, Htm.
    pose proof (length_filter (λ m, mp_isCompleted m = true) (pg_modules this)). lia.
Qed.

Lemma reachable_progress_counters_witness :
  let this := fst (updateLectureProgress 2000 "a2" None (Some true) sample_progress) in
  pg_completedLectures this = count_completed (flattened this)
  ∧ pg_totalLectures this = Z.of_nat (length (flattened this))
  ∧ pg_completedModules this
    = Z.of_nat (length (filter (λ m, mp_isCompleted m = true) (pg_modules this)))
  ∧ 0 ≤ pg_completedLectures this ≤ pg_totalLectures this
  ∧ 0 ≤ pg_completedModules this ≤ pg_totalModules this.
Proof.
  apply (reachable_progress_counters
           (fst (updateLectureProgress 2000 "a2" None (Some true) sample_progress))).
  apply reachable_update, reachable_init.
Defined.

(** X3: a document the code can produce is marked completed exactly when
    its snapshot has at least one module, every module has at least one
    lecture, and every lecture is completed.  A snapshot that holds a
    module without lectures is therefore never marked completed. *)
Theorem reachable_isCompleted_ground_truth this :
  reachable this →
  pg_isCompleted this = true
  ↔ pg_modules this ≠ []
    ∧ Forall (λ m, mp_lectures m ≠ []
                   ∧ Forall (λ l, lp_isCompleted l = true) (mp_lectures m))
        (pg_modules this).
Proof.
  intros Hr. rewrite (reachable_isCompleted _ Hr).
  destruct (reachable_consistent _ Hr) as [Hms (_ & _ & Hcm & Htm)].
  rewrite Hcm, Htm.
  assert (Forall (λ m, mp_isCompleted m = true) (pg_modules this)
          ↔ Forall (λ m, mp_lectures m ≠ []
                         ∧ Forall (λ l, lp_isCompleted l = true) (mp_lectures m))
              (pg_modules this)) as <-.
  { rewrite !Forall_forall. rewrite Forall_forall in Hms.
    split; intros Hall m Hm; destruct (Hms m Hm) as (Hc & Ht & Hiff).
    - specialize (Hall m Hm). apply Hiff in Hall. destruct Hall as [Heq Hpos].
      rewrite Hc, Ht in Heq.
      apply count_completed_all in Heq. split; [|done].
      intros Hnil. rewrite Ht, Hnil in Hpos. cbn in Hpos. lia.
    - destruct (Hall m Hm) as [Hne Hdone]. apply Hiff.
      rewrite Hc, Ht. split; [by apply count_completed_all|].
      destruct (mp_lectures m); [done|]. cbn. lia. }
  rewrite <- length_filter_all. split.
  - intros [Heq%Nat2Z.inj Hpos]. split; [|exact Heq].
    intros Hnil. rewrite Hnil in Hpos. cbn in Hpos. lia.
  - intros [Hne Heq]. split; [f_equal; exact Heq|].
    destruct (pg_modules this); [done|]. cbn. lia.
Qed.

Lemma reachable_isCompleted_ground_truth_witness :
  let this := fst (updateLectureProgress 2000 "b1" None (Some true) sample_progress) in
  pg_isCompleted this = true
  ↔ pg_modules this ≠ []
    ∧ Forall (λ m, mp_lectures m ≠ []
                   ∧ Forall (λ l, lp_isCompleted l = true) (mp_lectures m))
        (pg_modules this).
Proof.
  apply (reachable_isCompleted_ground_truth
           (fst (updateLectureProgress 2000 "b1" None (Some true) sample_progress))).
  apply reachable_update, reachable_init.
Defined.

(** ** What an update leaves alone *)

Lemma update_first_find lectureId g ls :
  update_first lectureId g ls
  = match list_find (λ l, lp_lectureId l = lectureId) ls with
    | Some (k, l) => <[k := g l]> ls
    | None => ls
    end.
Proof.
  destruct (list_find _ ls) as [[k l]|] eqn:Hf.
  - rewrite <- (app_nil_r ls) at 1.
    rewrite (update_first_app_l _ _ _ _ k l) by done. by rewrite app_nil_r.
  - apply update_first_absent. apply list_find_None in Hf.
    rewrite Forall_forall in Hf.
    intros (l & Hid & Hl)%list_elem_of_fmap. by apply (Hf l).
Qed.

Lemma fmap_insert_same {A B} (f : A → B) (l : list A) i x y :
  l !! i = Some x → f y = f x → f <$> <[i := y]> l = f <$> l.
Proof.
  intros Hi Hf. rewrite list_fmap_insert. apply list_insert_id.
  by rewrite list_lookup_fmap, Hi, Hf.
Qed.

Lemma snapshot_shape_updateLectureProgress now lectureId watchTime isCompleted this :
  snapshot_shape (fst (updateLectureProgress now lectureId watchTime isCompleted this))
  = snapshot_shape this.
Proof.
  unfold updateLectureProgress.
  destruct (list_find (has_lecture lectureId) _) as [[mi m]|] eqn:Hm; [|done].
  destruct (list_find _ (mp_lectures m)) as [[li l]|] eqn:Hl; [|done].
  apply list_find_Some in Hm as (Hmi & _).
  apply list_find_Some in Hl as (Hli & _).
  unfold snapshot_shape. cbn. do 3 f_equal.
  apply (fmap_insert_same
           (λ m0, (mp_moduleId m0, lp_lectureId <$> mp_lectures m0, mp_totalLectures m0))
           _ _ m); [done|].
  cbn. do 2 f_equal.
  apply (fmap_insert_same lp_lectureId _ _ l); [done|]. by destruct isCompleted.
Qed.

(** X4: a call never adds, removes or reorders modules or lectures and
    never changes the stored totals, and of the lecture entries only the
    first one that carries the given id can change. *)
Theorem updateLectureProgress_frame now lectureId watchTime isCompleted this :
  let this' := fst (updateLectureProgress now lectureId watchTime isCompleted this) in
  snapshot_shape this' = snapshot_shape this
  ∧ ∀ j,
      (∀ k l, list_find (λ l, lp_lectureId l = lectureId) (flattened this) = Some (k, l)
              → j ≠ k) →
      flattened this' !! j = flattened this !! j.
Proof.
  cbn zeta. split; [apply snapshot_shape_updateLectureProgress|].
  intros j Hj. rewrite flattened_updateLectureProgress, update_first_find.
  destruct (list_find _ (flattened this)) as [[k l]|]; [|done].
  apply list_lookup_insert_ne. intros ->. by apply (Hj j l).
Qed.

(** X5: the completion time of a lecture is the time of its first
    completion: completing it again keeps [completedAt], and marking it
    incomplete clears it. *)
Theorem updateLectureProgress_completedAt t1 t2 w1 w2 lectureId this k l :
  list_find (λ l, lp_lectureId l = lectureId) (flattened this) = Some (k, l) →
  let this1 := fst (updateLectureProgress t1 lectureId w1 (Some true) this) in
  let again := fst (updateLectureProgress t2 lectureId w2 (Some true) this1) in
  let undone := fst (updateLectureProgress t2 lectureId w2 (Some false) this1) in
  lp_completedAt <$> flattened this1 !! k = Some (Some (default t1 (lp_completedAt l)))
  ∧ lp_completedAt <$> flattened again !! k = lp_completedAt <$> flattened this1 !! k
  ∧ lp_completedAt <$> flattened undone !! k = Some None.
Proof.
  intros Hf. cbn zeta.
  pose proof Hf as (Hk%lookup_lt_Some & Hid & _)%list_find_Some.
  rewrite !flattened_updateLectureProgress.
  rewrite (update_first_find lectureId _ (flattened this)), Hf.
  assert (list_find (λ l, lp_lectureId l = lectureId)
            (<[k := update_lecture t1 w1 (Some true) l]> (flattened this))
          = Some (k, update_lecture t1 w1 (Some true) l)) as Hf1.
  { by apply (list_find_insert_same _ _ _ _ _ Hf). }
  rewrite !update_first_find, Hf1.
  rewrite !list_lookup_insert_eq by by rewrite ?length_insert.
  cbn. by destruct (lp_completedAt l).
Qed.

Lemma updateLectureProgress_completedAt_witness :
  let this1 := fst (updateLectureProgress 2000 "a2" None (Some true) sample_progress) in
  let again := fst (updateLectureProgress 3000 "a2" None (Some true) this1) in
  let undone := fst (updateLectureProgress 3000 "a2" None (Some false) this1) in
  lp_completedAt <$> flattened this1 !! 1%nat
  = Some (Some (default 2000
                  (lp_completedAt (fresh_lecture_progress (sample_lecture "a2" "a" 2 20)))))
  ∧ lp_completedAt <$> flattened again !! 1%nat
    = lp_completedAt <$> flattened this1 !! 1%nat
  ∧ lp_completedAt <$> flattened undone !! 1%nat = Some None.
Proof.
  apply (updateLectureProgress_completedAt 2000 3000 None None "a2" sample_progress
           1%nat (fresh_lecture_progress (sample_lecture "a2" "a" 2 20))).
  vm_compute. reflexivity.
Defined.

(** ** The unlock query *)

Lemma unlocked_in_module_find q nextUnlocked rest : ∀ seen,
  unlocked_in_module q nextUnlocked (seen ++ rest) rest (length seen)
  = match list_find (λ l, lp_lectureId l = q) rest with
    | Some (j, l) =>
        Some (if decide (Exists (λ l, lp_lectureId l = nextUnlocked)
                           (take (S (length seen + j)) (seen ++ rest)))
              then true else lp_isCompleted l)
    | None => None
    end.
Proof.
  induction rest as [|lecture rest IH]; intros seen; [done|].
  cbn [unlocked_in_module list_find]. case_decide as Hq.
  - cbn. rewrite Nat.add_0_r. by case_decide.
  - specialize (IH (seen ++ [lecture])).
    rewrite <- app_assoc, length_app in IH. cbn in IH.
    replace (length seen + 1)%nat with (S (length seen)) in IH by lia.
    rewrite IH. destruct (list_find _ rest) as [[j l]|]; [|done]. cbn.
    by replace (length seen + S j)%nat with (S (length seen + j)) by lia.
Qed.

Lemma unlocked_in_modules_find q nextUnlocked ms :
  match list_find (λ l, lp_lectureId l = q) (concat (mp_lectures <$> ms)) with
  | Some (_, l) =>
      lp_isCompleted l = true ∨ q = nextUnlocked →
      unlocked_in_modules q nextUnlocked ms = true
  | None => unlocked_in_modules q nextUnlocked ms = false
  end.
Proof.
  induction ms as [|m ms IH]; [done|].
  cbn [fmap list_fmap concat unlocked_in_modules].
  pose proof (unlocked_in_module_find q nextUnlocked (mp_lectures m) []) as Hm.
  cbn [app length] in Hm. rewrite Hm.
  destruct (list_find _ (mp_lectures m)) as [[j l]|] eqn:Hf.
  - rewrite (list_find_app_l _ _ _ _ _ Hf). intros Hor.
    case_decide as Hex; [done|]. destruct Hor as [Hl| ->]; [done|].
    destruct Hex. apply list_find_Some in Hf as (Hj & Hid & _).
    apply Exists_exists. exists l. split; [|done].
    apply (list_elem_of_lookup_2 _ j). rewrite lookup_take_lt by lia. done.
  - rewrite (list_find_app_r _ _ _ Hf).
    destruct (list_find _ (concat _)) as [[j l]|]; done.
Qed.

(** X6: the lecture [getNextUnlockedLecture] returns is reported
    unlocked by [isLectureUnlocked]. *)
Theorem isLectureUnlocked_next this nextUnlocked :
  getNextUnlockedLecture this = Some nextUnlocked →
  isLectureUnlocked nextUnlocked this = true.
Proof.
  intros Hnext. unfold isLectureUnlocked. rewrite Hnext.
  pose proof (unlocked_in_modules_find nextUnlocked nextUnlocked (pg_modules this)) as Hfind.
  destruct (list_find _ (concat _)) as [[j l]|] eqn:Hf; [by apply Hfind; right|].
  exfalso. unfold getNextUnlockedLecture, getNextUnlockedLecture_traced in Hnext.
  rewrite (proj1 (next_in_modules_scan _)) in Hnext. unfold first_incomplete in Hnext.
  destruct (list_find (λ l, lp_isCompleted l = false) _) as [[i x]|] eqn:Hx; [|done].
  injection Hnext as Hid. apply list_find_Some in Hx as (Hi & _).
  apply list_find_None in Hf. rewrite Forall_forall in Hf.
  by apply (Hf x (list_elem_of_lookup_2 _ _ _ Hi)).
Qed.

Lemma isLectureUnlocked_next_witness :
  isLectureUnlocked "a2"
    (fst (updateLectureProgress 2000 "a1" None (Some true) sample_progress)) = true.
Proof.
  apply isLectureUnlocked_next. vm_compute. reflexivity.
Defined.

(** X7: a lecture whose entry is completed is reported unlocked, whatever
    the state of the lectures before it. *)
Theorem isLectureUnlocked_completed lectureId this k l :
  list_find (λ l, lp_lectureId l = lectureId) (flattened this) = Some (k, l) →
  lp_isCompleted l = true →
  isLectureUnlocked lectureId this = true.
Proof.
  intros Hf Hl. unfold isLectureUnlocked.
  destruct (getNextUnlockedLecture this) as [nextUnlocked|]; [|done].
  pose proof (unlocked_in_modules_find lectureId nextUnlocked (pg_modules this)) as Hfind.
  unfold flattened in Hf. rewrite Hf in Hfind. apply Hfind. by left.
Qed.

Lemma isLectureUnlocked_completed_witness :
  isLectureUnlocked "b1"
    (fst (updateLectureProgress 2000 "b1" None (Some true) sample_progress)) = true.
Proof.
  eapply (isLectureUnlocked_completed "b1" _ 3%nat); vm_compute; reflexivity.
Defined.

(** X8: for a lecture id that the snapshot does not hold, the query
    answers [true] exactly when every lecture of the snapshot is
    completed, and [false] otherwise. *)
Theorem isLectureUnlocked_absent lectureId this :
  lectureId ∉ lp_lectureId <$> flattened this →
  isLectureUnlocked lectureId this = true
  ↔ Forall (λ l, lp_isCompleted l = true) (flattened this).
Proof.
  intros Habsent. unfold isLectureUnlocked, getNextUnlockedLecture,
    getNextUnlockedLecture_traced.
  rewrite (proj1 (next_in_modules_scan _)). fold (flattened this).
  rewrite <- first_incomplete_None.
  destruct (first_incomplete (flattened this)) as [nextUnlocked|]; [|done].
  pose proof (unlocked_in_modules_find lectureId nextUnlocked (pg_modules this)) as Hfind.
  fold (flattened this) in Hfind.
  destruct (list_find _ (flattened this)) as [[j l]|] eqn:Hf.
  - destruct Habsent. apply list_find_Some in Hf as (Hj & <- & _).
    apply list_elem_of_fmap_2. by eapply list_elem_of_lookup_2.
  - rewrite Hfind. done.
Qed.

Lemma isLectureUnlocked_absent_witness :
  isLectureUnlocked "f0" sample_progress = true
  ↔ Forall (λ l, lp_isCompleted l = true) (flattened sample_progress).
Proof.
  apply isLectureUnlocked_absent.
  apply (bool_decide_unpack _). vm_compute. exact I.
Defined.

(** * Properties of the progress service *)

Lemma updateLectureProgress_absent now lectureId watchTime isCompleted this :
  lectureId ∉ lp_lectureId <$> flattened this →
  updateLectureProgress now lectureId watchTime isCompleted this
  = (this, Thrown "Lecture not found in progress").
Proof.
  unfold flattened. rewrite <- has_lecture_flattened. intros Habsent.
  unfold updateLectureProgress.
  destruct (list_find (has_lecture lectureId) _) as [[mi m]|] eqn:Hm; [|done].
  destruct Habsent. apply list_find_Some in Hm as (Hmi & Hhas & _).
  apply Exists_exists. exists m. split; [|done]. by eapply list_elem_of_lookup_2.
Qed.

Lemma updateLectureProgress_present now lectureId watchTime isCompleted this :
  lectureId ∈ lp_lectureId <$> flattened this →
  snd (updateLectureProgress now lectureId watchTime isCompleted this) = Returned ().
Proof.
  unfold flattened. rewrite <- has_lecture_flattened. intros Hex.
  unfold updateLectureProgress.
  destruct (list_find_is_Some _ _ Hex) as [[mi m] Hm]. rewrite Hm.
  apply list_find_Some in Hm as (_ & Hhas & _).
  destruct (list_find_is_Some _ _ Hhas) as [[li l] Hl]. by rewrite Hl.
Qed.

Lemma ids_updateLectureProgress now lectureId watchTime isCompleted this :
  lp_lectureId <$> flattened (fst (updateLectureProgress now lectureId watchTime
                                     isCompleted this))
  = lp_lectureId <$> flattened this.
Proof.
  rewrite flattened_updateLectureProgress, update_first_find.
  destruct (list_find _ (flattened this)) as [[k l]|] eqn:Hf; [|done].
  apply list_find_Some in Hf as (Hk & _).
  apply (fmap_insert_same lp_lectureId _ _ l); [done|]. by destruct isCompleted.
Qed.

Lemma key_updateLectureProgress now lectureId watchTime isCompleted this :
  pg_userId (fst (updateLectureProgress now lectureId watchTime isCompleted this))
  = pg_userId this
  ∧ pg_courseId (fst (updateLectureProgress now lectureId watchTime isCompleted this))
    = pg_courseId this.
Proof.
  pose proof (snapshot_shape_updateLectureProgress now lectureId watchTime
                isCompleted this) as Hshape.
  unfold snapshot_shape in Hshape. by injection Hshape.
Qed.

Lemma list_find_insert_other {A} (P : A → Prop) `{∀ x, Decision (P x)}
    (l : list A) i x y :
  l !! i = Some x → ¬ P x → ¬ P y → list_find P (<[i := y]> l) = list_find P l.
Proof.
  revert i. induction l as [|z l IH]; intros i Hi Hx Hy; [done|].
  destruct i as [|i]; cbn in *.
  - injection Hi as ->. by rewrite !decide_False.
  - case_decide; [done|]. f_equal. by apply IH.
Qed.

Lemma list_find_snoc_other {A} (P : A → Prop) `{∀ x, Decision (P x)} (l : list A) y :
  ¬ P y → list_find P (l ++ [y]) = list_find P l.
Proof.
  intros Hy. destruct (list_find P l) as [[i x]|] eqn:Hf.
  - by apply list_find_app_l.
  - rewrite (list_find_app_r _ _ _ Hf). cbn. by rewrite decide_False.
Qed.

Section progress_records.
Context (userId courseId : string).

Lemma Progress_findOne_key s p :
  Progress_findOne userId courseId s = Some p →
  pg_userId p = userId ∧ pg_courseId p = courseId.
Proof.
  unfold Progress_findOne.
  destruct (list_find _ (progresses s)) as [[i q]|] eqn:Hf; [|done].
  intros [= ->]. by apply list_find_Some in Hf as (_ & ? & _).
Qed.

Lemma Progress_findOne_save s p :
  pg_userId p = userId → pg_courseId p = courseId →
  is_Some (Progress_findOne userId courseId s) →
  Progress_findOne userId courseId (Progress_save p s) = Some p.
Proof.
  intros Hu Hc. unfold Progress_findOne, Progress_save. rewrite Hu, Hc.
  destruct (list_find _ (progresses s)) as [[i q]|] eqn:Hf; [|by intros [? ?]].
  intros _. cbn [set_progresses progresses].
  by rewrite (list_find_insert_same _ _ _ _ _ Hf).
Qed.

Lemma Progress_save_stored s p :
  Progress_findOne userId courseId s = Some p → Progress_save p s = s.
Proof.
  intros Hf. destruct (Progress_findOne_key _ _ Hf) as [Hu Hc].
  unfold Progress_findOne in Hf. unfold Progress_save. rewrite Hu, Hc.
  destruct (list_find _ (progresses s)) as [[i q]|] eqn:Hq; [|done].
  injection Hf as ->. apply list_find_Some in Hq as (Hi & _).
  rewrite list_insert_id by done. by destruct s.
Qed.

Lemma Progress_save_save s p1 p2 :
  pg_userId p1 = userId → pg_courseId p1 = courseId →
  pg_userId p2 = userId → pg_courseId p2 = courseId →
  Progress_save p2 (Progress_save p1 s) = Progress_save p2 s.
Proof.
  intros Hu1 Hc1 Hu2 Hc2. unfold Progress_save. rewrite Hu1, Hc1, Hu2, Hc2.
  destruct (list_find _ (progresses s)) as [[i q]|] eqn:Hf; [|by rewrite Hf].
  cbn [set_progresses progresses].
  rewrite (list_find_insert_same _ _ _ _ _ Hf) by done.
  cbn [set_progresses courses modules lectures progresses].
  by rewrite list_insert_insert_eq.
Qed.

Lemma Progress_findOne_save_other s p userId' courseId' :
  pg_userId p = userId → pg_courseId p = courseId →
  ¬ (userId' = userId ∧ courseId' = courseId) →
  Progress_findOne userId' courseId' (Progress_save p s)
  = Progress_findOne userId' courseId' s.
Proof.
  intros Hu Hc Hother. unfold Progress_findOne, Progress_save. rewrite Hu, Hc.
  destruct (list_find (same_key userId courseId) _) as [[i q]|] eqn:Hf; [|done].
  apply list_find_Some in Hf as (Hi & [Hqu Hqc] & _).
  cbn [set_progresses progresses].
  rewrite (list_find_insert_other _ _ _ q); [done|done|..];
    unfold same_key; intros [? ?]; apply Hother; split; congruence.
Qed.

Lemma Progress_findOne_initializeForCourse now s :
  Progress_findOne userId courseId (fst (initializeForCourse now userId courseId s))
  = Some (snd (initializeForCourse now userId courseId s)).
Proof.
  unfold Progress_findOne, initializeForCourse. cbn [fst snd progresses].
  destruct (list_find _ (progresses s)) as [[i q]|] eqn:Hf.
  - by rewrite (list_find_insert_same _ _ _ _ _ Hf).
  - rewrite (list_find_app_r _ _ _ Hf). cbn. by rewrite decide_True.
Qed.

Lemma Progress_findOne_initializeForCourse_other now s userId' courseId' :
  ¬ (userId' = userId ∧ courseId' = courseId) →
  Progress_findOne userId' courseId' (fst (initializeForCourse now userId courseId s))
  = Progress_findOne userId' courseId' s.
Proof.
  intros Hother. unfold Progress_findOne, initializeForCourse.
  cbn [fst snd progresses].
  destruct (list_find (same_key userId courseId) _) as [[i q]|] eqn:Hf.
  - apply list_find_Some in Hf as (Hi & [Hqu Hqc] & _).
    rewrite (list_find_insert_other _ _ _ q); [done|done|..];
      unfold same_key; cbn; intros [? ?]; apply Hother; split; congruence.
  - rewrite list_find_snoc_other; [done|].
    unfold same_key. cbn. intros [? ?]. apply Hother. by split.
Qed.
End progress_records.

Section progress_service.
Context (COURSE_NOT_FOUND : string).

(** X9: when the learner has a progress record and the lecture id is not
    in its snapshot, the service call throws the lecture-not-found error
    and the store is exactly as before. *)
Theorem ProgressService_update_unknown_lecture now userId courseId updateData s p :
  Progress_findOne userId courseId s = Some p →
  up_lectureId updateData ∉ lp_lectureId <$> flattened p →
  ProgressService_updateLectureProgress COURSE_NOT_FOUND now userId courseId updateData s
  = (s, Thrown "Lecture not found in progress").
Proof.
  intros Hp Habsent.
  unfold ProgressService_updateLectureProgress, find_or_initialize. rewrite Hp.
  by rewrite updateLectureProgress_absent.
Qed.

(** X10: when the learner has no record yet, the same failing call has
    already created one: the error is thrown, and the store now holds
    the freshly initialised record. *)
Theorem ProgressService_update_creates_record now userId courseId updateData s course :
  Progress_findOne userId courseId s = None →
  Course_findById courseId s = Some course →
  let fresh := initializeForCourse now userId courseId s in
  up_lectureId updateData ∉ lp_lectureId <$> flattened (snd fresh) →
  ProgressService_updateLectureProgress COURSE_NOT_FOUND now userId courseId updateData s
  = (fst fresh, Thrown "Lecture not found in progress")
  ∧ Progress_findOne userId courseId (fst fresh) = Some (snd fresh).
Proof.
  intros Hnone Hcourse fresh Habsent. split.
  - unfold ProgressService_updateLectureProgress, find_or_initialize,
      ProgressService_initializeProgress.
    rewrite Hnone, Hcourse. cbn zeta. fold fresh.
    by rewrite updateLectureProgress_absent.
  - apply Progress_findOne_initializeForCourse.
Qed.

(** X11: a service call that returns has persisted the document it
    returns; the course content and the records of other learners and
    courses are untouched. *)
Theorem ProgressService_update_persists now userId courseId updateData s s' progress :
  ProgressService_updateLectureProgress COURSE_NOT_FOUND now userId courseId updateData s
  = (s', Returned progress) →
  Progress_findOne userId courseId s' = Some progress
  ∧ courses s' = courses s ∧ modules s' = modules s ∧ lectures s' = lectures s
  ∧ ∀ userId' courseId',
      ¬ (userId' = userId ∧ courseId' = courseId) →
      Progress_findOne userId' courseId' s' = Progress_findOne userId' courseId' s.
Proof.
  unfold ProgressService_updateLectureProgress.
  destruct (find_or_initialize COURSE_NOT_FOUND now userId courseId s)
    as [s1 [p|msg]] eqn:Hfind; [|done].
  assert (Progress_findOne userId courseId s1 = Some p
          ∧ courses s1 = courses s ∧ modules s1 = modules s ∧ lectures s1 = lectures s
          ∧ ∀ userId' courseId',
              ¬ (userId' = userId ∧ courseId' = courseId) →
              Progress_findOne userId' courseId' s1
              = Progress_findOne userId' courseId' s)
    as (Hp & Hcs & Hms & Hls & Hother).
  { revert Hfind. unfold find_or_initialize, ProgressService_initializeProgress.
    destruct (Progress_findOne userId courseId s) as [q|] eqn:Hq.
    - by intros [= <- <-].
    - destruct (Course_findById courseId s); [|done]. intros [= <- <-].
      split_and!; try done.
      + apply Progress_findOne_initializeForCourse.
      + intros u' c' Hne. by apply Progress_findOne_initializeForCourse_other. }
  destruct (Progress_findOne_key _ _ _ _ Hp) as [Hu Hc].
  destruct (key_updateLectureProgress now (up_lectureId updateData)
              (up_watchTime updateData) (up_isCompleted updateData) p) as [Hu' Hc'].
  destruct (updateLectureProgress _ _ _ _ p) as [p' [[]|msg]]; [|done].
  cbn [fst] in Hu', Hc'. intros [= <- <-].
  split_and!.
  - apply Progress_findOne_save; [congruence|congruence|by rewrite Hp].
  - rewrite <- Hcs. unfold Progress_save. by destruct (list_find _ _) as [[? ?]|].
  - rewrite <- Hms. unfold Progress_save. by destruct (list_find _ _) as [[? ?]|].
  - rewrite <- Hls. unfold Progress_save. by destruct (list_find _ _) as [[? ?]|].
  - intros u' c' Hne. rewrite <- (Hother u' c' Hne).
    apply (Progress_findOne_save_other userId courseId); [congruence|congruence|done].
Qed.

Lemma apply_updates_cons now u us p :
  apply_updates now (u :: us) p
  = apply_updates now us
      (fst (updateLectureProgress now (up_lectureId u) (up_watchTime u)
              (up_isCompleted u) p)).
Proof. done. Qed.

Lemma apply_updates_key now updates : ∀ p,
  pg_userId (apply_updates now updates p) = pg_userId p
  ∧ pg_courseId (apply_updates now updates p) = pg_courseId p
  ∧ lp_lectureId <$> flattened (apply_updates now updates p)
    = lp_lectureId <$> flattened p.
Proof.
  induction updates as [|u us IH]; intros p; [done|].
  rewrite apply_updates_cons. destruct (IH (fst (updateLectureProgress now (up_lectureId u) (up_watchTime u)
                            (up_isCompleted u) p))) as (-> & -> & ->).
  destruct (key_updateLectureProgress now (up_lectureId u) (up_watchTime u)
              (up_isCompleted u) p) as [-> ->].
  by rewrite ids_updateLectureProgress.
Qed.

Lemma bulk_update_loop_prefix now ok : ∀ rest p s,
  Forall (λ u, up_lectureId u ∈ lp_lectureId <$> flattened p) ok →
  bulk_update_loop now (ok ++ rest) p (Progress_save p s)
  = bulk_update_loop now rest (apply_updates now ok p)
      (Progress_save (apply_updates now ok p) s).
Proof.
  induction ok as [|u ok IH]; intros rest p s Hok; [done|].
  apply Forall_cons in Hok as [Hu Hok]. rewrite apply_updates_cons.
  cbn [app bulk_update_loop].
  pose proof (updateLectureProgress_present now (up_lectureId u) (up_watchTime u)
                (up_isCompleted u) p Hu) as Hret.
  destruct (key_updateLectureProgress now (up_lectureId u) (up_watchTime u)
              (up_isCompleted u) p) as [Hku Hkc].
  pose proof (ids_updateLectureProgress now (up_lectureId u) (up_watchTime u)
                (up_isCompleted u) p) as Hids.
  destruct (updateLectureProgress now _ _ _ p) as [p1 [[]|msg]]; [|done].
  cbn [fst] in *.
  rewrite (Progress_save_save (pg_userId p) (pg_courseId p)) by done.
  apply IH. by rewrite Hids.
Qed.

(** X12: a bulk update whose lecture ids are all in the snapshot returns
    the document obtained by applying the updates one after the other,
    and that document is the stored record. *)
Theorem ProgressService_bulkUpdate_all now userId courseId updates s p :
  Progress_findOne userId courseId s = Some p →
  Forall (λ u, up_lectureId u ∈ lp_lectureId <$> flattened p) updates →
  ProgressService_bulkUpdateProgress COURSE_NOT_FOUND now userId courseId updates s
  = (Progress_save (apply_updates now updates p) s,
     Returned (apply_updates now updates p))
  ∧ Progress_findOne userId courseId (Progress_save (apply_updates now updates p) s)
    = Some (apply_updates now updates p).
Proof.
  intros Hp Hok. destruct (Progress_findOne_key _ _ _ _ Hp) as [Hu Hc].
  destruct (apply_updates_key now updates p) as (Hu' & Hc' & _). split.
  - unfold ProgressService_bulkUpdateProgress, find_or_initialize. rewrite Hp.
    rewrite <- (Progress_save_stored _ _ _ _ Hp) at 1.
    rewrite <- (app_nil_r updates) at 1.
    by rewrite bulk_update_loop_prefix.
  - apply Progress_findOne_save; [congruence|congruence|by rewrite Hp].
Qed.

(** X13: a bulk update is not atomic: when an update names a lecture id
    that the snapshot does not hold, the call throws, and the updates
    before it stay applied in the stored record. *)
Theorem ProgressService_bulkUpdate_partial now userId courseId ok bad rest s p :
  Progress_findOne userId courseId s = Some p →
  Forall (λ u, up_lectureId u ∈ lp_lectureId <$> flattened p) ok →
  up_lectureId bad ∉ lp_lectureId <$> flattened p →
  ProgressService_bulkUpdateProgress COURSE_NOT_FOUND now userId courseId
    (ok ++ bad :: rest) s
  = (Progress_save (apply_updates now ok p) s, Thrown "Lecture not found in progress")
  ∧ Progress_findOne userId courseId (Progress_save (apply_updates now ok p) s)
    = Some (apply_updates now ok p).
Proof.
  intros Hp Hok Hbad. destruct (Progress_findOne_key _ _ _ _ Hp) as [Hu Hc].
  destruct (apply_updates_key now ok p) as (Hu' & Hc' & Hids). split.
  - unfold ProgressService_bulkUpdateProgress, find_or_initialize. rewrite Hp.
    rewrite <- (Progress_save_stored _ _ _ _ Hp) at 1.
    rewrite bulk_update_loop_prefix by done. cbn [bulk_update_loop].
    rewrite updateLectureProgress_absent; [done|]. by rewrite Hids.
  - apply Progress_findOne_save; [congruence|congruence|by rewrite Hp].
Qed.

Lemma first_incomplete_fresh ls :
  Forall (λ b, b = false) (flags ls) →
  first_incomplete ls = lp_lectureId <$> head ls.
Proof.
  destruct ls as [|x ls]; [done|]. intros [Hx _]%Forall_cons.
  rewrite first_incomplete_cons. cbn in *. by rewrite Hx.
Qed.

(** X14: for a learner without a record, asking for the next unlocked
    lecture creates the record and returns the first lecture of the new
    snapshot, or [null] when the snapshot has no lecture; for a missing
    course it throws and stores nothing. *)
Theorem ProgressService_next_for_new_learner now userId courseId s :
  Progress_findOne userId courseId s = None →
  ProgressService_getNextUnlockedLecture COURSE_NOT_FOUND now userId courseId s
  = match Course_findById courseId s with
    | Some _ =>
        let fresh := initializeForCourse now userId courseId s in
        (fst fresh, Returned (lp_lectureId <$> head (flattened (snd fresh))))
    | None => (s, Thrown COURSE_NOT_FOUND)
    end.
Proof.
  intros Hnone.
  unfold ProgressService_getNextUnlockedLecture, find_or_initialize,
    ProgressService_initializeProgress.
  rewrite Hnone. destruct (Course_findById courseId s); [|done].
  cbn zeta. do 2 f_equal.
  unfold getNextUnlockedLecture, getNextUnlockedLecture_traced.
  rewrite (proj1 (next_in_modules_scan _)).
  apply first_incomplete_fresh, initializeForCourse_flags.
Qed.
End progress_service.

Lemma ProgressService_update_unknown_lecture_witness :
  ProgressService_updateLectureProgress "Course not found" 2000 "u1" "c1"
    (mark_completed "f0") learner_store
  = (learner_store, Thrown "Lecture not found in progress").
Proof.
  apply (ProgressService_update_unknown_lecture "Course not found" 2000 "u1" "c1"
           (mark_completed "f0") learner_store sample_progress).
  - vm_compute. reflexivity.
  - apply (bool_decide_unpack _). vm_compute. exact I.
Defined.

Lemma ProgressService_update_creates_record_witness :
  let fresh := initializeForCourse 2000 "u1" "c1" sample_store in
  ProgressService_updateLectureProgress "Course not found" 2000 "u1" "c1"
    (mark_completed "f0") sample_store
  = (fst fresh, Thrown "Lecture not found in progress")
  ∧ Progress_findOne "u1" "c1" (fst fresh) = Some (snd fresh).
Proof.
  eapply (ProgressService_update_creates_record "Course not found" 2000 "u1" "c1"
            (mark_completed "f0") sample_store).
  - vm_compute. reflexivity.
  - vm_compute. reflexivity.
  - apply (bool_decide_unpack _). vm_compute. exact I.
Defined.

Lemma ProgressService_update_persists_witness :
  let r := ProgressService_updateLectureProgress "Course not found" 2000 "u1" "c1"
             (mark_completed "a1") sample_store in
  Progress_findOne "u1" "c1" (fst r)
  = Some (fst (updateLectureProgress 2000 "a1" None (Some true)
                 (snd (initializeForCourse 2000 "u1" "c1" sample_store))))
  ∧ courses (fst r) = courses sample_store
  ∧ modules (fst r) = modules sample_store
  ∧ lectures (fst r) = lectures sample_store
  ∧ ∀ userId' courseId',
      ¬ (userId' = "u1" ∧ courseId' = "c1") →
      Progress_findOne userId' courseId' (fst r)
      = Progress_findOne userId' courseId' sample_store.
Proof.
  apply (ProgressService_update_persists "Course not found" 2000 "u1" "c1"
           (mark_completed "a1") sample_store).
  vm_compute. reflexivity.
Defined.

Lemma ProgressService_bulkUpdate_all_witness :
  ProgressService_bulkUpdateProgress "Course not found" 2000 "u1" "c1"
    [mark_completed "a1"; mark_completed "a2"] learner_store
  = (Progress_save
       (apply_updates 2000 [mark_completed "a1"; mark_completed "a2"] sample_progress)
       learner_store,
     Returned
       (apply_updates 2000 [mark_completed "a1"; mark_completed "a2"] sample_progress))
  ∧ Progress_findOne "u1" "c1"
      (Progress_save
         (apply_updates 2000 [mark_completed "a1"; mark_completed "a2"] sample_progress)
         learner_store)
    = Some (apply_updates 2000 [mark_completed "a1"; mark_completed "a2"]
              sample_progress).
Proof.
  apply (ProgressService_bulkUpdate_all "Course not found" 2000 "u1" "c1"
           [mark_completed "a1"; mark_completed "a2"] learner_store sample_progress).
  - vm_compute. reflexivity.
  - apply (bool_decide_unpack _). vm_compute. exact I.
Defined.

Lemma ProgressService_bulkUpdate_partial_witness :
  ProgressService_bulkUpdateProgress "Course not found" 2000 "u1" "c1"
    ([mark_completed "a1"] ++ mark_completed "f0" :: [mark_completed "a2"]) learner_store
  = (Progress_save (apply_updates 2000 [mark_completed "a1"] sample_progress)
       learner_store,
     Thrown "Lecture not found in progress")
  ∧ Progress_findOne "u1" "c1"
      (Progress_save (apply_updates 2000 [mark_completed "a1"] sample_progress)
         learner_store)
    = Some (apply_updates 2000 [mark_completed "a1"] sample_progress).
Proof.
  apply (ProgressService_bulkUpdate_partial "Course not found" 2000 "u1" "c1"
           [mark_completed "a1"] (mark_completed "f0") [mark_completed "a2"]
           learner_store sample_progress).
  - vm_compute. reflexivity.
  - apply (bool_decide_unpack _). vm_compute. exact I.
  - apply (bool_decide_unpack _). vm_compute. exact I.
Defined.

Lemma ProgressService_next_for_new_learner_witness :
  ProgressService_getNextUnlockedLecture "Course not found" 2000 "u1" "c1" sample_store
  = match Course_findById "c1" sample_store with
    | Some _ =>
        let fresh := initializeForCourse 2000 "u1" "c1" sample_store in
        (fst fresh, Returned (lp_lectureId <$> head (flattened (snd fresh))))
    | None => (sample_store, Thrown "Course not found")
    end.
Proof.
  apply (ProgressService_next_for_new_learner "Course not found" 2000 "u1" "c1"
           sample_store).
  vm_compute. reflexivity.
Defined.

(** * Properties of the module service *)

Lemma delete_ge_length {A} (l : list A) i : (length l ≤ i)%nat → delete i l = l.
Proof.
  revert i. induction l as [|x l IH]; intros i Hi; [by destruct i|].
  destruct i as [|i]; cbn in *; [lia|]. f_equal. apply IH. lia.
Qed.

Lemma Course_findById_id id s course :
  Course_findById id s = Some course → c_id course = id.
Proof.
  unfold Course_findById.
  destruct (list_find _ (courses s)) as [[i c]|] eqn:Hf; [|done].
  intros [= ->]. by apply list_find_Some in Hf as (_ & ? & _).
Qed.

Lemma Module_findById_elem id s module :
  Module_findById id s = Some module → module ∈ modules s ∧ m_id module = id.
Proof.
  unfold Module_findById.
  destruct (list_find _ (modules s)) as [[i m]|] eqn:Hf; [|done].
  intros [= ->]. apply list_find_Some in Hf as (Hi & ? & _).
  split; [|done]. by eapply list_elem_of_lookup_2.
Qed.

Lemma aggregate_group_stats matched :
  default (0, 0) (head (aggregate_group matched))
  = (Z.of_nat (length matched), foldl (λ total l, total + l_duration l) 0 matched).
Proof. by destruct matched. Qed.

Lemma calculateStats_consistent this s :
  course_stats_consistent (c_id this) (fst (calculateStats this s)).
Proof.
  intros course. unfold Course_findById, calculateStats, course_counts.
  rewrite aggregate_group_stats.
  destruct (list_find _ (courses s)) as [[i c]|] eqn:Hf; cbn [fst].
  - pose proof Hf as (_ & Hid & _)%list_find_Some.
    cbn [set_courses courses modules lectures].
    rewrite (list_find_insert_same _ _ _ _ _ Hf) by done.
    by intros [= <-].
  - by rewrite Hf.
Qed.

Section module_crud.
Context (COURSE_NOT_FOUND MODULE_NOT_FOUND : string).

(** X15: [createModule] never stores a second module under a number
    the course already uses: with an explicit number of at least 1 that
    a module of the course holds, the call throws and stores nothing;
    and whenever the call returns, the number was free and the new
    module, carrying that number, is appended to the collection. *)
Theorem createModule_number_taken newModuleId moduleData s moduleNumber :
  cm_moduleNumber moduleData = Some moduleNumber → 1 ≤ moduleNumber →
  let taken :=
    Exists (λ m, m_courseId m = cm_courseId moduleData
                 ∧ m_moduleNumber m = moduleNumber) (modules s) in
  (taken →
   ∃ msg, createModule COURSE_NOT_FOUND newModuleId moduleData s = (s, Thrown msg))
  ∧ (∀ module,
       snd (createModule COURSE_NOT_FOUND newModuleId moduleData s) = Returned module →
       ¬ taken
       ∧ m_id module = newModuleId
       ∧ m_courseId module = cm_courseId moduleData
       ∧ m_moduleNumber module = moduleNumber
       ∧ modules (fst (createModule COURSE_NOT_FOUND newModuleId moduleData s))
         = modules s ++ [module]
       ∧ lectures (fst (createModule COURSE_NOT_FOUND newModuleId moduleData s))
         = lectures s).
Proof.
  intros Hnumber Hnz taken. unfold createModule.
  destruct (Course_findById _ s) as [course|]; [|split; [by eexists|done]].
  unfold Module_save_new.
  destruct (Module_validate (new_Module newModuleId moduleData)) as [|e errors];
    [|split; [by eexists|done]].
  assert (Module_pre_save (new_Module newModuleId moduleData) s
          = new_Module newModuleId moduleData) as ->.
  { unfold Module_pre_save. cbn. rewrite Hnumber. cbn. by rewrite decide_False by lia. }
  cbn zeta. cbn [new_Module m_courseId m_moduleNumber]. rewrite Hnumber. cbn [default].
  assert (module_key_taken (length (modules s)) (cm_courseId moduleData)
            moduleNumber (modules s) ↔ taken) as Hiff.
  { unfold module_key_taken. by rewrite delete_ge_length. }
  case_decide as Hkey.
  - split; [by eexists|done].
  - split; [by rewrite <- Hiff|]. cbn [fst snd]. intros module [= <-].
    split_and!; [by rewrite <- Hiff|done|done|cbn; by rewrite Hnumber| |].
    + rewrite (proj1 (calculateStats_content _ _)).
      by rewrite (proj1 (Module_post_save_content _ _)).
    + rewrite (proj2 (calculateStats_content _ _)).
      by rewrite (proj2 (Module_post_save_content _ _)).
Qed.

Lemma delete_by_key {A} (key : A → string) (l : list A) i x :
  NoDup (key <$> l) → l !! i = Some x →
  delete i l = filter (λ y, key y ≠ key x) l.
Proof.
  revert i. induction l as [|z l IH]; intros i Hnd Hi; [done|].
  rewrite fmap_cons in Hnd. apply NoDup_cons in Hnd as [Hz Hnd].
  destruct i as [|i].
  - injection Hi as ->. change (delete 0%nat (x :: l)) with l.
    rewrite filter_cons_False by (by intros ?).
    symmetry. clear IH Hnd.
    induction l as [|y l IHl]; [done|].
    rewrite fmap_cons, not_elem_of_cons in Hz. destruct Hz as [Hne Hz].
    rewrite filter_cons_True by congruence. f_equal. by apply IHl.
  - change (delete (S i) (z :: l)) with (z :: delete i l).
    change ((z :: l) !! S i) with (l !! i) in Hi.
    rewrite filter_cons_True.
    + f_equal. by apply IH.
    + intros Heq. apply Hz. rewrite Heq. apply list_elem_of_fmap_2.
      by eapply list_elem_of_lookup_2.
Qed.

(** X16: deleting a module removes that module and every lecture that
    references it, keeps all other modules and lectures in stored order
    with their numbers, and leaves the id unknown afterwards; an unknown
    id throws and changes nothing. *)
Theorem deleteModule_cascade moduleId s :
  NoDup (m_id <$> modules s) →
  match Module_findById moduleId s with
  | Some module =>
      let s' := fst (deleteModule MODULE_NOT_FOUND moduleId s) in
      snd (deleteModule MODULE_NOT_FOUND moduleId s) = Returned true
      ∧ modules s' = filter (λ m, m_id m ≠ moduleId) (modules s)
      ∧ lectures s' = filter (λ l, l_moduleId l ≠ moduleId) (lectures s)
      ∧ Module_findById moduleId s' = None
  | None => deleteModule MODULE_NOT_FOUND moduleId s = (s, Thrown MODULE_NOT_FOUND)
  end.
Proof.
  intros Hnd. unfold deleteModule.
  destruct (Module_findById moduleId s) as [module|] eqn:Hfind; [|done].
  cbn zeta. cbn [fst snd]. split; [done|].
  assert (modules (Module_findByIdAndDelete moduleId (Lecture_deleteMany_module moduleId s))
          = filter (λ m, m_id m ≠ moduleId) (modules s)
          ∧ lectures (Module_findByIdAndDelete moduleId
                        (Lecture_deleteMany_module moduleId s))
            = filter (λ l, l_moduleId l ≠ moduleId) (lectures s)) as [Hms Hls].
  { unfold Module_findByIdAndDelete, Lecture_deleteMany_module, Module_findById in *.
    cbn [set_lectures modules].
    destruct (list_find _ (modules s)) as [[i m]|] eqn:Hf; [|done].
    apply list_find_Some in Hf as (Hi & <- & _). cbn. split; [|done].
    by apply (delete_by_key m_id). }
  set (s2 := Module_findByIdAndDelete _ _) in *.
  assert (modules (match Course_findById (m_courseId module) s2 with
                   | Some course => fst (calculateStats course s2)
                   | None => s2
                   end) = modules s2
          ∧ lectures (match Course_findById (m_courseId module) s2 with
                      | Some course => fst (calculateStats course s2)
                      | None => s2
                      end) = lectures s2) as [Hms3 Hls3].
  { destruct (Course_findById _ s2); [apply calculateStats_content|done]. }
  split_and!; [congruence|congruence|].
  unfold Module_findById. rewrite Hms3, Hms.
  destruct (list_find _ (filter _ _)) as [[j x]|] eqn:Hf; [|done].
  apply list_find_Some in Hf as (Hj & Hid & _).
  apply list_elem_of_lookup_2, list_elem_of_filter in Hj as [Hne _]. done.
Qed.

(** X17: when [createModule], [deleteModule] or [duplicateModule]
    returns, the stored counters of the course concerned equal the
    number of its active modules, the number of its active lectures and
    the sum of their durations. *)
Theorem course_stats_after_module_operations s :
  (∀ newModuleId moduleData module,
     snd (createModule COURSE_NOT_FOUND newModuleId moduleData s) = Returned module →
     course_stats_consistent (cm_courseId moduleData)
       (fst (createModule COURSE_NOT_FOUND newModuleId moduleData s)))
  ∧ (∀ moduleId module,
       Module_findById moduleId s = Some module →
       course_stats_consistent (m_courseId module)
         (fst (deleteModule MODULE_NOT_FOUND moduleId s)))
  ∧ (∀ newModuleId newLectureId moduleId originalModule duplicatedModule,
       Module_findById moduleId s = Some originalModule →
       snd (duplicateModule MODULE_NOT_FOUND newModuleId newLectureId moduleId s)
       = Returned duplicatedModule →
       course_stats_consistent (m_courseId originalModule)
         (fst (duplicateModule MODULE_NOT_FOUND newModuleId newLectureId moduleId s))).
Proof.
  split_and!.
  - intros newModuleId moduleData module. unfold createModule.
    destruct (Course_findById _ s) as [course|] eqn:Hc; [|done].
    destruct (Module_save_new _ s) as [s1 [m|msg]]; [|done].
    intros _. cbn [fst]. rewrite <- (Course_findById_id _ _ _ Hc).
    apply calculateStats_consistent.
  - intros moduleId module Hfind. unfold deleteModule. rewrite Hfind.
    cbn zeta. cbn [fst]. set (s2 := Module_findByIdAndDelete _ _).
    destruct (Course_findById _ s2) as [course|] eqn:Hc.
    + rewrite <- (Course_findById_id _ _ _ Hc). apply calculateStats_consistent.
    + intros course. by rewrite Hc.
  - intros newModuleId newLectureId moduleId originalModule duplicatedModule Hfind.
    unfold duplicateModule. rewrite Hfind.
    destruct (Module_save_new _ s) as [s1 [m|msg]]; [|done].
    destruct (duplicate_lectures _ _ _ _ s1) as [s2 [[]|msg]]; [|done].
    intros _. cbn [fst].
    destruct (Course_findById _ s2) as [course|] eqn:Hc.
    + rewrite <- (Course_findById_id _ _ _ Hc). apply calculateStats_consistent.
    + intros course. by rewrite Hc.
Qed.
End module_crud.

(** ** Witnesses for the module operations *)

Lemma createModule_number_taken_witness :
  let moduleData :=
    {| cm_title := "Module C"; cm_courseId := "c1"; cm_moduleNumber := Some 2 |} in
  ∃ msg, createModule "Course not found" "c" moduleData sample_store
         = (sample_store, Thrown msg).
Proof.
  intros moduleData.
  refine (proj1 (createModule_number_taken "Course not found" "c" moduleData
                   sample_store 2 _ _) _).
  - reflexivity.
  - lia.
  - apply (bool_decide_unpack _). vm_compute. exact I.
Defined.

(** Without a number the module is rejected by validation, before the
    pre-save hook could number it, and nothing is stored. *)
Example createModule_without_number :
  createModule "Course not found" "c"
    {| cm_title := "Module C"; cm_courseId := "c1"; cm_moduleNumber := None |}
    sample_store
  = (sample_store,
     Thrown "Module validation failed: moduleNumber: Module number is required").
Proof. vm_compute. reflexivity. Qed.

(** The number 0 passes the conflict check of [updateModule], which
    treats it as not given, and is rejected by the update validators. *)
Example updateModule_number_zero :
  ∃ msg,
    updateModule "Module not found" "b"
      {| um_title := None; um_moduleNumber := Some 0; um_isActive := None |}
      sample_store
    = (sample_store, Thrown msg).
Proof. eexists. vm_compute. reflexivity. Qed.

Lemma deleteModule_cascade_witness :
  let s' := fst (deleteModule "Module not found" "a" sample_store) in
  snd (deleteModule "Module not found" "a" sample_store) = Returned true
  ∧ modules s' = filter (λ m, m_id m ≠ "a") (modules sample_store)
  ∧ lectures s' = filter (λ l, l_moduleId l ≠ "a") (lectures sample_store)
  ∧ Module_findById "a" s' = None.
Proof.
  apply (deleteModule_cascade "Module not found" "a" sample_store).
  apply (bool_decide_unpack _). vm_compute. exact I.
Defined.

Lemma course_stats_after_module_operations_witness :
  course_stats_consistent "c1"
    (fst (createModule "Course not found" "c"
            {| cm_title := "Module C"; cm_courseId := "c1"; cm_moduleNumber := Some 3 |}
            sample_store))
  ∧ course_stats_consistent "c1" (fst (deleteModule "Module not found" "a" sample_store))
  ∧ course_stats_consistent "c1"
      (fst (duplicateModule "Module not found" "d" sample_lecture_id "c" gapped_store)).
Proof.
  destruct (course_stats_after_module_operations "Course not found" "Module not found"
              sample_store) as (Hcreate & Hdelete & _).
  destruct (course_stats_after_module_operations "Course not found" "Module not found"
              gapped_store) as (_ & _ & Hduplicate).
  split_and!.
  - eapply (Hcreate "c" {| cm_title := "Module C"; cm_courseId := "c1";
                           cm_moduleNumber := Some 3 |}).
    vm_compute. reflexivity.
  - apply (Hdelete "a" (sample_module "a" "Module A" 1)). vm_compute. reflexivity.
  - eapply (Hduplicate "d" sample_lecture_id "c" (sample_module "c" "Module C" 3)).
    + vm_compute. reflexivity.
    + vm_compute. reflexivity.
Defined.

(** * Properties of reordering *)

Lemma with_moduleNumber_same m : with_moduleNumber (m_moduleNumber m) m = m.
Proof. by destruct m. Qed.

Lemma elem_of_delete_other {A} (l : list A) i j x :
  l !! j = Some x → j ≠ i → x ∈ delete i l.
Proof.
  intros Hj Hne. destruct (decide (j < i)%nat) as [Hlt|Hge].
  - apply (list_elem_of_lookup_2 _ j). by rewrite list_lookup_delete_lt.
  - destruct j as [|j]; [lia|].
    apply (list_elem_of_lookup_2 _ j). rewrite list_lookup_delete_ge by lia. done.
Qed.

Lemma Module_findByIdAndUpdate_result id n s s' r :
  Module_findByIdAndUpdate id n s = (s', Returned r) →
  m_id <$> modules s' = m_id <$> modules s
  ∧ (id ∈ m_id <$> modules s →
     ∃ m, r = Some m ∧ m_id m = id ∧ m_moduleNumber m = n).
Proof.
  unfold Module_findByIdAndUpdate.
  destruct (list_find _ (modules s)) as [[i m]|] eqn:Hf.
  - case_decide; [done|]. intros [= <- <-].
    apply list_find_Some in Hf as (Hi & Hid & _). cbn. split.
    + rewrite list_fmap_insert. cbn. apply list_insert_id.
      by rewrite list_lookup_fmap, Hi.
    + intros _. by eexists.
  - intros [= <- <-]. split; [done|].
    intros (m & -> & Hm)%list_elem_of_fmap.
    apply list_find_None in Hf. rewrite Forall_forall in Hf. by destruct (Hf m Hm).
Qed.

Lemma reorder_loop_result moduleIds : ∀ k updatedModules s s' result,
  Forall (λ id, id ∈ m_id <$> modules s) moduleIds →
  reorder_loop moduleIds k updatedModules s = (s', Returned result) →
  m_id <$> result = (m_id <$> updatedModules) ++ moduleIds
  ∧ m_moduleNumber <$> result
    = (m_moduleNumber <$> updatedModules)
      ++ seqZ (Z.of_nat k + 1) (Z.of_nat (length moduleIds)).
Proof.
  induction moduleIds as [|id rest IH]; intros k updatedModules s s' result Hall Hloop.
  - cbn in Hloop. injection Hloop as <- <-. cbn. by rewrite !app_nil_r.
  - cbn [reorder_loop] in Hloop. apply Forall_cons in Hall as [Hid Hall].
    destruct (Module_findByIdAndUpdate id (Z.of_nat k + 1) s) as [s1 [r|msg]] eqn:Hupd;
      [|done].
    apply Module_findByIdAndUpdate_result in Hupd as [Hids Hr].
    destruct (Hr Hid) as (m & -> & Hm & Hn).
    apply IH in Hloop as [-> ->]; [|by rewrite Hids].
    rewrite !fmap_app. cbn [fmap list_fmap]. rewrite Hm, Hn, <- !app_assoc. cbn [app].
    split; [done|]. f_equal.
    rewrite (seqZ_cons (Z.of_nat k + 1)) by (cbn [length]; lia).
    do 2 f_equal; cbn [length]; lia.
Qed.

Section reorder_result.
Context (COURSE_NOT_FOUND : string).

(** X18: when [reorderModules] returns, the returned list holds the
    modules in the requested order, numbered 1, 2, ... in that order. *)
Theorem reorderModules_result courseId moduleIds s result :
  NoDup (m_id <$> modules s) →
  snd (reorderModules COURSE_NOT_FOUND courseId moduleIds s) = Returned result →
  m_id <$> result = moduleIds
  ∧ m_moduleNumber <$> result = seqZ 1 (Z.of_nat (length moduleIds)).
Proof.
  intros Hnd. unfold reorderModules.
  destruct (Course_findById courseId s) as [course|]; [|done].
  cbn zeta. case_decide as Hlen; [done|].
  apply reorder_check in Hlen as [_ Hin]; [|done].
  destruct (reorder_loop moduleIds 0 [] s) as [s' [r|msg]] eqn:Hloop; [|done].
  intros [= ->]. apply reorder_loop_result in Hloop; [done|].
  apply Forall_forall. intros id Hid.
  destruct (Hin id Hid) as (m & Hm & <- & _). by apply list_elem_of_fmap_2.
Qed.

Lemma lookup_id_unique (ms : list IModule) i j a b :
  NoDup (m_id <$> ms) → ms !! i = Some a → ms !! j = Some b → m_id a = m_id b → i = j.
Proof.
  intros Hnd Hi Hj Hid. apply (NoDup_lookup (m_id <$> ms) i j (m_id a)); [done|..].
  - by rewrite list_lookup_fmap, Hi.
  - by rewrite list_lookup_fmap, Hj, Hid.
Qed.

Lemma reorder_loop_fixed courseId moduleIds : ∀ k updatedModules s s' result,
  NoDup (m_id <$> modules s) →
  Forall (λ id, ∃ m, m ∈ modules s ∧ m_id m = id ∧ m_courseId m = courseId) moduleIds →
  (∀ j, Z.of_nat k < j ≤ Z.of_nat k + Z.of_nat (length moduleIds) →
        ∃ m, m ∈ modules s ∧ m_courseId m = courseId ∧ m_moduleNumber m = j) →
  reorder_loop moduleIds k updatedModules s = (s', Returned result) →
  s' = s ∧ Forall (λ m, m ∈ updatedModules ∨ m ∈ modules s) result.
Proof.
  induction moduleIds as [|id rest IH];
    intros k updatedModules s s' result Hnd Hall Hheld Hloop.
  - cbn in Hloop. injection Hloop as <- <-. split; [done|].
    apply Forall_forall. by left.
  - cbn [reorder_loop] in Hloop. apply Forall_cons in Hall as [Hid Hall].
    destruct Hid as (m0 & [j Hj]%list_elem_of_lookup_1 & Hid0 & Hc0).
    unfold Module_findByIdAndUpdate in Hloop.
    destruct (list_find _ (modules s)) as [[i m]|] eqn:Hf.
    + apply list_find_Some in Hf as (Hi & Hm & _).
      case_decide as Htaken; [done|].
      assert (j = i) as -> by (eapply lookup_id_unique; [done..|congruence]).
      assert (m0 = m) as -> by congruence.
      assert (m_moduleNumber m = Z.of_nat k + 1) as Hn.
      { destruct (Hheld (Z.of_nat k + 1))
          as (m1 & [j1 Hj1]%list_elem_of_lookup_1 & Hc1 & Hn1); [cbn [length]; lia|].
        destruct (decide (j1 = i)) as [->|Hne]; [congruence|].
        destruct Htaken. apply Exists_exists. exists m1. split; [|by rewrite Hc1].
        by eapply elem_of_delete_other. }
      rewrite <- Hn, with_moduleNumber_same, list_insert_id, set_modules_same in Hloop
        by done.
      apply IH in Hloop as [-> Hres]; [|done|done|].
      * split; [done|]. eapply Forall_impl; [exact Hres|].
        intros x [[Hx| ->%list_elem_of_singleton]%elem_of_app|Hx]; [by left|right|by right].
        by eapply list_elem_of_lookup_2.
      * intros j' Hj'. apply Hheld. cbn [length]. lia.
    + apply list_find_None in Hf. rewrite Forall_forall in Hf.
      destruct (Hf m0); [by eapply list_elem_of_lookup_2|done].
Qed.

(** X19: on a course whose modules are numbered 1, 2, ..., n without a
    gap, [reorderModules] cannot change the order: whenever it returns,
    the store is exactly as before and the returned modules are stored
    modules that already carried the numbers 1, 2, ... in the requested
    order. *)
Theorem reorderModules_gapless_course_fixed courseId moduleIds s result :
  NoDup (m_id <$> modules s) →
  course_module_numbers courseId s
  ≡ₚ seqZ 1 (Z.of_nat (length (course_module_numbers courseId s))) →
  snd (reorderModules COURSE_NOT_FOUND courseId moduleIds s) = Returned result →
  fst (reorderModules COURSE_NOT_FOUND courseId moduleIds s) = s
  ∧ Forall (λ m, m ∈ modules s) result
  ∧ m_id <$> result = moduleIds
  ∧ m_moduleNumber <$> result = seqZ 1 (Z.of_nat (length moduleIds)).
Proof.
  intros Hnd Hgapless. unfold reorderModules.
  destruct (Course_findById courseId s) as [course|]; [|done].
  cbn zeta. case_decide as Hlen; [done|].
  pose proof Hlen as Hlen'.
  apply reorder_check in Hlen as [_ Hin]; [|done].
  destruct (reorder_loop moduleIds 0 [] s) as [s' [r|msg]] eqn:Hloop; [|done].
  intros [= ->]. cbn [fst].
  pose proof Hloop as Hshape. apply reorder_loop_result in Hshape.
  2:{ apply Forall_forall. intros id Hid.
      destruct (Hin id Hid) as (m & Hm & <- & _). by apply list_elem_of_fmap_2. }
  apply (reorder_loop_fixed courseId) in Hloop as [-> Hres]; [|done|..].
  - split_and!; [done| |apply Hshape|apply Hshape].
    eapply Forall_impl; [exact Hres|]. intros m [Hm|Hm]; [|done].
    by apply elem_of_nil in Hm.
  - apply Forall_forall. intros id Hid. by apply Hin.
  - intros j Hj.
    assert (j ∈ course_module_numbers courseId s) as Hheld.
    { rewrite Hgapless. apply elem_of_seqZ. split; [lia|].
      unfold course_module_numbers. rewrite length_fmap.
      rewrite <- Hlen' in Hj. rewrite <- list_filter_filter in Hj.
      pose proof (length_filter (λ m, m_id m ∈ moduleIds)
                    (filter (λ m, m_courseId m = courseId) (modules s))). lia. }
    unfold course_module_numbers in Hheld.
    apply list_elem_of_fmap in Hheld as (m & -> & [Hc Hm]%list_elem_of_filter).
    by exists m.
Qed.
End reorder_result.

Lemma reorderModules_result_witness :
  let result := [ sample_module "a" "Module A" 1; sample_module "c" "Module C" 2 ] in
  m_id <$> result = ["a"; "c"]
  ∧ m_moduleNumber <$> result = seqZ 1 (Z.of_nat (length ["a"; "c"])).
Proof.
  apply (reorderModules_result "Course not found" "c1" ["a"; "c"] gapped_store).
  - apply (bool_decide_unpack _). vm_compute. exact I.
  - vm_compute. reflexivity.
Defined.

Lemma reorderModules_gapless_course_fixed_witness :
  fst (reorderModules "Course not found" "c1" ["a"; "b"] sample_store) = sample_store
  ∧ Forall (λ m, m ∈ modules sample_store) (modules sample_store)
  ∧ m_id <$> modules sample_store = ["a"; "b"]
  ∧ m_moduleNumber <$> modules sample_store = seqZ 1 (Z.of_nat (length ["a"; "b"])).
Proof.
  apply (reorderModules_gapless_course_fixed "Course not found" "c1" ["a"; "b"]
           sample_store).
  - apply (bool_decide_unpack _). vm_compute. exact I.
  - vm_compute. reflexivity.
  - vm_compute. reflexivity.
Defined.

(** * Properties of [updateModule] *)

Lemma length_filter_insert_drop {A} (P : A → Prop) `{∀ x, Decision (P x)}
    (l : list A) i x y :
  l !! i = Some x → P x → ¬ P y →
  length (filter P l) = S (length (filter P (<[i := y]> l))).
Proof.
  revert i. induction l as [|z l IH]; intros i Hi Hx Hy; [done|].
  destruct i as [|i].
  - injection Hi as ->. change (<[0%nat := y]> (x :: l)) with (y :: l).
    by rewrite filter_cons_True, filter_cons_False.
  - change (<[S i := y]> (z :: l)) with (z :: <[i := y]> l).
    change ((z :: l) !! S i) with (l !! i) in Hi.
    rewrite !(filter_cons _ z). case_decide; cbn [length]; by rewrite (IH i).
Qed.

Lemma Module_findById_find id s module :
  Module_findById id s = Some module →
  ∃ i, list_find (λ m, m_id m = id) (modules s) = Some (i, module).
Proof.
  unfold Module_findById. destruct (list_find _ (modules s)) as [[i m]|]; [|done].
  intros [= ->]. by exists i.
Qed.

Section update_module.
Context (MODULE_NOT_FOUND : string).

(** X20: on a store with unique ids and unique module numbers per
    course, an update that carries no title and a number of at least 1
    (if any) throws the service's own conflict error, storing nothing,
    exactly when another module of the course holds the number;
    otherwise it returns the updated module and changes that module
    only.  The duplicate-key error of the index is never reached. *)
Theorem updateModule_number_check moduleId updateData s module :
  NoDup (m_id <$> modules s) → unique_module_numbers s →
  Module_findById moduleId s = Some module →
  um_title updateData = None →
  (∀ n, um_moduleNumber updateData = Some n → 1 ≤ n) →
  let taken :=
    Exists (λ m, m_id m ≠ moduleId ∧ m_courseId m = m_courseId module
                 ∧ um_moduleNumber updateData = Some (m_moduleNumber m)) (modules s) in
  (taken →
   updateModule MODULE_NOT_FOUND moduleId updateData s
   = (s, Thrown "Module number already exists in this course"))
  ∧ (¬ taken →
     updateModule MODULE_NOT_FOUND moduleId updateData s
     = (set_modules
          ((λ m, if decide (m_id m = moduleId)
                 then with_module_update updateData m else m) <$> modules s) s,
        Returned (Some (with_module_update updateData module)))).
Proof.
  intros Hnd Hunique Hfind Htitle Hmin taken.
  assert (Module_update_validate updateData = []) as Hvalid.
  { unfold Module_update_validate, min_1. rewrite Htitle.
    destruct (um_moduleNumber updateData) as [n|]; [|done].
    specialize (Hmin n eq_refl). by rewrite decide_False by lia. }
  destruct (Module_findById_find _ _ _ Hfind) as [i Hf].
  pose proof Hf as (Hi & Hid & _)%list_find_Some.
  assert (∀ j x, modules s !! j = Some x → j ≠ i →
            m_courseId x = m_courseId module →
            m_moduleNumber x ≠ m_moduleNumber module) as Hother.
  { intros j x Hj Hne Hc Hn. apply Hne.
    apply (NoDup_lookup _ j i (m_courseId x, m_moduleNumber x) Hunique).
    - by rewrite list_lookup_fmap, Hj.
    - by rewrite list_lookup_fmap, Hi, Hc, Hn. }
  assert (∀ j x, modules s !! j = Some x → (j ≠ i ↔ m_id x ≠ moduleId)) as Hids.
  { intros j x Hj. split.
    - intros Hne Hx. apply Hne. eapply lookup_id_unique; [done..|congruence].
    - intros Hx ->. congruence. }
  unfold updateModule. rewrite Hfind. split; intros Htaken.
  - rewrite decide_True; [done|].
    apply Exists_exists in Htaken as (x & [j Hj]%list_elem_of_lookup_1 & Hx & Hc & Hn).
    unfold module_number_conflict. rewrite Hn. split_and!.
    + specialize (Hmin _ Hn). lia.
    + apply (Hother j x); [done| |done]. by apply (Hids j x).
    + apply Exists_exists. exists x. split; [by eapply list_elem_of_lookup_2|done].
  - rewrite decide_False.
    + unfold Module_findByIdAndUpdate_data. rewrite Hvalid, Hf. cbn zeta.
      rewrite decide_False.
      * f_equal. f_equal. rewrite <- Hid. by apply insert_by_id.
      * unfold module_key_taken. intros (x & Hx & Hc & Hn)%Exists_exists.
        cbn [with_module_update m_courseId m_moduleNumber] in Hc, Hn.
        rewrite delete_take_drop in Hx.
        assert (∃ j, modules s !! j = Some x ∧ j ≠ i) as (j & Hj & Hne).
        { apply elem_of_app in Hx as [[j Hj]%list_elem_of_lookup_1
                                     |[j Hj]%list_elem_of_lookup_1].
          - pose proof (lookup_lt_Some _ _ _ Hj) as Hlt. rewrite length_take in Hlt.
            exists j. rewrite lookup_take_lt in Hj by lia. split; [done|lia].
          - exists (S i + j)%nat. rewrite lookup_drop in Hj. split; [done|lia]. }
        destruct (um_moduleNumber updateData) as [n|] eqn:Hnum; cbn [default] in Hn.
        -- apply Htaken, Exists_exists. exists x.
           split; [by eapply list_elem_of_lookup_2|].
           split_and!; [by apply (Hids j x)|done|by rewrite Hn].
        -- by apply (Hother j x).
    + unfold module_number_conflict.
      destruct (um_moduleNumber updateData) as [n|] eqn:Hnum; [|by intros []].
      intros (_ & _ & (x & Hx & Hc & Hn & Hne)%Exists_exists).
      apply Htaken, Exists_exists. exists x. split; [done|]. by rewrite Hn.
Qed.

(** X21: [updateModule] never recomputes the counters of the course.
    When it deactivates an active module of a course whose counters were
    right, the stored [totalModules] is afterwards one more than the
    number of active modules. *)
Theorem updateModule_deactivate_stale moduleId updateData s module course updated :
  Module_findById moduleId s = Some module →
  m_isActive module = true → um_isActive updateData = Some false →
  Course_findById (m_courseId module) s = Some course →
  course_stats_consistent (m_courseId module) s →
  snd (updateModule MODULE_NOT_FOUND moduleId updateData s) = Returned updated →
  let s' := fst (updateModule MODULE_NOT_FOUND moduleId updateData s) in
  Course_findById (m_courseId module) s' = Some course
  ∧ c_totalModules course = fst (fst (course_counts (m_courseId module) s')) + 1
  ∧ ¬ course_stats_consistent (m_courseId module) s'.
Proof.
  intros Hfind Hactive Hoff Hcourse Hcons.
  destruct (Module_findById_find _ _ _ Hfind) as [i Hf].
  pose proof Hf as (Hi & _)%list_find_Some.
  unfold updateModule. rewrite Hfind. case_decide; [done|].
  unfold Module_findByIdAndUpdate_data.
  destruct (Module_update_validate updateData) as [|e errors]; [|done].
  rewrite Hf. cbn zeta.
  case_decide; [done|]. intros _. cbn [fst].
  set (s' := set_modules _ s).
  assert (Course_findById (m_courseId module) s' = Some course) as Hcourse' by done.
  assert (c_totalModules course
          = fst (fst (course_counts (m_courseId module) s')) + 1) as Hstale.
  { specialize (Hcons course Hcourse). injection Hcons as -> _ _.
    unfold course_counts. cbn [fst]. subst s'. cbn [set_modules modules].
    rewrite (length_filter_insert_drop _ (modules s) i module
               (with_module_update updateData module)); [lia|done|done|].
    cbn. rewrite Hoff. cbn. by intros [_ ?]. }
  split_and!; [done|done|].
  intros Hcons'. specialize (Hcons' course Hcourse').
  rewrite Hstale in Hcons'. destruct (course_counts _ s') as [[a b] c].
  cbn [fst] in Hcons'. injection Hcons' as Ha _ _. lia.
Qed.
End update_module.

Lemma updateModule_number_check_witness :
  updateModule "Module not found" "b"
    {| um_title := None; um_moduleNumber := Some 1; um_isActive := None |} sample_store
  = (sample_store, Thrown "Module number already exists in this course").
Proof.
  refine (proj1 (updateModule_number_check "Module not found" "b"
                   {| um_title := None; um_moduleNumber := Some 1; um_isActive := None |}
                   sample_store (sample_module "b" "Module B" 2) _ _ _ _ _) _).
  - apply (bool_decide_unpack _). vm_compute. exact I.
  - apply (bool_decide_unpack _). vm_compute. exact I.
  - vm_compute. reflexivity.
  - reflexivity.
  - intros n [= <-]. lia.
  - apply (bool_decide_unpack _). vm_compute. exact I.
Defined.

Lemma updateModule_deactivate_stale_witness :
  let updateData :=
    {| um_title := None; um_moduleNumber := None; um_isActive := Some false |} in
  let s' := fst (updateModule "Module not found" "b" updateData counted_store) in
  ∃ course,
    Course_findById "c1" s' = Some course
    ∧ c_totalModules course = fst (fst (course_counts "c1" s')) + 1
    ∧ ¬ course_stats_consistent "c1" s'.
Proof.
  intros updateData s'. eexists.
  eapply (updateModule_deactivate_stale "Module not found" "b" updateData counted_store
            (sample_module "b" "Module B" 2)).
  - vm_compute. reflexivity.
  - reflexivity.
  - reflexivity.
  - vm_compute. reflexivity.
  - intros course. vm_compute. by intros [= <-].
  - vm_compute. reflexivity.
Defined.

(** * The snapshot of [initializeForCourse] and [resetProgress] *)

Lemma elem_of_concat {A} (x : A) (ls : list (list A)) :
  x ∈ concat ls ↔ ∃ l, x ∈ l ∧ l ∈ ls.
Proof.
  induction ls as [|l0 ls IH]; cbn [concat].
  - split; [by intros ?%elem_of_nil|]. by intros (l & _ & ?%elem_of_nil).
  - rewrite elem_of_app, IH. split.
    + intros [Hx|(l & Hx & Hl)]; [exists l0|exists l]; (split; [done|]);
        [apply list_elem_of_here|by apply list_elem_of_further].
    + intros (l & Hx & [->|Hl]%elem_of_cons); [by left|right; by exists l].
Qed.

Lemma initializeForCourse_tracks now userId courseId s lectureId :
  lectureId ∈ lp_lectureId <$> flattened (snd (initializeForCourse now userId courseId s))
  ↔ ∃ l m, l ∈ lectures s ∧ m ∈ modules s
           ∧ l_id l = lectureId
           ∧ l_courseId l = courseId ∧ l_isActive l = true
           ∧ l_moduleId l = m_id m
           ∧ m_courseId m = courseId ∧ m_isActive m = true.
Proof.
  unfold initializeForCourse, flattened. cbn [snd pg_modules].
  unfold active_modules_sorted, active_lectures_sorted.
  set (lectures_ := merge_sort by_lectureNumber _).
  set (modules_ := merge_sort by_moduleNumber _).
  assert (∀ l, l ∈ lectures_
               ↔ (l_courseId l = courseId ∧ l_isActive l = true) ∧ l ∈ lectures s)
    as Hlectures.
  { intros l. unfold lectures_. by rewrite merge_sort_Permutation, list_elem_of_filter. }
  assert (∀ m, m ∈ modules_
               ↔ (m_courseId m = courseId ∧ m_isActive m = true) ∧ m ∈ modules s)
    as Hmodules.
  { intros m. unfold modules_. by rewrite merge_sort_Permutation, list_elem_of_filter. }
  split.
  - intros (lp & -> & Hlp)%list_elem_of_fmap.
    apply elem_of_concat in Hlp as (lps & Hlp & Hlps).
    apply list_elem_of_fmap in Hlps as (mp & -> & Hmp).
    apply list_elem_of_fmap in Hmp as (m & -> & Hm).
    cbn [fresh_module_progress mp_lectures] in Hlp.
    apply list_elem_of_fmap in Hlp as (l & -> & [Hmod Hl]%list_elem_of_filter).
    apply Hlectures in Hl as [[Hc Ha] Hl]. apply Hmodules in Hm as [[Hmc Hma] Hm].
    by exists l, m.
  - intros (l & m & Hl & Hm & <- & Hc & Ha & Hmod & Hmc & Hma).
    apply (list_elem_of_fmap_2 lp_lectureId _ (fresh_lecture_progress l)).
    apply elem_of_concat.
    exists (mp_lectures (fresh_module_progress lectures_ m)). split.
    + cbn [fresh_module_progress mp_lectures]. apply list_elem_of_fmap_2.
      apply list_elem_of_filter. split; [done|]. by apply Hlectures.
    + do 2 apply list_elem_of_fmap_2. by apply Hmodules.
Qed.

(** X22: a fresh snapshot tracks exactly the active lectures of the
    course that reference an active module of the course; a lecture that
    is inactive, or whose module is inactive, missing or of another
    course, is not tracked. *)
Theorem initializeForCourse_snapshot now userId courseId s lectureId :
  lectureId ∈ lp_lectureId <$> flattened (snd (initializeForCourse now userId courseId s))
  ↔ ∃ l m, l ∈ lectures s ∧ m ∈ modules s
           ∧ l_id l = lectureId
           ∧ l_courseId l = courseId ∧ l_isActive l = true
           ∧ l_moduleId l = m_id m
           ∧ m_courseId m = courseId ∧ m_isActive m = true.
Proof. apply initializeForCourse_tracks. Qed.

Lemma list_find_delete_other {A} (P : A → Prop) `{∀ x, Decision (P x)}
    (l : list A) i x :
  l !! i = Some x → ¬ P x →
  snd <$> list_find P (delete i l) = snd <$> list_find P l.
Proof.
  revert i. induction l as [|y l IH]; intros i Hi Hx; [done|].
  destruct i as [|i].
  - injection Hi as ->. change (delete 0%nat (x :: l)) with l.
    cbn [list_find]. rewrite decide_False by done.
    by destruct (list_find P l) as [[j z]|].
  - change (delete (S i) (y :: l)) with (y :: delete i l).
    change ((y :: l) !! S i) with (l !! i) in Hi.
    cbn [list_find]. case_decide; [done|].
    specialize (IH i Hi Hx).
    destruct (list_find P (delete i l)) as [[j z]|],
             (list_find P l) as [[j' z']|]; cbn in *; congruence.
Qed.

Lemma Progress_findOneAndDelete_gone userId courseId s :
  NoDup ((λ p, (pg_userId p, pg_courseId p)) <$> progresses s) →
  Progress_findOne userId courseId (Progress_findOneAndDelete userId courseId s) = None.
Proof.
  intros Hnd. unfold Progress_findOne, Progress_findOneAndDelete.
  destruct (list_find _ (progresses s)) as [[i p]|] eqn:Hf; [|by rewrite Hf].
  cbn [set_progresses progresses].
  apply list_find_Some in Hf as (Hi & [Hu Hc] & _).
  destruct (list_find _ (delete i (progresses s))) as [[j q]|] eqn:Hg; [|done].
  apply list_find_Some in Hg as (Hj & [Hqu Hqc] & _). exfalso.
  assert (∃ j', progresses s !! j' = Some q ∧ j' ≠ i) as (j' & Hj' & Hne).
  { destruct (decide (j < i)%nat).
    - exists j. rewrite list_lookup_delete_lt in Hj by done. split; [done|lia].
    - exists (S j). rewrite list_lookup_delete_ge in Hj by lia. split; [done|lia]. }
  apply Hne. apply (NoDup_lookup _ j' i (userId, courseId) Hnd).
  - by rewrite list_lookup_fmap, Hj', <- Hqu, <- Hqc.
  - by rewrite list_lookup_fmap, Hi, <- Hu, <- Hc.
Qed.

Lemma Progress_findOneAndDelete_other userId courseId userId' courseId' s :
  ¬ (userId' = userId ∧ courseId' = courseId) →
  Progress_findOne userId' courseId' (Progress_findOneAndDelete userId courseId s)
  = Progress_findOne userId' courseId' s.
Proof.
  intros Hne. unfold Progress_findOne, Progress_findOneAndDelete.
  destruct (list_find (same_key userId courseId) (progresses s)) as [[i p]|] eqn:Hf;
    [|done].
  cbn [set_progresses progresses].
  apply list_find_Some in Hf as (Hi & [Hu Hc] & _).
  apply (list_find_delete_other _ _ i p Hi).
  intros [Hu' Hc']. apply Hne. split; congruence.
Qed.

Section reset_progress.
Context (COURSE_NOT_FOUND : string).

(** X23: [resetProgress] deletes the record before it looks for the
    course.  For a known course the learner ends with a fresh record: no
    completed lecture, no completion time, the snapshot taken from the
    current content.  For an unknown course the call throws and the
    record is gone all the same.  Records of other learners and courses
    are untouched either way. *)
Theorem ProgressService_resetProgress_effect now userId courseId s :
  NoDup ((λ p, (pg_userId p, pg_courseId p)) <$> progresses s) →
  let r := ProgressService_resetProgress COURSE_NOT_FOUND now userId courseId s in
  match Course_findById courseId s with
  | Some _ =>
      ∃ p, snd r = Returned p
           ∧ Progress_findOne userId courseId (fst r) = Some p
           ∧ pg_completedAt p = None
           ∧ pg_completedLectures p = 0
           ∧ pg_progressPercentage p = 0
           ∧ Forall (λ l, lp_isCompleted l = false) (flattened p)
           ∧ pg_modules p = pg_modules (snd (initializeForCourse now userId courseId s))
  | None =>
      snd r = Thrown COURSE_NOT_FOUND
      ∧ Progress_findOne userId courseId (fst r) = None
  end
  ∧ ∀ userId' courseId', ¬ (userId' = userId ∧ courseId' = courseId) →
      Progress_findOne userId' courseId' (fst r) = Progress_findOne userId' courseId' s.
Proof.
  intros Hnd r. subst r.
  unfold ProgressService_resetProgress, ProgressService_initializeProgress.
  set (s0 := Progress_findOneAndDelete userId courseId s).
  assert (Course_findById courseId s0 = Course_findById courseId s) as ->.
  { unfold s0, Progress_findOneAndDelete, Course_findById.
    by destruct (list_find _ (progresses s)) as [[i p]|]. }
  pose proof (Progress_findOneAndDelete_gone userId courseId s Hnd) as Hgone.
  fold s0 in Hgone.
  destruct (Course_findById courseId s) as [course|]; cbn [fst snd].
  - split.
    + eexists. split; [done|]. split; [apply Progress_findOne_initializeForCourse|].
      unfold initializeForCourse. cbn [snd pg_completedAt pg_completedLectures
        pg_progressPercentage pg_modules].
      split_and!; [|done|done| |].
      * unfold Progress_findOne in Hgone.
        by destruct (list_find _ (progresses s0)) as [[i p]|].
      * unfold flattened. cbn [pg_modules]. apply Forall_forall.
        intros lp (lps & Hlp & (mp & -> & (m & -> & _)%list_elem_of_fmap)
                     %list_elem_of_fmap)%elem_of_concat.
        cbn [fresh_module_progress mp_lectures] in Hlp.
        by apply list_elem_of_fmap in Hlp as (l & -> & _).
      * unfold active_modules_sorted, active_lectures_sorted, s0, Progress_findOneAndDelete.
        by destruct (list_find _ (progresses s)) as [[i p]|].
    + intros userId' courseId' Hne.
      rewrite Progress_findOne_initializeForCourse_other by done.
      by apply Progress_findOneAndDelete_other.
  - split; [done|]. intros userId' courseId' Hne.
    by apply Progress_findOneAndDelete_other.
Qed.
End reset_progress.

Lemma ProgressService_resetProgress_effect_witness :
  let r := ProgressService_resetProgress "Course not found" 3000 "u1" "c1" learner_store in
  (∃ p, snd r = Returned p
        ∧ Progress_findOne "u1" "c1" (fst r) = Some p
        ∧ pg_completedAt p = None
        ∧ pg_completedLectures p = 0
        ∧ pg_progressPercentage p = 0
        ∧ Forall (λ l, lp_isCompleted l = false) (flattened p)
        ∧ pg_modules p = pg_modules (snd (initializeForCourse 3000 "u1" "c1" learner_store)))
  ∧ ∀ userId' courseId', ¬ (userId' = "u1" ∧ courseId' = "c1") →
      Progress_findOne userId' courseId' (fst r)
      = Progress_findOne userId' courseId' learner_store.
Proof.
  apply (ProgressService_resetProgress_effect "Course not found" 3000 "u1" "c1"
           learner_store).
  apply (bool_decide_unpack _). vm_compute. exact I.
Defined.

(** * Properties of the lecture service *)

Lemma calculateStats_progresses this s :
  progresses (fst (calculateStats this s)) = progresses s.
Proof. unfold calculateStats. by destruct (list_find _ (courses s)) as [[i c]|]. Qed.

Lemma Module_post_save_progresses this s :
  progresses (Module_post_save this s) = progresses s.
Proof.
  unfold Module_post_save.
  destruct (Course_findById _ s); [apply calculateStats_progresses|done].
Qed.

Lemma calculateLectureStats_progresses this s :
  progresses (fst (calculateLectureStats this s)) = progresses s.
Proof.
  unfold calculateLectureStats. cbn [fst]. rewrite Module_post_save_progresses.
  by destruct (list_find _ (modules s)) as [[i m]|].
Qed.

Lemma update_module_stats_content moduleId s :
  lectures (update_module_stats moduleId s) = lectures s
  ∧ module_core <$> modules (update_module_stats moduleId s) = module_core <$> modules s
  ∧ progresses (update_module_stats moduleId s) = progresses s.
Proof.
  unfold update_module_stats. destruct (Module_findById moduleId s) as [module|]; [|done].
  destruct (calculateLectureStats_content module s) as [Hl Hm].
  split_and!; [done|done|apply calculateLectureStats_progresses].
Qed.

Lemma Lecture_save_new_content this s s' saved :
  Lecture_save_new this s = (s', Returned saved) →
  saved = Lecture_pre_save this s
  ∧ lectures s' = lectures s ++ [saved]
  ∧ module_core <$> modules s' = module_core <$> modules s
  ∧ progresses s' = progresses s.
Proof.
  unfold Lecture_save_new. destruct (Lecture_validate this) as [|e errors]; [|done].
  cbn zeta. case_decide; [done|]. intros [= <- <-].
  set (s1 := set_lectures _ s).
  destruct (Lecture_post_save_content (Lecture_pre_save this s) s1) as [Hl Hm].
  split_and!; [done|by rewrite Hl|by rewrite Hm|].
  unfold Lecture_post_save.
  destruct (Module_findById _ _) as [module|]; [|done].
  by rewrite calculateLectureStats_progresses.
Qed.

Lemma Module_findById_core id (ms ms' : list IModule) m :
  module_core <$> ms' = module_core <$> ms →
  snd <$> list_find (λ m, m_id m = id) ms = Some m →
  ∃ m', snd <$> list_find (λ m, m_id m = id) ms' = Some m'
        ∧ module_core m' = module_core m.
Proof.
  revert ms'. induction ms as [|x ms IH]; intros [|x' ms'] Heq Hfind; try done.
  rewrite !fmap_cons in Heq.
  assert (module_core x' = module_core x) as Hx by congruence.
  assert (module_core <$> ms' = module_core <$> ms) as Hrest by congruence.
  assert (m_id x' = m_id x) as Hid by (unfold module_core in Hx; congruence).
  cbn [list_find] in *. rewrite Hid. case_decide.
  - injection Hfind as <-. by exists x'.
  - destruct (list_find _ ms) as [[j z]|] eqn:Hz; [|done].
    injection Hfind as ->. destruct (IH ms' Hrest eq_refl) as (m' & Hm' & Hcore).
    exists m'. split; [|done].
    destruct (list_find _ ms') as [[j' z']|]; [|done]. by injection Hm' as ->.
Qed.

Lemma calculateLectureStats_consistent this s :
  module_stats_consistent (m_id this) (fst (calculateLectureStats this s))
  ∧ course_stats_consistent (m_courseId this) (fst (calculateLectureStats this s)).
Proof.
  unfold calculateLectureStats. cbn [fst].
  set (result := {| st_lectureCount := _ |}).
  set (s1 := match list_find _ (modules s) with Some _ => _ | None => _ end).
  assert (module_stats_consistent (m_id this) s1) as Hs1.
  { intros module. unfold Module_findById, module_counts. subst s1.
    destruct (list_find _ (modules s)) as [[i m]|] eqn:Hf.
    - pose proof Hf as (_ & Hid & _)%list_find_Some.
      cbn [set_modules modules lectures].
      rewrite (list_find_insert_same _ _ _ _ _ Hf) by done.
      intros [= <-]. cbn. subst result. cbn. by rewrite aggregate_group_stats.
    - by rewrite Hf. }
  unfold Module_post_save.
  destruct (Course_findById (m_courseId this) s1) as [course|] eqn:Hc.
  - split.
    + intros module. unfold Module_findById, module_counts.
      destruct (calculateStats_content course s1) as [-> ->]. apply Hs1.
    + rewrite <- (Course_findById_id _ _ _ Hc). apply calculateStats_consistent.
  - split; [done|]. intros course. by rewrite Hc.
Qed.

Lemma update_module_stats_consistent moduleId s :
  module_stats_consistent moduleId (update_module_stats moduleId s)
  ∧ ∀ module, Module_findById moduleId s = Some module →
      course_stats_consistent (m_courseId module) (update_module_stats moduleId s).
Proof.
  unfold update_module_stats.
  destruct (Module_findById moduleId s) as [module|] eqn:Hfind.
  - destruct (Module_findById_elem _ _ _ Hfind) as [_ <-].
    split; [apply calculateLectureStats_consistent|].
    intros ? [= <-]. apply calculateLectureStats_consistent.
  - split; [|done]. intros module. by rewrite Hfind.
Qed.

Lemma Lecture_findByIdAndDelete_content lectureId s :
  NoDup (l_id <$> lectures s) →
  lectures (Lecture_findByIdAndDelete lectureId s)
  = filter (λ l, l_id l ≠ lectureId) (lectures s)
  ∧ modules (Lecture_findByIdAndDelete lectureId s) = modules s
  ∧ progresses (Lecture_findByIdAndDelete lectureId s) = progresses s.
Proof.
  intros Hnd. unfold Lecture_findByIdAndDelete.
  destruct (list_find _ (lectures s)) as [[i l]|] eqn:Hf.
  - apply list_find_Some in Hf as (Hi & <- & _). cbn. split; [|done].
    by apply (delete_by_key l_id).
  - split; [|done]. apply list_find_None in Hf. symmetry.
    induction (lectures s) as [|y l IH]; [done|].
    apply Forall_cons in Hf as [Hy Hf]. rewrite fmap_cons in Hnd.
    apply NoDup_cons in Hnd as [_ Hnd].
    rewrite filter_cons_True by done. f_equal. by apply IH.
Qed.

Section lecture_service.
Context (COURSE_NOT_FOUND MODULE_NOT_FOUND LECTURE_NOT_FOUND : string).

(** X24: when [createLecture], [deleteLecture] or [duplicateLecture]
    returns, the stored counters of the lecture's module equal the
    number and the total duration of its active lectures, and the
    counters of that module's course are right as well. *)
Theorem stats_after_lecture_operations s :
  (∀ newLectureId lectureData module lecture,
     Module_findById (cl_moduleId lectureData) s = Some module →
     snd (createLecture COURSE_NOT_FOUND MODULE_NOT_FOUND newLectureId lectureData s)
     = Returned lecture →
     let s' := fst (createLecture COURSE_NOT_FOUND MODULE_NOT_FOUND newLectureId
                      lectureData s) in
     module_stats_consistent (cl_moduleId lectureData) s'
     ∧ course_stats_consistent (m_courseId module) s')
  ∧ (∀ lectureId lecture module,
       Lecture_findById lectureId s = Some lecture →
       Module_findById (l_moduleId lecture) s = Some module →
       let s' := fst (deleteLecture LECTURE_NOT_FOUND lectureId s) in
       module_stats_consistent (l_moduleId lecture) s'
       ∧ course_stats_consistent (m_courseId module) s')
  ∧ (∀ newLectureId lectureId originalLecture module duplicatedLecture,
       Lecture_findById lectureId s = Some originalLecture →
       Module_findById (l_moduleId originalLecture) s = Some module →
       snd (duplicateLecture LECTURE_NOT_FOUND newLectureId lectureId s)
       = Returned duplicatedLecture →
       let s' := fst (duplicateLecture LECTURE_NOT_FOUND newLectureId lectureId s) in
       module_stats_consistent (l_moduleId originalLecture) s'
       ∧ course_stats_consistent (m_courseId module) s').
Proof.
  split_and!.
  - intros newLectureId lectureData module lecture Hmodule. unfold createLecture.
    rewrite Hmodule. destruct (Course_findById _ s) as [course|]; [|done].
    case_decide; [done|].
    destruct (Lecture_save_new _ s) as [s1 [saved|msg]]; [|done].
    intros _. cbn [fst]. destruct (Module_findById_elem _ _ _ Hmodule) as [_ <-].
    apply calculateLectureStats_consistent.
  - intros lectureId lecture module Hlecture Hmodule. unfold deleteLecture.
    rewrite Hlecture. cbn zeta. cbn [fst].
    split; [apply update_module_stats_consistent|].
    apply update_module_stats_consistent.
    unfold Module_findById, Lecture_findByIdAndDelete in *.
    by destruct (list_find _ (lectures s)) as [[i l]|].
  - intros newLectureId lectureId originalLecture module duplicatedLecture
      Hlecture Hmodule. unfold duplicateLecture. rewrite Hlecture. cbn zeta.
    destruct (Lecture_save_new _ s) as [s1 [saved|msg]] eqn:Hsave; [|done].
    intros _. cbn [fst].
    split; [apply update_module_stats_consistent|].
    apply Lecture_save_new_content in Hsave as (_ & _ & Hcore & _).
    destruct (Module_findById_core _ _ _ _ Hcore Hmodule) as (m' & Hm' & Hcm).
    replace (m_courseId module) with (m_courseId m')
      by (unfold module_core in Hcm; congruence).
    by apply update_module_stats_consistent.
Qed.

(** X25: deleting a lecture removes exactly that lecture, keeps every
    other lecture with its number (a gap stays) and every module's id,
    title, number, course and flag; an unknown id throws and changes
    nothing. *)
Theorem deleteLecture_effect lectureId s :
  NoDup (l_id <$> lectures s) →
  match Lecture_findById lectureId s with
  | Some lecture =>
      let s' := fst (deleteLecture LECTURE_NOT_FOUND lectureId s) in
      snd (deleteLecture LECTURE_NOT_FOUND lectureId s) = Returned true
      ∧ lectures s' = filter (λ l, l_id l ≠ lectureId) (lectures s)
      ∧ module_core <$> modules s' = module_core <$> modules s
      ∧ Lecture_findById lectureId s' = None
  | None => deleteLecture LECTURE_NOT_FOUND lectureId s = (s, Thrown LECTURE_NOT_FOUND)
  end.
Proof.
  intros Hnd. unfold deleteLecture.
  destruct (Lecture_findById lectureId s) as [lecture|]; [|done].
  cbn zeta. cbn [fst snd]. split; [done|].
  destruct (update_module_stats_content (l_moduleId lecture)
              (Lecture_findByIdAndDelete lectureId s)) as (Hl & Hm & _).
  destruct (Lecture_findByIdAndDelete_content lectureId s Hnd) as (Hl' & Hm' & _).
  split_and!; [congruence|congruence|].
  unfold Lecture_findById. rewrite Hl, Hl'.
  destruct (list_find _ (filter _ _)) as [[j x]|] eqn:Hf; [|done].
  apply list_find_Some in Hf as (Hj & Hid & _).
  by apply list_elem_of_lookup_2, list_elem_of_filter in Hj as [Hne _].
Qed.

(** X26: deleting a lecture never reaches the learners: every stored
    progress record is exactly as before, so a snapshot that tracked the
    lecture still does, while a snapshot taken afterwards does not. *)
Theorem deleteLecture_snapshot_stale lectureId s lecture :
  NoDup (l_id <$> lectures s) →
  Lecture_findById lectureId s = Some lecture →
  let s' := fst (deleteLecture LECTURE_NOT_FOUND lectureId s) in
  progresses s' = progresses s
  ∧ ∀ now userId courseId,
      lectureId ∉ lp_lectureId
                  <$> flattened (snd (initializeForCourse now userId courseId s')).
Proof.
  intros Hnd Hlecture. unfold deleteLecture. rewrite Hlecture. cbn zeta. cbn [fst].
  destruct (update_module_stats_content (l_moduleId lecture)
              (Lecture_findByIdAndDelete lectureId s)) as (Hl & _ & Hp).
  destruct (Lecture_findByIdAndDelete_content lectureId s Hnd) as (Hl' & _ & Hp').
  split; [congruence|].
  intros now userId courseId (l & m & Hin & _ & Hid & _)%initializeForCourse_tracks.
  rewrite Hl, Hl' in Hin. by apply list_elem_of_filter in Hin as [Hne _].
Qed.

(** X27: a lecture created after a learner's record was initialised is
    not tracked for that learner: the record is unchanged, and a
    progress update for the new lecture throws. *)
Theorem createLecture_untracked now userId courseId progress newLectureId lectureData
    updateData s lecture :
  Progress_findOne userId courseId s = Some progress →
  newLectureId ∉ lp_lectureId <$> flattened progress →
  up_lectureId updateData = newLectureId →
  snd (createLecture COURSE_NOT_FOUND MODULE_NOT_FOUND newLectureId lectureData s)
  = Returned lecture →
  let s' := fst (createLecture COURSE_NOT_FOUND MODULE_NOT_FOUND newLectureId
                   lectureData s) in
  l_id lecture = newLectureId
  ∧ lecture ∈ lectures s'
  ∧ Progress_findOne userId courseId s' = Some progress
  ∧ ProgressService_updateLectureProgress COURSE_NOT_FOUND now userId courseId
      updateData s'
    = (s', Thrown "Lecture not found in progress").
Proof.
  intros Hprogress Hfresh Hid. unfold createLecture.
  destruct (Module_findById _ s) as [module|]; [|done].
  destruct (Course_findById _ s) as [course|]; [|done].
  case_decide; [done|].
  destruct (Lecture_save_new _ s) as [s1 [saved|msg]] eqn:Hsave; [|done].
  intros [= ->]. cbn [fst].
  apply Lecture_save_new_content in Hsave as (-> & Hl & _ & Hp).
  set (s' := fst (calculateLectureStats module s1)).
  assert (Progress_findOne userId courseId s' = Some progress) as Hfind.
  { unfold Progress_findOne, s'. by rewrite calculateLectureStats_progresses, Hp. }
  split_and!.
  - unfold Lecture_pre_save. by case_decide.
  - unfold s'. rewrite (proj1 (calculateLectureStats_content _ _)), Hl.
    apply elem_of_app. right. apply list_elem_of_here.
  - done.
  - unfold ProgressService_updateLectureProgress, find_or_initialize.
    rewrite Hfind, updateLectureProgress_absent; [done|by rewrite Hid].
Qed.
End lecture_service.

(** ** Witnesses for the lecture operations *)

Lemma stats_after_lecture_operations_witness :
  let lectureData :=
    {| cl_title := "Lecture a4"; cl_videoUrl := "https://videos.example/a4";
       cl_duration := 15; cl_moduleId := "a"; cl_courseId := "c1";
       cl_lectureNumber := Some 4 |} in
  (module_stats_consistent "a"
     (fst (createLecture "Course not found" "Module not found" "a4" lectureData
             sample_store))
   ∧ course_stats_consistent "c1"
       (fst (createLecture "Course not found" "Module not found" "a4" lectureData
               sample_store)))
  ∧ (module_stats_consistent "a" (fst (deleteLecture "Lecture not found" "a2" sample_store))
     ∧ course_stats_consistent "c1"
         (fst (deleteLecture "Lecture not found" "a2" sample_store)))
  ∧ (module_stats_consistent "a"
       (fst (duplicateLecture "Lecture not found" "a2'" "a2" sample_store))
     ∧ course_stats_consistent "c1"
         (fst (duplicateLecture "Lecture not found" "a2'" "a2" sample_store))).
Proof.
  intros lectureData.
  destruct (stats_after_lecture_operations "Course not found" "Module not found"
              "Lecture not found" sample_store) as (Hcreate & Hdelete & Hduplicate).
  split; [|split].
  - eapply (Hcreate "a4" lectureData (sample_module "a" "Module A" 1)).
    + vm_compute. reflexivity.
    + vm_compute. reflexivity.
  - apply (Hdelete "a2" (sample_lecture "a2" "a" 2 20) (sample_module "a" "Module A" 1)).
    + vm_compute. reflexivity.
    + vm_compute. reflexivity.
  - eapply (Hduplicate "a2'" "a2" (sample_lecture "a2" "a" 2 20)
              (sample_module "a" "Module A" 1)).
    + vm_compute. reflexivity.
    + vm_compute. reflexivity.
    + vm_compute. reflexivity.
Defined.

Lemma deleteLecture_effect_witness :
  let s' := fst (deleteLecture "Lecture not found" "a2" sample_store) in
  snd (deleteLecture "Lecture not found" "a2" sample_store) = Returned true
  ∧ lectures s' = filter (λ l, l_id l ≠ "a2") (lectures sample_store)
  ∧ module_core <$> modules s' = module_core <$> modules sample_store
  ∧ Lecture_findById "a2" s' = None.
Proof.
  apply (deleteLecture_effect "Lecture not found" "a2" sample_store).
  apply (bool_decide_unpack _). vm_compute. exact I.
Defined.

Lemma deleteLecture_snapshot_stale_witness :
  let s' := fst (deleteLecture "Lecture not found" "a2" learner_store) in
  progresses s' = progresses learner_store
  ∧ ∀ now userId courseId,
      "a2" ∉ lp_lectureId <$> flattened (snd (initializeForCourse now userId courseId s')).
Proof.
  apply (deleteLecture_snapshot_stale "Lecture not found" "a2" learner_store
           (sample_lecture "a2" "a" 2 20)).
  - apply (bool_decide_unpack _). vm_compute. exact I.
  - vm_compute. reflexivity.
Defined.

Lemma createLecture_untracked_witness :
  let lectureData :=
    {| cl_title := "Lecture a4"; cl_videoUrl := "https://videos.example/a4";
       cl_duration := 15; cl_moduleId := "a"; cl_courseId := "c1";
       cl_lectureNumber := Some 4 |} in
  let s' := fst (createLecture "Course not found" "Module not found" "a4" lectureData
                   learner_store) in
  ProgressService_updateLectureProgress "Course not found" 2000 "u1" "c1"
    (mark_completed "a4") s'
  = (s', Thrown "Lecture not found in progress").
Proof.
  intros lectureData s'.
  eapply (createLecture_untracked "Course not found" "Module not found" 2000 "u1" "c1"
            sample_progress "a4" lectureData (mark_completed "a4") learner_store).
  - vm_compute. reflexivity.
  - apply (bool_decide_unpack _). vm_compute. exact I.
  - reflexivity.
  - vm_compute. reflexivity.
Defined.

(** * The progress percentage *)










(** One lecture of four completed: the call returns, the snapshot is
    within the bound, and the percentage is the exact rounding, 25. *)
Example progressPercentage_one_of_four :
  let call := updateLectureProgress 2000 "a1" None (Some true) sample_progress in
  snd call = Returned ()
  ∧ pg_totalLectures (fst call) = 4
  ∧ pg_progressPercentage (fst call) = 25
  ∧ spec_progressPercentage 1 4 = 25.
Proof. cbn zeta. split_and!; vm_compute; reflexivity. Qed.

